(** * RiskRadar: risk scoring and Monte Carlo simulation engine

    A shallow embedding of
      backend/app/services/risk_calculator.py   (class RiskCalculator)
      backend/app/services/monte_carlo.py       (class MonteCarloSimulator)
    together with the pieces of Python and NumPy those two files rely on.

    Numbers.  Python floats are modelled by the rationals [Q]: finite
    arithmetic is exact, there is no rounding and no overflow, and the IEEE
    special values (nan, inf) are not represented.  Equality of scores is
    therefore [Qeq] (written [==]).

    Time.  [datetime.utcnow()] is not modelled; the "calculated_at" and
    "last_updated" entries of the returned dictionaries are left out. *)

From Stdlib Require Import QArith Qround Qabs Qminmax Lia Lqa String Ascii List.
From stdpp Require Import gmap strings list fin_maps sorting.

#[local] Open Scope Q_scope.
#[local] Set Warnings "-register-all".

(* ===================================================================== *)
(** ** Exceptions *)
(* ===================================================================== *)

Inductive exn : Type :=
| TypeError | ValueError | KeyError | IndexError | AttributeError
| SQLAlchemyError.

(** A computation that returns a value or raises. *)
Inductive result (A : Type) : Type :=
| Ok (a : A)
| Raise (e : exn).
Arguments Ok {A} a.
Arguments Raise {A} e.

#[global] Instance result_ret : MRet result := fun A a => Ok a.

#[global] Instance result_bind : MBind result := fun A B k m =>
  match m with
  | Ok a => k a
  | Raise e => Raise e
  end.

Fixpoint mapM {A B} (f : A -> result B) (l : list A) : result (list B) :=
  match l with
  | [] => Ok []
  | x :: l' => y ← f x; ys ← mapM f l'; Ok (y :: ys)
  end.

(* ===================================================================== *)
(** ** Python numbers *)
(* ===================================================================== *)

Definition Qltb (x y : Q) : bool := negb (Qle_bool y x).
Infix "<?" := Qltb (at level 70, no associativity) : Q_scope.
Infix "<=?" := Qle_bool (at level 70, no associativity) : Q_scope.

(** [min(a, b)]: the first argument is kept unless the second is smaller. *)
Definition py_min (a b : Q) : Q := if b <? a then b else a.

(** [max(a, b)]: the first argument is kept unless the second is larger. *)
Definition py_max (a b : Q) : Q := if a <? b then b else a.

(** Nearest integer, ties to the even neighbour. *)
Definition round_half_even (x : Q) : Z :=
  let f := Qfloor x in
  let r := x - inject_Z f in
  if r <? 1 # 2 then f
  else if (1 # 2) <? r then (f + 1)%Z
  else if Z.even f then f else (f + 1)%Z.

(** [round(x, 2)]. *)
Definition py_round2 (x : Q) : Q :=
  inject_Z (round_half_even (x * 100)) / 100.

(* ===================================================================== *)
(** ** JSON values and the dynamic operations applied to them *)
(* ===================================================================== *)

(** What [response.json()] yields and what a JSON column stores.  [JNull]
    is Python's [None]. *)
Inductive json : Type :=
| JNull
| JBool (b : bool)
| JNum (q : Q)
| JStr (s : string)
| JArr (l : list json)
| JObj (m : gmap string json).

(** A Python [dict] with string keys. *)
Abbreviation dict := (gmap string json).

Definition JInt (n : nat) : json := JNum (inject_Z (Z.of_nat n)).

(** Truth value of an object in a boolean context. *)
Definition truthy (x : json) : bool :=
  match x with
  | JNull => false
  | JBool b => b
  | JNum q => negb (Qeq_bool q 0)
  | JStr s => negb (String.eqb s "")
  | JArr l => negb (Nat.eqb (length l) 0)
  | JObj m => negb (Nat.eqb (size m) 0)
  end.

Definition is_substring (k s : string) : bool :=
  match String.index 0 k s with Some _ => true | None => false end.

Definition is_str (k : string) (x : json) : bool :=
  match x with JStr s => String.eqb s k | _ => false end.

(** [k in x] for a string [k]. *)
Definition py_in (k : string) (x : json) : result bool :=
  match x with
  | JObj m => Ok (match m !! k with Some _ => true | None => false end)
  | JArr l => Ok (existsb (is_str k) l)
  | JStr s => Ok (is_substring k s)
  | _ => Raise TypeError
  end.

(** [x and k in x]: the membership test runs only on a truthy [x]. *)
Definition py_and_in (x : json) (k : string) : result bool :=
  if truthy x then py_in k x else Ok false.

(** [x[k]] for a string [k]. *)
Definition py_getitem (k : string) (x : json) : result json :=
  match x with
  | JObj m => match m !! k with Some v => Ok v | None => Raise KeyError end
  | _ => Raise TypeError
  end.

Definition chars (s : string) : list json :=
  map (fun c => JStr (String c EmptyString)) (list_ascii_of_string s).

(** [x[i]] for a non-negative integer [i]. *)
Definition py_index (i : nat) (x : json) : result json :=
  match x with
  | JArr l => match nth_error l i with Some v => Ok v | None => Raise IndexError end
  | JStr s => match nth_error (chars s) i with Some v => Ok v | None => Raise IndexError end
  | JObj _ => Raise KeyError
  | _ => Raise TypeError
  end.

(** [x[:k]]. *)
Definition py_slice_to (k : nat) (x : json) : result json :=
  match x with
  | JArr l => Ok (JArr (firstn k l))
  | JStr s => Ok (JStr (String.substring 0 k s))
  | _ => Raise TypeError
  end.

(** [x[-k:]]. *)
Definition py_slice_last (k : nat) (x : json) : result json :=
  match x with
  | JArr l => Ok (JArr (skipn (length l - k) l))
  | JStr s => Ok (JStr (String.substring (String.length s - k) k s))
  | _ => Raise TypeError
  end.

(** [len(x)]. *)
Definition py_len (x : json) : result nat :=
  match x with
  | JArr l => Ok (length l)
  | JStr s => Ok (String.length s)
  | JObj m => Ok (size m)
  | _ => Raise TypeError
  end.

(** [x.get(k, default)]: only a dict has the method. *)
Definition py_get (k : string) (default : json) (x : json) : result json :=
  match x with
  | JObj m => Ok (match m !! k with Some v => v | None => default end)
  | _ => Raise AttributeError
  end.

Fixpoint remove_char (c : ascii) (s : string) : string :=
  match s with
  | EmptyString => EmptyString
  | String a s' =>
      if Ascii.eqb a c then remove_char c s' else String a (remove_char c s')
  end.

(** [x.replace("%", "")]: only a str has the method. *)
Definition py_replace_percent (x : json) : result json :=
  match x with
  | JStr s => Ok (JStr (remove_char "%"%char s))
  | _ => Raise AttributeError
  end.

(** Iteration over [x] in a comprehension. *)
Definition py_iter (x : json) : result (list json) :=
  match x with
  | JArr l => Ok l
  | JStr s => Ok (chars s)
  | JObj m => Ok (map (fun kv => JStr kv.1) (map_to_list m))
  | _ => Raise TypeError
  end.

(* ===================================================================== *)
(** ** The platform: CPython's float parser and NumPy's square root *)
(* ===================================================================== *)

(** Two library routines have no exact counterpart over [Q] and are taken
    as an interface: [float(s)] on a string ([None] when it raises
    ValueError) and [np.sqrt]. *)
Class Platform : Type := {
  str_to_float : string -> option Q;
  np_sqrt : Q -> Q
}.

(** [float(x)]. *)
Definition py_float `{Platform} (x : json) : result Q :=
  match x with
  | JNum q => Ok q
  | JBool b => Ok (if b then 1 else 0)
  | JStr s => match str_to_float s with Some q => Ok q | None => Raise ValueError end
  | _ => Raise TypeError
  end.

(* ===================================================================== *)
(** ** NumPy reductions on a one-dimensional float array *)
(* ===================================================================== *)

Definition Qsum (a : list Q) : Q := fold_right Qplus 0 a.

Definition Qnat (n : nat) : Q := inject_Z (Z.of_nat n).

Definition Qlen (a : list Q) : Q := Qnat (length a).

(** [np.mean(a)].  (NumPy gives nan, with a warning, on an empty array; here
    the quotient by zero is 0.) *)
Definition np_mean (a : list Q) : Q := Qsum a / Qlen a.

(** [np.std(a)] with the default [ddof=0]: the square root of the mean of
    the squared deviations from the mean. *)
Definition np_std `{Platform} (a : list Q) : Q :=
  let arrmean := np_mean a in
  let x := map (fun v => v - arrmean) a in
  let x := map (fun v => v * v) x in
  np_sqrt (Qsum x / Qlen a).

(** [np.clip(a, lo, hi)] is [minimum(maximum(a, lo), hi)]. *)
Definition np_clip (a : list Q) (lo hi : Q) : list Q :=
  map (fun v => Qmin (Qmax v lo) hi) a.

#[global] Instance Qle_dec (x y : Q) : Decision (x <= y) :=
  match Qlt_le_dec y x with
  | left H => right (Qlt_not_le _ _ H)
  | right H => left H
  end.

(** NumPy's [_lerp]. *)
Definition _lerp (a b t : Q) : Q :=
  let diff_b_a := b - a in
  if t <? 1 # 2 then a + diff_b_a * t else b - diff_b_a * (1 - t).

(** [np.percentile(a, q)] with the default linear method: the array is
    ordered, the fractional position [(n - 1) * q / 100] is located between
    two neighbours and the value is interpolated.  An index of [-1] is the
    last element.  Raises on [q] outside [0, 100] and, as NumPy 1.22 and
    later do, on an empty array. *)
Definition np_percentile (a : list Q) (q : Q) : result Q :=
  let q := q / 100 in
  if (q <? 0) || (1 <? q) then Raise ValueError
  else
    let arr := merge_sort Qle a in
    let values_count := length arr in
    if Nat.eqb values_count 0 then Raise IndexError
    else
      let last := (values_count - 1)%nat in
      let virtual_index := (Qlen arr - 1) * q in
      let floor_index := Qfloor virtual_index in
      let '(previous_index, next_index, previous_pos, next_pos) :=
        if inject_Z (Z.of_nat last) <=? virtual_index
        then ((-1)%Z, (-1)%Z, last, last)
        else if virtual_index <? 0 then (0%Z, 0%Z, O, O)
        else (floor_index, (floor_index + 1)%Z,
              Z.to_nat floor_index, Z.to_nat (floor_index + 1)) in
      let previous := nth previous_pos arr 0 in
      let next := nth next_pos arr 0 in
      let gamma := virtual_index - inject_Z previous_index in
      Ok (_lerp previous next gamma).

(* ===================================================================== *)
(** ** The database and the outside world *)
(* ===================================================================== *)

(** database.py, class RiskScore (table risk_scores). *)
Module RiskScore.
Record t : Type := { risk_category : string; score : Q; raw_data : dict }.
End RiskScore.

(** database.py, class MonteCarloResult (table monte_carlo_results). *)
Module MonteCarloResult.
Record t : Type := {
  risk_category : string;
  mean : Q;
  std : Q;
  percentiles : gmap string Q;
  iterations : Z
}.
End MonteCarloResult.

(** The mutable state of the two services: the tables risk_scores and
    monte_carlo_results, newest row first, and the number of normal
    deviates NumPy's global generator has handed out so far.  The third
    table, risk_data_cache, belongs to the fetchers and is modelled with
    them, as [Cache]; statements about a [World] say nothing about it. *)
Record World : Type := {
  risk_scores : list RiskScore.t;
  monte_carlo_results : list MonteCarloResult.t;
  rng_pos : nat
}.

(** How the database behaves during a call: it works, every statement
    raises, or [SessionLocal()] itself raises. *)
Inductive DbHealth : Type := DbUp | DbFailing | DbNoSession.

(** What a call reads from outside: the data fetchers of data_fetchers.py
    (each returns parsed JSON, [None] as [JNull], or raises), the database's
    health and the stream of standard normal deviates of the generator. *)
Record Env : Type := {
  get_stock_quote : string -> result json;
  get_economic_indicator : string -> result json;
  get_risk_news : string -> result json;
  get_company_filings : string -> result json;
  get_employment_data : string -> result json;
  db_health : DbHealth;
  gauss : nat -> Q
}.

(** Computations that read and update the world and may raise. *)
Definition M (A : Type) : Type := World -> result A * World.

#[global] Instance M_ret : MRet M := fun A a w => (Ok a, w).

#[global] Instance M_bind : MBind M := fun A B k m w =>
  match m w with
  | (Ok a, w') => k a w'
  | (Raise e, w') => (Raise e, w')
  end.

Definition lift {A} (r : result A) : M A := fun w => (r, w).

(** [try: body except Exception: handler]. *)
Definition try_except {A} (body : M A) (handler : M A) : M A := fun w =>
  match body w with
  | (Ok a, w') => (Ok a, w')
  | (Raise _, w') => handler w'
  end.

(* ===================================================================== *)
(** ** risk_calculator.py *)
(* ===================================================================== *)

(** The dictionary a category calculation returns. *)
Module Risk.
Record t : Type := { category : string; score : Q; raw_data : dict }.
End Risk.

(** The dictionary [calculate_all_risks] returns. *)
Module Radar.
Record t : Type := {
  market_risk : Risk.t;
  supply_chain_risk : Risk.t;
  regulatory_risk : Risk.t;
  hr_risk : Risk.t;
  overall_risk : Q
}.
End Radar.

Section RiskCalculator.
Context `{Platform} (env : Env).

(** [_store_risk_score]: the session is opened outside the [try]; a
    failing [add]/[commit] is logged and rolled back. *)
Definition _store_risk_score (category : string) (score : Q) (raw_data : dict)
  : M unit := fun w =>
  match db_health env with
  | DbNoSession => (Raise SQLAlchemyError, w)
  | DbFailing => (Ok tt, w)
  | DbUp =>
      let risk_score :=
        {| RiskScore.risk_category := category;
           RiskScore.score := score;
           RiskScore.raw_data := raw_data |} in
      (Ok tt, {| risk_scores := risk_score :: risk_scores w;
                 monte_carlo_results := monte_carlo_results w;
                 rng_pos := rng_pos w |})
  end.

Definition _default_risk (category : string) : Risk.t :=
  {| Risk.category := category;
     Risk.score := 50;
     Risk.raw_data := {[ "error"%string := JStr "Calculation failed, using default" ]} |}.

(** The [try] block of [calculate_market_risk] up to the comment
    "Normalize to 0-100": the score and the raw data it accumulates. *)
Definition market_signals (symbol : string) : result (Q * dict) :=
  stock_data ← get_stock_quote env symbol;
  gdp_data ← get_economic_indicator env "GDPC1";
  unrate_data ← get_economic_indicator env "UNRATE";
  let score := 50 in
  let raw_data : dict := ∅ in
  c ← py_and_in stock_data "Global Quote";
  '(score, raw_data) ←
    (if c : bool then
       quote ← py_getitem "Global Quote" stock_data;
       v ← py_get "10. change percent" (JStr "0%") quote;
       v ← py_replace_percent v;
       change_percent ← py_float v;
       let volatility_score := py_min 100 (50 + Qabs change_percent * 2) in
       let score := (score + volatility_score) / 2 in
       Ok (score, <["stock_change"%string := JNum change_percent]> raw_data)
     else Ok (score, raw_data));
  c ← py_and_in gdp_data "observations";
  '(score, raw_data) ←
    (if c : bool then
       observations ← py_getitem "observations" gdp_data;
       observations ← py_slice_to 2 observations;
       n ← py_len observations;
       if (2 <=? n)%nat then
         o ← py_index 0 observations;
         v ← py_get "value" (JInt 0) o;
         recent ← py_float v;
         o ← py_index 1 observations;
         v ← py_get "value" (JInt 0) o;
         previous ← py_float v;
         if 0 <? previous then
           let gdp_growth := ((recent - previous) / previous) * 100 in
           let score :=
             if gdp_growth <? 0 then score + Qabs gdp_growth * 5 else score in
           Ok (score, <["gdp_growth"%string := JNum gdp_growth]> raw_data)
         else Ok (score, raw_data)
       else Ok (score, raw_data)
     else Ok (score, raw_data));
  c ← py_and_in unrate_data "observations";
  if c : bool then
    observations ← py_getitem "observations" unrate_data;
    latest ← py_index 0 observations;
    v ← py_get "value" (JInt 0) latest;
    unemployment ← py_float v;
    let score := score + unemployment * 2 in
    Ok (score, <["unemployment"%string := JNum unemployment]> raw_data)
  else Ok (score, raw_data).

(** The [try] block of [calculate_market_risk]. *)
Definition market_risk_try (symbol : string) : M Risk.t :=
  '(score, raw_data) ← lift (market_signals symbol);
  let final_score := py_max 0 (py_min 100 score) in
  _ ← _store_risk_score "market" final_score raw_data;
  mret {| Risk.category := "market";
          Risk.score := py_round2 final_score;
          Risk.raw_data := raw_data |}.

Definition calculate_market_risk (symbol : string) : M Risk.t :=
  try_except
    (market_risk_try symbol)
    (mret (_default_risk "market")).

Definition news_entry (article : json) : result json :=
  title ← py_get "title" (JStr "") article;
  published ← py_get "publishedAt" (JStr "") article;
  Ok (JObj (<["published"%string := published]> {[ "title"%string := title ]})).

Definition supply_chain_signals : result (Q * dict) :=
  let score := 50 in
  let raw_data : dict := ∅ in
  news_data ← get_risk_news env
    "supply chain disruption OR logistics OR shipping delay";
  c ← py_and_in news_data "articles";
  if c : bool then
    articles ← py_getitem "articles" news_data;
    article_count ← py_len articles;
    let risk_adjustment := py_min 30 (Qnat article_count * (3 # 2)) in
    let score := score + risk_adjustment in
    let raw_data := <["news_articles"%string := JInt article_count]> raw_data in
    articles ← py_getitem "articles" news_data;
    articles ← py_slice_to 5 articles;
    articles ← py_iter articles;
    recent_news ← mapM news_entry articles;
    Ok (score, <["recent_news"%string := JArr recent_news]> raw_data)
  else Ok (score, raw_data).

(** The [try] block of [calculate_supply_chain_risk]. *)
Definition supply_chain_risk_try : M Risk.t :=
  '(score, raw_data) ← lift supply_chain_signals;
  let final_score := py_max 0 (py_min 100 score) in
  _ ← _store_risk_score "supply_chain" final_score raw_data;
  mret {| Risk.category := "supply_chain";
          Risk.score := py_round2 final_score;
          Risk.raw_data := raw_data |}.

Definition calculate_supply_chain_risk : M Risk.t :=
  try_except
    (supply_chain_risk_try)
    (mret (_default_risk "supply_chain")).

Definition revenue_value (r : json) : result Q :=
  v ← py_get "val" (JInt 0) r;
  py_float v.

Definition regulatory_signals (cik : string) : result (Q * dict) :=
  let score := 50 in
  let raw_data : dict := ∅ in
  sec_data ← get_company_filings env cik;
  c ← py_and_in sec_data "units";
  if c : bool then
    units ← py_get "units" (JObj ∅) sec_data;
    c ← py_in "USD" units;
    if c : bool then
      revenues ← py_getitem "USD" units;
      n ← py_len revenues;
      if (2 <=? n)%nat then
        last4 ← py_slice_last 4 revenues;
        last4 ← py_iter last4;
        values ← mapM revenue_value last4;
        if (2 <=? length values)%nat then
          let volatility :=
            if 0 <? np_mean values then np_std values / np_mean values else 0 in
          let score := score + volatility * 20 in
          let raw_data := <["revenue_volatility"%string := JNum volatility]> raw_data in
          let raw_data := <["filing_count"%string := JInt n]> raw_data in
          Ok (score, raw_data)
        else Ok (score, raw_data)
      else Ok (score, raw_data)
    else Ok (score, raw_data)
  else Ok (score, raw_data).

(** The [try] block of [calculate_regulatory_risk]. *)
Definition regulatory_risk_try (cik : string) : M Risk.t :=
  '(score, raw_data) ← lift (regulatory_signals cik);
  let final_score := py_max 0 (py_min 100 score) in
  _ ← _store_risk_score "regulatory" final_score raw_data;
  mret {| Risk.category := "regulatory";
          Risk.score := py_round2 final_score;
          Risk.raw_data := raw_data |}.

Definition calculate_regulatory_risk (cik : string) : M Risk.t :=
  try_except
    (regulatory_risk_try cik)
    (mret (_default_risk "regulatory")).

Definition hr_signals : result (Q * dict) :=
  let score := 50 in
  let raw_data : dict := ∅ in
  bls_data ← get_employment_data env "LNS14000000";
  c ← py_and_in bls_data "Results";
  if c : bool then
    results ← py_getitem "Results" bls_data;
    series ← py_get "series" (JArr []) results;
    c ← (if truthy series then n ← py_len series; Ok (0 <? n)%nat else Ok false);
    if c : bool then
      s ← py_index 0 series;
      data ← py_get "data" (JArr []) s;
      n ← py_len data;
      if (2 <=? n)%nat then
        d ← py_index 0 data;
        v ← py_get "value" (JInt 0) d;
        recent ← py_float v;
        d ← py_index 1 data;
        v ← py_get "value" (JInt 0) d;
        previous ← py_float v;
        let score :=
          if previous <? recent then score + (recent - previous) * 10 else score in
        let raw_data := <["unemployment_rate"%string := JNum recent]> raw_data in
        let raw_data :=
          <["unemployment_change"%string := JNum (recent - previous)]> raw_data in
        Ok (score, raw_data)
      else Ok (score, raw_data)
    else Ok (score, raw_data)
  else Ok (score, raw_data).

(** The [try] block of [calculate_hr_risk]. *)
Definition hr_risk_try : M Risk.t :=
  '(score, raw_data) ← lift hr_signals;
  let final_score := py_max 0 (py_min 100 score) in
  _ ← _store_risk_score "hr" final_score raw_data;
  mret {| Risk.category := "hr";
          Risk.score := py_round2 final_score;
          Risk.raw_data := raw_data |}.

Definition calculate_hr_risk : M Risk.t :=
  try_except
    (hr_risk_try)
    (mret (_default_risk "hr")).

Definition calculate_all_risks : M Radar.t :=
  market ← calculate_market_risk "SPY";
  supply_chain ← calculate_supply_chain_risk;
  regulatory ← calculate_regulatory_risk "0000789019";
  hr ← calculate_hr_risk;
  let overall :=
    Risk.score market * (3 # 10) +
    Risk.score supply_chain * (25 # 100) +
    Risk.score regulatory * (25 # 100) +
    Risk.score hr * (2 # 10) in
  mret {| Radar.market_risk := market;
          Radar.supply_chain_risk := supply_chain;
          Radar.regulatory_risk := regulatory;
          Radar.hr_risk := hr;
          Radar.overall_risk := py_round2 overall |}.

(** A call of one of the four category calculations, as api/risk.py
    dispatches them. *)
Inductive Call : Type :=
| MarketCall (symbol : string)
| SupplyChainCall
| RegulatoryCall (cik : string)
| HrCall.

Definition category_of (c : Call) : string :=
  match c with
  | MarketCall _ => "market"
  | SupplyChainCall => "supply_chain"
  | RegulatoryCall _ => "regulatory"
  | HrCall => "hr"
  end.

Definition signals_of (c : Call) : result (Q * dict) :=
  match c with
  | MarketCall symbol => market_signals symbol
  | SupplyChainCall => supply_chain_signals
  | RegulatoryCall cik => regulatory_signals cik
  | HrCall => hr_signals
  end.

Definition calculate_try (c : Call) : M Risk.t :=
  match c with
  | MarketCall symbol => market_risk_try symbol
  | SupplyChainCall => supply_chain_risk_try
  | RegulatoryCall cik => regulatory_risk_try cik
  | HrCall => hr_risk_try
  end.

Definition calculate (c : Call) : M Risk.t :=
  match c with
  | MarketCall symbol => calculate_market_risk symbol
  | SupplyChainCall => calculate_supply_chain_risk
  | RegulatoryCall cik => calculate_regulatory_risk cik
  | HrCall => calculate_hr_risk
  end.

End RiskCalculator.

(* ===================================================================== *)
(** ** monte_carlo.py *)
(* ===================================================================== *)

(** The dictionary [run_simulation] returns. *)
Module Simulation.
Record t : Type := {
  risk_category : string;
  mean : Q;
  std : Q;
  percentiles : gmap string Q;
  iterations : Z
}.
End Simulation.

(** The per-scenario dictionary of [run_multiple_scenarios]. *)
Module Distribution.
Record t : Type := { mean : Q; std : Q; percentiles : gmap string Q }.
End Distribution.

(** The dictionary [run_multiple_scenarios] returns. *)
Module Scenarios.
Record t : Type := {
  risk_category : string;
  scenarios : gmap string Distribution.t
}.
End Scenarios.

Section MonteCarloSimulator.
Context `{Platform} (env : Env).

(** [np.random.normal(loc, scale, size)] on the global generator: each
    sample is [loc + scale * z] for the next standard normal deviate [z].
    A negative [scale] or [size] raises ValueError.  The size is taken to
    be one NumPy can allocate: the theorems that assert a successful draw
    do so for sizes up to 100000, the most the request model admits. *)
Definition np_random_normal (loc scale : Q) (size : Z) : M (list Q) := fun w =>
  if (scale <? 0) || (size <? 0)%Z then (Raise ValueError, w)
  else
    let n := Z.to_nat size in
    (Ok (map (fun i => loc + scale * gauss env (rng_pos w + i)%nat) (seq 0 n)),
     {| risk_scores := risk_scores w;
        monte_carlo_results := monte_carlo_results w;
        rng_pos := (rng_pos w + n)%nat |}).

(** [_get_historical_scores]: the newest [limit] scores of the category;
    the empty list when the query raises. *)
Definition _get_historical_scores (risk_category : string) (limit : nat)
  : M (list Q) := fun w =>
  match db_health env with
  | DbNoSession => (Raise SQLAlchemyError, w)
  | DbFailing => (Ok [], w)
  | DbUp =>
      let scores :=
        firstn limit
          (List.filter
             (fun score => String.eqb (RiskScore.risk_category score) risk_category)
             (risk_scores w)) in
      (Ok (map RiskScore.score scores), w)
  end.

Definition _store_result (result : Simulation.t) : M unit := fun w =>
  match db_health env with
  | DbNoSession => (Raise SQLAlchemyError, w)
  | DbFailing => (Ok tt, w)
  | DbUp =>
      let mc_result :=
        {| MonteCarloResult.risk_category := Simulation.risk_category result;
           MonteCarloResult.mean := Simulation.mean result;
           MonteCarloResult.std := Simulation.std result;
           MonteCarloResult.percentiles := Simulation.percentiles result;
           MonteCarloResult.iterations := Simulation.iterations result |} in
      (Ok tt, {| risk_scores := risk_scores w;
                 monte_carlo_results := mc_result :: monte_carlo_results w;
                 rng_pos := rng_pos w |})
  end.

(** The parameters of the normal distribution [run_simulation] draws
    from (its first [if]/[else]). *)
Definition draw_parameters (historical_scores : list Q) : Q * Q :=
  if negb (Nat.ltb 0 (length historical_scores))
     || Nat.ltb (length historical_scores) 2
  then
    let risk_mean := 50 in
    let risk_std := 15 in
    (risk_mean, risk_std)
  else
    let scores_array := historical_scores in
    let risk_mean := np_mean scores_array in
    let risk_std := np_std scores_array in
    let risk_std := if risk_std <? 1 then 10 else risk_std in
    (risk_mean, risk_std).

(** The rest of the [try] block of [run_simulation], from the comment
    "Run Monte Carlo simulation using normal distribution" on. *)
Definition simulate (risk_category : string) (iterations : Z)
    (risk_mean risk_std : Q) : M Simulation.t :=
  simulations ← np_random_normal risk_mean risk_std iterations;
  let simulations := np_clip simulations 0 100 in
  let sim_mean := np_mean simulations in
  let sim_std := np_std simulations in
  p5 ← lift (np_percentile simulations 5);
  p50 ← lift (np_percentile simulations 50);
  p95 ← lift (np_percentile simulations 95);
  let percentiles : gmap string Q :=
    <["95"%string := p95]> (<["50"%string := p50]> {[ "5"%string := p5 ]}) in
  let result :=
    {| Simulation.risk_category := risk_category;
       Simulation.mean := sim_mean;
       Simulation.std := sim_std;
       Simulation.percentiles := percentiles;
       Simulation.iterations := iterations |} in
  _ ← _store_result result;
  mret result.

(** The result the [except] branch of [run_simulation] returns. *)
Definition default_result (risk_category : string) (iterations : Z)
  : Simulation.t :=
  {| Simulation.risk_category := risk_category;
     Simulation.mean := 50;
     Simulation.std := 10;
     Simulation.percentiles :=
       <["95"%string := 65]> (<["50"%string := 50]> {[ "5"%string := 35 ]});
     Simulation.iterations := iterations |}.

(** The [try] block of [run_simulation]. *)
Definition run_simulation_try (risk_category : string) (iterations : Z)
    (use_cached_data : bool) : M Simulation.t :=
  historical_scores ←
    (if use_cached_data then _get_historical_scores risk_category 30
     else mret []);
  let '(risk_mean, risk_std) := draw_parameters historical_scores in
  simulate risk_category iterations risk_mean risk_std.

Definition run_simulation (risk_category : string) (iterations : Z)
    (use_cached_data : bool) : M Simulation.t :=
  try_except
    (run_simulation_try risk_category iterations use_cached_data)
    (mret (default_result risk_category iterations)).

(** [params[k]]. *)
Definition param (k : string) (params : gmap string Q) : result Q :=
  match params !! k with Some v => Ok v | None => Raise KeyError end.

Definition default_scenarios : list (string * gmap string Q) :=
  [ ("optimistic"%string, <["std"%string := 5]> {[ "mean"%string := 30 ]});
    ("baseline"%string, <["std"%string := 10]> {[ "mean"%string := 50 ]});
    ("pessimistic"%string, <["std"%string := 15]> {[ "mean"%string := 70 ]}) ].

(** The [for] loop of [run_multiple_scenarios], over the items of the
    scenario dictionary in insertion order. *)
Fixpoint scenario_loop (scenarios : list (string * gmap string Q))
    (results : gmap string Distribution.t) : M (gmap string Distribution.t) :=
  match scenarios with
  | [] => mret results
  | (scenario_name, params) :: scenarios' =>
      let iterations := 5000%Z in
      loc ← lift (param "mean" params);
      scale ← lift (param "std" params);
      simulations ← np_random_normal loc scale iterations;
      let simulations := np_clip simulations 0 100 in
      let sim_mean := np_mean simulations in
      let sim_std := np_std simulations in
      p5 ← lift (np_percentile simulations 5);
      p50 ← lift (np_percentile simulations 50);
      p95 ← lift (np_percentile simulations 95);
      let results :=
        <[scenario_name :=
            {| Distribution.mean := sim_mean;
               Distribution.std := sim_std;
               Distribution.percentiles :=
                 <["95"%string := p95]>
                   (<["50"%string := p50]> {[ "5"%string := p5 ]}) |}]> results in
      scenario_loop scenarios' results
  end.

(** [run_multiple_scenarios]; it has no [try] of its own. *)
Definition run_multiple_scenarios (risk_category : string)
    (scenarios : option (list (string * gmap string Q))) : M Scenarios.t :=
  let scenarios :=
    match scenarios with
    | None => default_scenarios
    | Some scenarios => scenarios
    end in
  results ← scenario_loop scenarios ∅;
  mret {| Scenarios.risk_category := risk_category;
          Scenarios.scenarios := results |}.

End MonteCarloSimulator.

(* ===================================================================== *)
(** ** A concrete platform and concrete worlds, for running the model *)
(* ===================================================================== *)

Definition digit_of (c : ascii) : option Z :=
  let n := nat_of_ascii c in
  if (48 <=? n)%nat && (n <=? 57)%nat then Some (Z.of_nat (n - 48)) else None.

(** Digits with at most one point: the numerator read so far, the power of
    ten under it, whether the point and whether a digit has been seen. *)
Fixpoint scan_decimal (s : string) (num : Z) (den : positive)
    (point digit : bool) : option Q :=
  match s with
  | EmptyString => if digit then Some (num # den) else None
  | String c s' =>
      if Ascii.eqb c "."%char then
        if point then None else scan_decimal s' num den true digit
      else
        match digit_of c with
        | Some d =>
            scan_decimal s' (10 * num + d)%Z
              (if point then (10 * den)%positive else den) point true
        | None => None
        end
  end.

(** [float(s)] on the plain decimal numerals ("8.0000", "-0.25", "+3");
    any other string is rejected. *)
Definition decimal_to_float (s : string) : option Q :=
  match s with
  | String "-"%char s' => Qopp <$> scan_decimal s' 0 1 false false
  | String "+"%char s' => scan_decimal s' 0 1 false false
  | _ => scan_decimal s 0 1 false false
  end.

(** Square root rounded down to six decimals. *)
Definition sqrt_micro (x : Q) : Q :=
  inject_Z (Z.sqrt (Qfloor (x * 1000000000000))) / 1000000.

Definition reference_platform : Platform :=
  {| str_to_float := decimal_to_float; np_sqrt := sqrt_micro |}.

(** An empty database and a fresh generator. *)
Definition empty_world : World :=
  {| risk_scores := []; monte_carlo_results := []; rng_pos := 0 |}.

(** No fetcher has data (each returns [None]); the database works. *)
Definition quiet_env : Env :=
  {| get_stock_quote := fun _ => Ok JNull;
     get_economic_indicator := fun _ => Ok JNull;
     get_risk_news := fun _ => Ok JNull;
     get_company_filings := fun _ => Ok JNull;
     get_employment_data := fun _ => Ok JNull;
     db_health := DbUp;
     gauss := fun i => inject_Z (Z.of_nat (i mod 7)) - 3 |}.

(** [quiet_env] with a stock quote whose change-percent text is [change]. *)
Definition quote_env (change : string) : Env :=
  {| get_stock_quote := fun _ =>
       Ok (JObj {[ "Global Quote"%string :=
                     JObj {[ "10. change percent"%string := JStr change ]} ]});
     get_economic_indicator := fun _ => Ok JNull;
     get_risk_news := fun _ => Ok JNull;
     get_company_filings := fun _ => Ok JNull;
     get_employment_data := fun _ => Ok JNull;
     db_health := DbUp;
     gauss := gauss quiet_env |}.

(** Every fetcher returns [None]. *)
Definition signals_absent (env : Env) : Prop :=
  (forall symbol, get_stock_quote env symbol = Ok JNull) /\
  (forall series, get_economic_indicator env series = Ok JNull) /\
  (forall query, get_risk_news env query = Ok JNull) /\
  (forall cik, get_company_filings env cik = Ok JNull) /\
  (forall series, get_employment_data env series = Ok JNull).

(** The fetchers raise (the cache database cannot be reached). *)
Definition failing_env : Env :=
  {| get_stock_quote := fun _ => Raise SQLAlchemyError;
     get_economic_indicator := fun _ => Raise SQLAlchemyError;
     get_risk_news := fun _ => Raise SQLAlchemyError;
     get_company_filings := fun _ => Raise SQLAlchemyError;
     get_employment_data := fun _ => Raise SQLAlchemyError;
     db_health := DbUp;
     gauss := gauss quiet_env |}.

(** The raw signals of the default record, in the words of the
    specification. *)
Definition spec_default_raw_signals : dict :=
  {[ "error"%string := JStr "calculation failed, using default" ]}.


(** A tolerance for comparing floats: 1e-9. *)
Definition fp_tolerance : Q := 1 # 1000000000.

(** The samples [np.random.normal(loc, scale, n)] returns when the
    generator has already handed out [pos] deviates. *)
Definition normal_draws (env : Env) (loc scale : Q) (pos n : nat) : list Q :=
  map (fun i => loc + scale * gauss env (pos + i)%nat) (seq 0 n).

(** [mean], [std] and [percentiles] are the statistics both entry points
    report for the sample set [simulations]: its mean, its standard
    deviation and its 5th, 50th and 95th percentiles under the keys "5",
    "50" and "95". *)
Definition summary_of `{Platform} (simulations : list Q) (mean std : Q)
    (percentiles : gmap string Q) : Prop :=
  mean = np_mean simulations /\
  std = np_std simulations /\
  exists p5 p50 p95,
    np_percentile simulations 5 = Ok p5 /\
    np_percentile simulations 50 = Ok p50 /\
    np_percentile simulations 95 = Ok p95 /\
    percentiles = <["95"%string := p95]> (<["50"%string := p50]> {[ "5"%string := p5 ]}).

(** The distribution [d] summarises 5000 clipped draws from the normal
    distribution [(loc, scale)], starting at deviate [pos]. *)
Definition scenario_summary `{Platform} (env : Env) (loc scale : Q) (pos : nat)
    (d : Distribution.t) : Prop :=
  summary_of (np_clip (normal_draws env loc scale pos (Z.to_nat 5000)) 0 100)
    (Distribution.mean d) (Distribution.std d) (Distribution.percentiles d).

(** The world after [n] more deviates have been drawn. *)
Definition advance (w : World) (n : nat) : World :=
  {| risk_scores := risk_scores w;
     monte_carlo_results := monte_carlo_results w;
     rng_pos := (rng_pos w + n)%nat |}.

(** The first statement of the [try] block of [run_simulation]. *)
Definition fetch_history `{Platform} (env : Env) (risk_category : string)
    (use_cached_data : bool) : M (list Q) :=
  if use_cached_data then _get_historical_scores env risk_category 30
  else mret [].



(** A database holding two market scores: 51.5 (the newest, from a stock
    change of 1.5 percent) and 50 (from no signal at all). *)
Definition two_scores_world : World :=
  {| risk_scores :=
       [ {| RiskScore.risk_category := "market";
            RiskScore.score := 103 # 2;
            RiskScore.raw_data := {[ "stock_change"%string := JNum (3 # 2) ]} |};
         {| RiskScore.risk_category := "market";
            RiskScore.score := 50;
            RiskScore.raw_data := ∅ |} ];
     monte_carlo_results := [];
     rng_pos := 0 |}.

(** Every element lies in [[lo, hi]]. *)
Definition all_within (lo hi : Q) (a : list Q) : Prop :=
  Forall (fun v => lo <= v /\ v <= hi) a.

(** Every risk score stored in the database lies in [0, 100]. *)
Definition stored_scores_valid (w : World) : Prop :=
  Forall (fun row => 0 <= RiskScore.score row /\ RiskScore.score row <= 100)
    (risk_scores w).

(** All stored scores of a category, newest first. *)
Definition category_history (w : World) (risk_category : string) : list Q :=
  map RiskScore.score
    (List.filter
       (fun row => String.eqb (RiskScore.risk_category row) risk_category)
       (risk_scores w)).

(** The row [_store_result] writes for a result. *)
Definition monte_carlo_row (r : Simulation.t) : MonteCarloResult.t :=
  {| MonteCarloResult.risk_category := Simulation.risk_category r;
     MonteCarloResult.mean := Simulation.mean r;
     MonteCarloResult.std := Simulation.std r;
     MonteCarloResult.percentiles := Simulation.percentiles r;
     MonteCarloResult.iterations := Simulation.iterations r |}.

(** A distribution summary whose mean and percentiles lie in [0, 100],
    with the percentiles in increasing order under "5", "50" and "95". *)
Definition distribution_valid (d : Distribution.t) : Prop :=
  0 <= Distribution.mean d /\ Distribution.mean d <= 100 /\
  exists p5 p50 p95,
    Distribution.percentiles d =
      <["95"%string := p95]> (<["50"%string := p50]> {[ "5"%string := p5 ]}) /\
    0 <= p5 /\ p5 <= p50 /\ p50 <= p95 /\ p95 <= 100.

(** A number with two decimals. *)
Definition cents (x : Q) : Prop := exists n : Z, x == inject_Z n / 100.

(* ===================================================================== *)
(** ** data_fetchers.py *)
(* ===================================================================== *)

(** database.py, class RiskDataCache (table risk_data_cache).  Times are
    microseconds on the clock [datetime.utcnow()] reads; the column
    created_at, which nothing reads, is left out. *)
Module RiskDataCache.
Record t : Type := {
  data_type : string;
  source : string;
  symbol : string;
  data : json;
  expires_at : Z
}.
End RiskDataCache.

(** The cache table, rows in insertion order. *)
Abbreviation Cache := (list RiskDataCache.t).

(** What a fetcher call reads from outside: the clock at the moment of the
    cache lookup and the time that passes until a response is cached, the
    setting CACHE_EXPIRY_HOURS, the database's health, and the web:
    [http_get url params] and [http_post url payload] stand for the request,
    [raise_for_status()] and [response.json()] together. *)
Record Net : Type := {
  now : Z;
  request_time : Z;
  CACHE_EXPIRY_HOURS : Z;
  cache_health : DbHealth;
  http_get : string -> dict -> result json;
  http_post : string -> json -> result json
}.

(** [timedelta(hours=h)] in microseconds. *)
Definition hours (h : Z) : Z := (h * 3600000000)%Z.

(** Computations that read and update the cache table and may raise. *)
Definition F (A : Type) : Type := Cache -> result A * Cache.

#[global] Instance F_ret : MRet F := fun A a cache => (Ok a, cache).

#[global] Instance F_bind : MBind F := fun A B k m cache =>
  match m cache with
  | (Ok a, cache') => k a cache'
  | (Raise e, cache') => (Raise e, cache')
  end.

Definition liftF {A} (r : result A) : F A := fun cache => (r, cache).

(** [try: body except Exception: return None]. *)
Definition try_or_none (body : F json) : F json := fun cache =>
  match body cache with
  | (Ok a, cache') => (Ok a, cache')
  | (Raise _, cache') => (Ok JNull, cache')
  end.

(** [not self.api_key]: no key, or the empty string. *)
Definition no_key (api_key : option string) : bool :=
  match api_key with
  | None => true
  | Some k => String.eqb k ""
  end.

Definition key_json (api_key : option string) : json :=
  match api_key with
  | None => JNull
  | Some k => JStr k
  end.

Module DataFetcher.

(** The three columns a cache entry is looked up by. *)
Definition same_key (data_type source symbol : string) (e : RiskDataCache.t)
  : bool :=
  String.eqb (RiskDataCache.data_type e) data_type
  && String.eqb (RiskDataCache.source e) source
  && String.eqb (RiskDataCache.symbol e) symbol.

(** [_get_cached_data]: the data of the first entry with the key that has
    not expired, or [None].  There is no [except] clause: a database error
    reaches the caller. *)
Definition _get_cached_data (net : Net) (data_type source symbol : string)
  : F json := fun cache =>
  match cache_health net with
  | DbUp =>
      let cache_entry :=
        List.find
          (fun e => same_key data_type source symbol e
                    && (now net <? RiskDataCache.expires_at e)%Z)
          cache in
      match cache_entry with
      | Some cache_entry => (Ok (RiskDataCache.data cache_entry), cache)
      | None => (Ok JNull, cache)
      end
  | _ => (Raise SQLAlchemyError, cache)
  end.

(** [_cache_data]: the entries with the key are deleted and a new one is
    added; a database error inside the [try] is logged and rolled back. *)
Definition _cache_data (net : Net) (data_type source symbol : string)
    (data : json) : F unit := fun cache =>
  match cache_health net with
  | DbNoSession => (Raise SQLAlchemyError, cache)
  | DbFailing => (Ok tt, cache)
  | DbUp =>
      let cache_entry :=
        {| RiskDataCache.data_type := data_type;
           RiskDataCache.source := source;
           RiskDataCache.symbol := symbol;
           RiskDataCache.data := data;
           RiskDataCache.expires_at :=
             (now net + request_time net + hours (CACHE_EXPIRY_HOURS net))%Z |} in
      (Ok tt,
       List.filter (fun e => negb (same_key data_type source symbol e)) cache
         ++ [cache_entry])
  end.

End DataFetcher.

Module AlphaVantageFetcher.

Definition BASE_URL : string := "https://www.alphavantage.co/query".

Definition get_stock_quote (net : Net) (api_key : option string)
    (symbol : string) : F json :=
  cached ← DataFetcher._get_cached_data net "market" "alpha_vantage" symbol;
  if truthy cached then mret cached
  else if no_key api_key then mret JNull
  else
    try_or_none
      (let params : dict :=
         <["apikey"%string := key_json api_key]>
           (<["symbol"%string := JStr symbol]>
              {[ "function"%string := JStr "GLOBAL_QUOTE" ]}) in
       data ← liftF (http_get net BASE_URL params);
       c ← liftF (c ← py_in "Error Message" data;
                   if c : bool then Ok true else py_in "Note" data);
       if c : bool then
         note ← liftF (py_get "Note" JNull data);
         _ ← liftF (py_get "Error Message" note data);
         mret JNull
       else
         c ← liftF (py_in "Global Quote" data);
         if c : bool then
           _ ← DataFetcher._cache_data net "market" "alpha_vantage" symbol data;
           mret data
         else mret JNull).

End AlphaVantageFetcher.

Module FREDFetcher.

Definition BASE_URL : string :=
  "https://api.stlouisfed.org/fred/series/observations".

Definition get_economic_indicator (net : Net) (api_key : option string)
    (series_id : string) (limit : nat) : F json :=
  cached ← DataFetcher._get_cached_data net "market" "fred" series_id;
  if truthy cached then mret cached
  else if no_key api_key then mret JNull
  else
    try_or_none
      (let params : dict :=
         <["sort_order"%string := JStr "desc"]>
           (<["limit"%string := JInt limit]>
              (<["file_type"%string := JStr "json"]>
                 (<["api_key"%string := key_json api_key]>
                    {[ "series_id"%string := JStr series_id ]}))) in
       data ← liftF (http_get net BASE_URL params);
       c ← liftF (py_in "observations" data);
       if c : bool then
         _ ← DataFetcher._cache_data net "market" "fred" series_id data;
         mret data
       else mret JNull).

End FREDFetcher.

(** [s.zfill(width)]: zeros are put in front, after a leading sign. *)
Definition zfill (width : nat) (s : string) : string :=
  let pad := string_of_list_ascii (repeat "0"%char (width - String.length s)) in
  match s with
  | String c s' =>
      if Ascii.eqb c "+"%char || Ascii.eqb c "-"%char
      then String c (pad +:+ s')
      else pad +:+ s
  | EmptyString => pad
  end.

Module SECFetcher.

Definition BASE_URL : string :=
  "https://data.sec.gov/api/xbrl/companyconcept/CIK".

Definition get_company_filings (net : Net) (cik taxonomy concept : string)
  : F json :=
  cached ← DataFetcher._get_cached_data net "regulatory" "sec" (cik +:+ "_" +:+ concept);
  if truthy cached then mret cached
  else
    try_or_none
      (let url :=
         BASE_URL +:+ "/" +:+ zfill 10 cik +:+ "/" +:+ taxonomy +:+ "/" +:+ concept
           +:+ ".json" in
       data ← liftF (http_get net url ∅);
       _ ← DataFetcher._cache_data net "regulatory" "sec" (cik +:+ "_" +:+ concept) data;
       mret data).

End SECFetcher.

Module NewsAPIFetcher.

Definition BASE_URL : string := "https://newsapi.org/v2/everything".

Definition get_risk_news (net : Net) (api_key : option string)
    (query : string) (page_size : nat) : F json :=
  cached ← DataFetcher._get_cached_data net "supply_chain" "newsapi" query;
  if truthy cached then mret cached
  else if no_key api_key then mret JNull
  else
    try_or_none
      (let params : dict :=
         <["language"%string := JStr "en"]>
           (<["sortBy"%string := JStr "publishedAt"]>
              (<["pageSize"%string := JInt page_size]>
                 (<["apiKey"%string := key_json api_key]>
                    {[ "q"%string := JStr query ]}))) in
       data ← liftF (http_get net BASE_URL params);
       status ← liftF (py_get "status" JNull data);
       if is_str "ok" status then
         _ ← DataFetcher._cache_data net "supply_chain" "newsapi" query data;
         mret data
       else mret JNull).

End NewsAPIFetcher.

Module BLSFetcher.

Definition BASE_URL : string :=
  "https://api.bls.gov/publicAPI/v2/timeseries/data".

Definition get_employment_data (net : Net) (series_id : string) : F json :=
  cached ← DataFetcher._get_cached_data net "hr" "bls" series_id;
  if truthy cached then mret cached
  else
    try_or_none
      (let payload :=
         JObj (<["endyear"%string := JStr "2024"]>
                 (<["startyear"%string := JStr "2020"]>
                    {[ "seriesid"%string := JArr [JStr series_id] ]})) in
       data ← liftF (http_post net BASE_URL payload);
       status ← liftF (py_get "status" JNull data);
       if is_str "REQUEST_SUCCEEDED" status then
         _ ← DataFetcher._cache_data net "hr" "bls" series_id data;
         mret data
       else mret JNull).

End BLSFetcher.

(** A call of one of the five fetchers, with its arguments. *)
Inductive Fetch : Type :=
| StockQuote (api_key : option string) (symbol : string)
| EconomicIndicator (api_key : option string) (series_id : string) (limit : nat)
| CompanyFilings (cik taxonomy concept : string)
| RiskNews (api_key : option string) (query : string) (page_size : nat)
| EmploymentData (series_id : string).

Definition fetch (net : Net) (f : Fetch) : F json :=
  match f with
  | StockQuote api_key symbol =>
      AlphaVantageFetcher.get_stock_quote net api_key symbol
  | EconomicIndicator api_key series_id limit =>
      FREDFetcher.get_economic_indicator net api_key series_id limit
  | CompanyFilings cik taxonomy concept =>
      SECFetcher.get_company_filings net cik taxonomy concept
  | RiskNews api_key query page_size =>
      NewsAPIFetcher.get_risk_news net api_key query page_size
  | EmploymentData series_id => BLSFetcher.get_employment_data net series_id
  end.

(** The cache key a fetcher call uses. *)
Definition fetch_key (f : Fetch) : string * string * string :=
  match f with
  | StockQuote _ symbol => ("market", "alpha_vantage", symbol)
  | EconomicIndicator _ series_id _ => ("market", "fred", series_id)
  | CompanyFilings cik _ concept => ("regulatory", "sec", cik +:+ "_" +:+ concept)
  | RiskNews _ query _ => ("supply_chain", "newsapi", query)
  | EmploymentData series_id => ("hr", "bls", series_id)
  end%string.

(** The key of a cache entry. *)
Definition entry_key (e : RiskDataCache.t) : string * string * string :=
  (RiskDataCache.data_type e, RiskDataCache.source e, RiskDataCache.symbol e).

(** No two cache entries have the same key. *)
Definition cache_unique (cache : Cache) : Prop := NoDup (map entry_key cache).

(** A stock quote as Alpha Vantage answers it. *)
Definition quote_response : json :=
  JObj {[ "Global Quote"%string :=
            JObj {[ "10. change percent"%string := JStr "1.50%" ]} ]}.

(** The clock reads [now]; the web answers every GET with [quote_response]
    after a quarter of a second and refuses every POST; the database works
    and entries live 24 hours. *)
Definition quote_net (now : Z) : Net :=
  {| now := now;
     request_time := 250000;
     CACHE_EXPIRY_HOURS := 24;
     cache_health := DbUp;
     http_get := fun _ _ => Ok quote_response;
     http_post := fun _ _ => Raise ValueError |}.

(** [quote_net] with the database failing. *)
Definition down_net (now : Z) : Net :=
  {| now := now;
     request_time := 250000;
     CACHE_EXPIRY_HOURS := 24;
     cache_health := DbFailing;
     http_get := fun _ _ => Ok quote_response;
     http_post := fun _ _ => Raise ValueError |}.

(** A cache with an entry for SPY that expired at time 0 and an entry for
    a FRED series that lives until time 1000. *)
Definition stale_cache : Cache :=
  [ {| RiskDataCache.data_type := "market";
       RiskDataCache.source := "alpha_vantage";
       RiskDataCache.symbol := "SPY";
       RiskDataCache.data := JObj {[ "Global Quote"%string := JObj ∅ ]};
       RiskDataCache.expires_at := 0 |};
    {| RiskDataCache.data_type := "market";
       RiskDataCache.source := "fred";
       RiskDataCache.symbol := "UNRATE";
       RiskDataCache.data := JObj {[ "observations"%string := JArr [] ]};
       RiskDataCache.expires_at := 1000 |} ].

(* ===================================================================== *)
(** ** RiskCalculator.__init__ *)
(* ===================================================================== *)

(** The API keys [RiskCalculator.__init__] reads from the environment. *)
Record ApiKeys : Type := {
  ALPHA_VANTAGE_API_KEY : option string;
  FRED_API_KEY : option string;
  NEWS_API_KEY : option string
}.

(** The environment of a [RiskCalculator] whose fetchers are those of
    data_fetchers.py, called with the arguments risk_calculator.py passes
    and reading the cache table [cache].  It describes a calculation up to
    the first fetcher call that writes to the cache. *)
Definition calculator_env (keys : ApiKeys) (net : Net) (cache : Cache)
    (db : DbHealth) (deviates : nat -> Q) : Env :=
  {| get_stock_quote := fun symbol =>
       (fetch net (StockQuote (ALPHA_VANTAGE_API_KEY keys) symbol) cache).1;
     get_economic_indicator := fun series_id =>
       (fetch net (EconomicIndicator (FRED_API_KEY keys) series_id 20) cache).1;
     get_risk_news := fun query =>
       (fetch net (RiskNews (NEWS_API_KEY keys) query 20) cache).1;
     get_company_filings := fun cik =>
       (fetch net (CompanyFilings cik "us-gaap" "Revenues") cache).1;
     get_employment_data := fun series_id =>
       (fetch net (EmploymentData series_id) cache).1;
     db_health := db;
     gauss := deviates |}.

(** No API key is set. *)
Definition no_keys : ApiKeys :=
  {| ALPHA_VANTAGE_API_KEY := None; FRED_API_KEY := None; NEWS_API_KEY := None |}.

(* ===================================================================== *)
(** ** models.py and the endpoints of api/ *)
(* ===================================================================== *)

(** What an endpoint answers: a body, sent with status 200, or an
    HTTPException with its status code. *)
Inductive Response (A : Type) : Type :=
| Http200 (body : A)
| HTTPException (status_code : Z).
Arguments Http200 {A} body.
Arguments HTTPException {A} status_code.

(** [x in l] for a list of strings. *)
Definition str_in (x : string) (l : list string) : bool :=
  existsb (String.eqb x) l.

Definition valid_categories : list string :=
  ["market"; "supply_chain"; "regulatory"; "hr"]%string.

(** [score: float = Field(..., ge=0, le=100)]. *)
Module RiskScoreResponse.
Definition validate (r : Risk.t) : bool :=
  (0 <=? Risk.score r) && (Risk.score r <=? 100).
End RiskScoreResponse.

(** Four [RiskScoreResponse]s and [overall_risk: float = Field(..., ge=0,
    le=100)]. *)
Module RiskRadarResponse.
Definition validate (r : Radar.t) : bool :=
  RiskScoreResponse.validate (Radar.market_risk r)
  && RiskScoreResponse.validate (Radar.supply_chain_risk r)
  && RiskScoreResponse.validate (Radar.regulatory_risk r)
  && RiskScoreResponse.validate (Radar.hr_risk r)
  && (0 <=? Radar.overall_risk r) && (Radar.overall_risk r <=? 100).
End RiskRadarResponse.

(** [iterations: int = Field(5000, ge=100, le=100000)]. *)
Module MonteCarloRequest.
Record t : Type := {
  risk_category : string;
  iterations : Z;
  use_cached_data : bool
}.
Definition validate (request : t) : bool :=
  (100 <=? iterations request)%Z && (iterations request <=? 100000)%Z.
End MonteCarloRequest.

Module DataRefreshResponse.
Record t : Type := {
  refreshed_types : list string;
  success : bool;
  message : string
}.
End DataRefreshResponse.

(** [response_model=...] in the route decorator: the body the handler
    returns is validated against the model, and a body that fails is
    answered with status 500. *)
Definition response_model {A} (validate : A -> bool)
    (answer : Response A * World) : Response A * World :=
  match answer with
  | (Http200 body, w) =>
      if validate body then (Http200 body, w) else (HTTPException 500, w)
  | _ => answer
  end.

(** [try: ... return result except Exception: raise HTTPException(500)]. *)
Definition or_500 {A} (body : M A) : World -> Response A * World := fun w =>
  match body w with
  | (Ok result, w') => (Http200 result, w')
  | (Raise _, w') => (HTTPException 500, w')
  end.

Section Api.
Context `{Platform} (env : Env).

(** api/risk.py *)

Definition get_risk_radar : World -> Response Radar.t * World := fun w =>
  response_model RiskRadarResponse.validate
    (or_500 (calculate_all_risks env) w).

(** The [if]/[elif] chain of [get_risk_category]; when no branch is
    taken the name [result] is unbound. *)
Definition risk_dispatch (category : string) : option Call :=
  if String.eqb category "market" then Some (MarketCall "SPY")
  else if String.eqb category "supply_chain" then Some SupplyChainCall
  else if String.eqb category "regulatory" then Some (RegulatoryCall "0000789019")
  else if String.eqb category "hr" then Some HrCall
  else None.

Definition get_risk_category (category : string)
  : World -> Response Risk.t * World := fun w =>
  if negb (str_in category valid_categories) then (HTTPException 400, w)
  else
    response_model RiskScoreResponse.validate
      (match risk_dispatch category with
       | Some c => or_500 (calculate env c) w
       | None => (HTTPException 500, w)
       end).

(** api/monte_carlo.py *)

Definition run_monte_carlo (request : MonteCarloRequest.t)
  : World -> Response Simulation.t * World := fun w =>
  if negb (str_in (MonteCarloRequest.risk_category request) valid_categories)
  then (HTTPException 400, w)
  else
    or_500
      (run_simulation env
         (MonteCarloRequest.risk_category request)
         (MonteCarloRequest.iterations request)
         (MonteCarloRequest.use_cached_data request)) w.

Definition get_scenarios (category : string)
  : World -> Response Scenarios.t * World := fun w =>
  if negb (str_in category valid_categories) then (HTTPException 400, w)
  else or_500 (run_multiple_scenarios env category None) w.

(** api/data_refresh.py *)

(** The [if]/[elif] chain of the loop body of [refresh_data_background]:
    a name that is none of the four calculates nothing. *)
Definition refresh_one (data_type : string) : M unit :=
  if String.eqb data_type "market" then
    _ ← calculate_market_risk env "SPY"; mret tt
  else if String.eqb data_type "supply_chain" then
    _ ← calculate_supply_chain_risk env; mret tt
  else if String.eqb data_type "regulatory" then
    _ ← calculate_regulatory_risk env "0000789019"; mret tt
  else if String.eqb data_type "hr" then
    _ ← calculate_hr_risk env; mret tt
  else mret tt.

(** The [for] loop: a type whose calculation raises is logged and left
    out of [refreshed]. *)
Fixpoint refresh_loop (data_types refreshed : list string) : M (list string) :=
  match data_types with
  | [] => mret refreshed
  | data_type :: data_types' => fun w =>
      match refresh_one data_type w with
      | (Ok _, w') => refresh_loop data_types' (refreshed ++ [data_type]) w'
      | (Raise _, w') => refresh_loop data_types' refreshed w'
      end
  end.

Definition refresh_data_background (data_types : option (list string))
  : M (list string) :=
  try_except
    (let data_types :=
       match data_types with
       | None => ["market"; "supply_chain"; "regulatory"; "hr"]%string
       | Some data_types => data_types
       end in
     refresh_loop data_types [])
    (mret []).

End Api.

(** [refresh_data]: the response, and the argument the background task is
    queued with.  [request.data_types or [...]] takes the four categories
    for [None] and for the empty list. *)
Definition refresh_data (request_data_types : option (list string))
  : Response DataRefreshResponse.t * list string :=
  let data_types :=
    match request_data_types with
    | Some (data_type :: data_types') => data_type :: data_types'
    | _ => ["market"; "supply_chain"; "regulatory"; "hr"]%string
    end in
  (Http200 {| DataRefreshResponse.refreshed_types := data_types;
              DataRefreshResponse.success := true;
              DataRefreshResponse.message :=
                "Data refresh initiated in background" |},
   data_types).

(** One value of the dictionary [get_data_status] builds. *)
Module DataStatus.
Record t : Type := {
  sources : list string;
  total_entries : nat;
  expired_entries : nat
}.
End DataStatus.

(** One turn of the loop of [get_data_status] on the value of the entry's
    data type; [utcnow] is the clock as read in this turn. *)
Definition status_step (utcnow : Z) (entry : RiskDataCache.t)
    (s : DataStatus.t) : DataStatus.t :=
  let s :=
    {| DataStatus.sources := DataStatus.sources s;
       DataStatus.total_entries := DataStatus.total_entries s + 1;
       DataStatus.expired_entries := DataStatus.expired_entries s |} in
  let s :=
    if (RiskDataCache.expires_at entry <? utcnow)%Z then
      {| DataStatus.sources := DataStatus.sources s;
         DataStatus.total_entries := DataStatus.total_entries s;
         DataStatus.expired_entries := DataStatus.expired_entries s + 1 |}
    else s in
  if negb (str_in (RiskDataCache.source entry) (DataStatus.sources s)) then
    {| DataStatus.sources := DataStatus.sources s ++ [RiskDataCache.source entry];
       DataStatus.total_entries := DataStatus.total_entries s;
       DataStatus.expired_entries := DataStatus.expired_entries s |}
  else s.

(** The loop of [get_data_status]; the clock is read once per entry, and
    [clock k] is its reading at entry number [k]. *)
Fixpoint status_loop (clock : nat -> Z) (k : nat) (cache_entries : Cache)
    (status : gmap string DataStatus.t) : gmap string DataStatus.t :=
  match cache_entries with
  | [] => status
  | entry :: cache_entries' =>
      let data_type := RiskDataCache.data_type entry in
      let status :=
        match status !! data_type with
        | None =>
            <[data_type := {| DataStatus.sources := [];
                              DataStatus.total_entries := 0;
                              DataStatus.expired_entries := 0 |}]> status
        | Some _ => status
        end in
      let status := alter (status_step (clock k) entry) data_type status in
      status_loop clock (S k) cache_entries' status
  end.

(** [get_data_status]: there is no [except] clause, a database error
    reaches the caller. *)
Definition get_data_status (health : DbHealth) (clock : nat -> Z)
    (cache : Cache) : result (gmap string DataStatus.t) :=
  match health with
  | DbUp => Ok (status_loop clock 0 cache ∅)
  | _ => Raise SQLAlchemyError
  end.

(** The cache entries of a data type. *)
Definition entries_of (data_type : string) (cache : Cache) : Cache :=
  List.filter (fun e => String.eqb (RiskDataCache.data_type e) data_type) cache.

(** How many entries expire before the time [t]. *)
Definition expired_before (t : Z) (cache : Cache) : nat :=
  length (List.filter (fun e => (RiskDataCache.expires_at e <? t)%Z) cache).

(** The loop of [get_data_status] as it acts on the value of one data
    type. *)
Fixpoint status_of (clock : nat -> Z) (k : nat) (data_type : string)
    (cache_entries : Cache) (s : option DataStatus.t) : option DataStatus.t :=
  match cache_entries with
  | [] => s
  | entry :: cache_entries' =>
      status_of clock (S k) data_type cache_entries'
        (if String.eqb (RiskDataCache.data_type entry) data_type then
           Some (status_step (clock k) entry
                   (default {| DataStatus.sources := [];
                               DataStatus.total_entries := 0;
                               DataStatus.expired_entries := 0 |} s))
         else s)
  end.

(** The q-th percentile of an array in ascending order, as NumPy documents
    its default method: the value at the fractional rank (n - 1) * q / 100,
    interpolated linearly between the two elements next to that rank. *)
Definition spec_percentile (sorted : list Q) (q : Q) : Q :=
  let rank := (Qlen sorted - 1) * (q / 100) in
  let below := Z.to_nat (Qfloor rank) in
  let fraction := rank - inject_Z (Qfloor rank) in
  nth below sorted 0 + (nth (S below) sorted 0 - nth below sorted 0) * fraction.

(** The distribution summary of the specification, spelled out on the
    samples drawn: every draw is clipped to [0, 100]; [mean] is the sum of
    the clipped samples over their number; [std] is the square root of
    their mean squared deviation from [mean]; and [percentiles] holds,
    under "5", "50" and "95", the 5th, 50th and 95th percentile of the
    clipped samples put in ascending order. *)
Definition spec_clipped_summary `{Platform} (draws : list Q) (mean std : Q)
    (percentiles : gmap string Q) : Prop :=
  let clipped := map (fun v => Qmin (Qmax v 0) 100) draws in
  mean = Qsum clipped / Qlen clipped /\
  std = np_sqrt (Qsum (map (fun v => (v - mean) * (v - mean)) clipped)
                 / Qlen clipped) /\
  0 <= mean /\ mean <= 100 /\
  exists (sorted : list Q) (p5 p50 p95 : Q),
    Permutation clipped sorted /\
    StronglySorted Qle sorted /\
    p5 == spec_percentile sorted 5 /\
    p50 == spec_percentile sorted 50 /\
    p95 == spec_percentile sorted 95 /\
    percentiles
      = <["95"%string := p95]> (<["50"%string := p50]> {[ "5"%string := p5 ]}) /\
    0 <= p5 /\ p5 <= p50 /\ p50 <= p95 /\ p95 <= 100.

(** The web request a fetcher call makes when the cache has nothing for
    it, with the URL and the parameters of the source; [None] when the call
    returns before any request because its API key is not set. *)
Definition web_request (net : Net) (f : Fetch) : option (result json) :=
  match f with
  | StockQuote api_key symbol =>
      if no_key api_key then None
      else
        Some (http_get net AlphaVantageFetcher.BASE_URL
                (<["apikey"%string := key_json api_key]>
                   (<["symbol"%string := JStr symbol]>
                      {[ "function"%string := JStr "GLOBAL_QUOTE" ]})))
  | EconomicIndicator api_key series_id limit =>
      if no_key api_key then None
      else
        Some (http_get net FREDFetcher.BASE_URL
                (<["sort_order"%string := JStr "desc"]>
                   (<["limit"%string := JInt limit]>
                      (<["file_type"%string := JStr "json"]>
                         (<["api_key"%string := key_json api_key]>
                            {[ "series_id"%string := JStr series_id ]})))))
  | CompanyFilings cik taxonomy concept =>
      Some (http_get net
              (SECFetcher.BASE_URL +:+ "/" +:+ zfill 10 cik +:+ "/" +:+ taxonomy
                 +:+ "/" +:+ concept +:+ ".json") ∅)
  | RiskNews api_key query page_size =>
      if no_key api_key then None
      else
        Some (http_get net NewsAPIFetcher.BASE_URL
                (<["language"%string := JStr "en"]>
                   (<["sortBy"%string := JStr "publishedAt"]>
                      (<["pageSize"%string := JInt page_size]>
                         (<["apiKey"%string := key_json api_key]>
                            {[ "q"%string := JStr query ]})))))
  | EmploymentData series_id =>
      Some (http_post net BLSFetcher.BASE_URL
              (JObj (<["endyear"%string := JStr "2024"]>
                       (<["startyear"%string := JStr "2020"]>
                          {[ "seriesid"%string := JArr [JStr series_id] ]}))))
  end.

(* ===================================================================== *)
(** ** Facts about the number operations *)
(* ===================================================================== *)

Lemma Qltb_true (x y : Q) : (x <? y) = true -> x < y.
Proof.
  unfold Qltb. intros E. apply negb_true_iff in E.
  apply Qnot_le_lt. intros L. apply Qle_bool_iff in L. congruence.
Qed.

Lemma Qltb_false (x y : Q) : (x <? y) = false -> y <= x.
Proof.
  unfold Qltb. intros E. apply negb_false_iff in E. now apply Qle_bool_iff.
Qed.

Lemma Qleb_true (x y : Q) : (x <=? y) = true -> x <= y.
Proof. apply Qle_bool_iff. Qed.

Lemma Qleb_false (x y : Q) : (x <=? y) = false -> y < x.
Proof.
  intros E. apply Qnot_le_lt. intros L. apply Qle_bool_iff in L. congruence.
Qed.

(** Case analysis on the comparisons of the goal, innermost first. *)
Ltac no_cmp t :=
  lazymatch t with
  | context [Qltb _ _] => fail
  | context [Qle_bool _ _] => fail
  | _ => idtac
  end.

Ltac case_cmp :=
  repeat match goal with
  | |- context [?x <? ?y] =>
      no_cmp x; no_cmp y;
      let E := fresh "E" in
      destruct (x <? y) eqn:E;
      [apply Qltb_true in E | apply Qltb_false in E]
  | |- context [?x <=? ?y] =>
      no_cmp x; no_cmp y;
      let E := fresh "E" in
      destruct (x <=? y) eqn:E;
      [apply Qleb_true in E | apply Qleb_false in E]
  end.

(** Linear arithmetic after the quotients by a constant have been turned
    into products. *)
Ltac lraQ :=
  unfold Qdiv in *;
  repeat match goal with
  | |- context [Qinv (Qmake ?n ?d)] =>
      let v := eval vm_compute in (Qinv (Qmake n d)) in
      change (Qinv (Qmake n d)) with v in *
  | _ : context [Qinv (Qmake ?n ?d)] |- _ =>
      let v := eval vm_compute in (Qinv (Qmake n d)) in
      change (Qinv (Qmake n d)) with v in *
  end;
  lra.

#[global] Instance Qltb_comp : Proper (Qeq ==> Qeq ==> eq) Qltb.
Proof. intros x x' Hx y y' Hy. unfold Qltb. now rewrite Hx, Hy. Qed.

#[global] Instance py_min_comp : Proper (Qeq ==> Qeq ==> Qeq) py_min.
Proof. intros x x' Hx y y' Hy. unfold py_min. rewrite Hx, Hy. now case_cmp. Qed.

#[global] Instance py_max_comp : Proper (Qeq ==> Qeq ==> Qeq) py_max.
Proof. intros x x' Hx y y' Hy. unfold py_max. rewrite Hx, Hy. now case_cmp. Qed.

(** The clamp [max(0, min(100, score))] lands in [0, 100]. *)
Lemma clamp_range (score : Q) :
  0 <= py_max 0 (py_min 100 score) /\ py_max 0 (py_min 100 score) <= 100.
Proof. unfold py_max, py_min. case_cmp; lra. Qed.

Lemma round_half_even_comp (x y : Q) :
  x == y -> round_half_even x = round_half_even y.
Proof.
  intros E. unfold round_half_even. rewrite (Qfloor_comp _ _ E).
  assert ((x - inject_Z (Qfloor y) <? 1 # 2) = (y - inject_Z (Qfloor y) <? 1 # 2))
    as -> by now rewrite E.
  assert (((1 # 2) <? x - inject_Z (Qfloor y)) = ((1 # 2) <? y - inject_Z (Qfloor y)))
    as -> by now rewrite E.
  reflexivity.
Qed.

(** Rounding moves a number by at most one half. *)
Lemma round_half_even_near (x : Q) :
  x - (1 # 2) <= inject_Z (round_half_even x) /\
  inject_Z (round_half_even x) <= x + (1 # 2).
Proof.
  unfold round_half_even.
  pose proof (Qfloor_le x) as Hlo. pose proof (Qlt_floor x) as Hhi.
  rewrite inject_Z_plus in Hhi.
  assert (inject_Z 1 == 1) as E1 by reflexivity. rewrite E1 in Hhi.
  case_cmp; try destruct (Z.even (Qfloor x));
    rewrite ?inject_Z_plus, ?E1; lra.
Qed.

Lemma inject_Z_le_inv (a b : Z) : inject_Z a <= inject_Z b + (1 # 2) -> (a <= b)%Z.
Proof. unfold Qle, Qplus, inject_Z. simpl. lia. Qed.

Lemma inject_Z_ge_inv (a b : Z) : inject_Z b - (1 # 2) <= inject_Z a -> (b <= a)%Z.
Proof. unfold Qle, Qminus, Qplus, Qopp, inject_Z. simpl. lia. Qed.

#[global] Instance py_round2_comp : Proper (Qeq ==> Qeq) py_round2.
Proof.
  intros x y E. unfold py_round2.
  rewrite (round_half_even_comp (x * 100) (y * 100)); [reflexivity |].
  now rewrite E.
Qed.

(** [round(x, 2)] is within 0.005 of [x]. *)
Lemma py_round2_near (x : Q) : Qabs (py_round2 x - x) <= 5 # 1000.
Proof.
  unfold py_round2. destruct (round_half_even_near (x * 100)) as [Hlo Hhi].
  generalize dependent (inject_Z (round_half_even (x * 100))). intros n Hlo Hhi.
  apply Qabs_Qle_condition. split; lraQ.
Qed.

(** [round(x, 2)] keeps a score of [0, 100] in [0, 100]. *)
Lemma py_round2_range (x : Q) :
  0 <= x -> x <= 100 -> 0 <= py_round2 x /\ py_round2 x <= 100.
Proof.
  intros H0 H100. unfold py_round2.
  destruct (round_half_even_near (x * 100)) as [Hlo Hhi].
  assert (0 <= round_half_even (x * 100))%Z as Z0.
  { apply inject_Z_ge_inv. change (inject_Z 0) with 0. lra. }
  assert (round_half_even (x * 100) <= 10000)%Z as Z1.
  { apply inject_Z_le_inv. change (inject_Z 10000) with 10000. lra. }
  rewrite Zle_Qle in Z0, Z1.
  change (inject_Z 0) with 0 in Z0. change (inject_Z 10000) with 10000 in Z1.
  generalize dependent (inject_Z (round_half_even (x * 100))). intros.
  split; lraQ.
Qed.

(* ===================================================================== *)
(** ** The category calculations *)
(* ===================================================================== *)

Section RiskCalculatorFacts.
Context `{Platform} (env : Env).

(** Every [try] block has the same tail: clamp, store, round. *)
Lemma calculate_try_unfold (c : Call) (w : World) :
  calculate_try env c w =
  match signals_of env c with
  | Raise e => (Raise e, w)
  | Ok (score, raw_data) =>
      let final_score := py_max 0 (py_min 100 score) in
      match _store_risk_score env (category_of c) final_score raw_data w with
      | (Ok _, w') =>
          (Ok {| Risk.category := category_of c;
                 Risk.score := py_round2 final_score;
                 Risk.raw_data := raw_data |}, w')
      | (Raise e, w') => (Raise e, w')
      end
  end.
Proof.
  destruct c; cbn [calculate_try signals_of category_of];
    unfold market_risk_try, supply_chain_risk_try, regulatory_risk_try,
      hr_risk_try, mbind, M_bind, lift;
    match goal with |- context [match ?s with Ok _ => _ | Raise _ => _ end] =>
      destruct s as [[score raw_data] | e] end; try reflexivity;
    cbn zeta; destruct (_store_risk_score _ _ _ _ _) as [[[] | e] w'];
    reflexivity.
Qed.

Lemma calculate_unfold (c : Call) (w : World) :
  calculate env c w =
  match calculate_try env c w with
  | (Ok r, w') => (Ok r, w')
  | (Raise _, w') => (Ok (_default_risk (category_of c)), w')
  end.
Proof. destruct c; reflexivity. Qed.

(** The store never changes the world when it raises, and appends one
    row when the database works. *)
Lemma store_risk_score_cases (category : string) (score : Q) (raw_data : dict)
    (w : World) :
  match db_health env with
  | DbNoSession =>
      _store_risk_score env category score raw_data w = (Raise SQLAlchemyError, w)
  | DbFailing => _store_risk_score env category score raw_data w = (Ok tt, w)
  | DbUp =>
      _store_risk_score env category score raw_data w =
      (Ok tt,
       {| risk_scores :=
            {| RiskScore.risk_category := category;
               RiskScore.score := score;
               RiskScore.raw_data := raw_data |} :: risk_scores w;
          monte_carlo_results := monte_carlo_results w;
          rng_pos := rng_pos w |})
  end.
Proof. unfold _store_risk_score. destruct (db_health env); reflexivity. Qed.

Lemma signals_absent_score (c : Call) :
  signals_absent env -> signals_of env c = Ok (50, ∅).
Proof.
  intros (Hq & Hf & Hn & Hs & Hb).
  destruct c; cbn [signals_of];
    unfold market_signals, supply_chain_signals, regulatory_signals, hr_signals;
    rewrite ?Hq, ?Hf, ?Hn, ?Hs, ?Hb; reflexivity.
Qed.


(** A calculation returns either the default record or the rounded clamp
    of the score its signals add up to. *)
Lemma calculate_cases (c : Call) (w : World) :
  exists r w',
    calculate env c w = (Ok r, w') /\
    (r = _default_risk (category_of c) \/
     exists score raw_data,
       signals_of env c = Ok (score, raw_data) /\
       r = {| Risk.category := category_of c;
              Risk.score := py_round2 (py_max 0 (py_min 100 score));
              Risk.raw_data := raw_data |}).
Proof.
  rewrite calculate_unfold, calculate_try_unfold.
  destruct (signals_of env c) as [[score raw_data] | e].
  - cbn zeta.
    destruct (_store_risk_score _ _ _ _ _) as [[[] | e] w'];
      eexists; eexists; (split; [reflexivity |]); eauto.
  - eexists; eexists; (split; [reflexivity |]); eauto.
Qed.

Lemma calculate_total (c : Call) (w : World) :
  exists r w', calculate env c w = (Ok r, w').
Proof. destruct (calculate_cases c w) as (r & w' & E & _). eauto. Qed.

Lemma calculate_score_bounds (c : Call) (w w' : World) (r : Risk.t) :
  calculate env c w = (Ok r, w') -> 0 <= Risk.score r /\ Risk.score r <= 100.
Proof.
  intros E. destruct (calculate_cases c w) as (r0 & w0 & E0 & Hr).
  rewrite E in E0. injection E0 as <- <-.
  destruct Hr as [-> | (score & raw_data & _ & ->)]; cbn [Risk.score _default_risk].
  - split; lra.
  - destruct (clamp_range score) as [H0 H100]. apply py_round2_range; assumption.
Qed.

(** C1.  For every category and every behaviour of the fetchers and of
    the database (signals present, absent or malformed, fetchers or
    database raising), the calculation returns a record, the score of the
    record lies in the closed interval [0, 100], and when every fetcher
    returns nothing the score is exactly 50. *)
Theorem category_score_in_range (c : Call) (w : World) :
  exists r w',
    calculate env c w = (Ok r, w') /\
    0 <= Risk.score r /\ Risk.score r <= 100 /\
    (signals_absent env -> Risk.score r == 50).
Proof.
  destruct (calculate_cases c w) as (r & w' & E & Hr).
  exists r, w'. split; [exact E |].
  destruct (calculate_score_bounds c w w' r E) as [H0 H100].
  split; [exact H0 |]. split; [exact H100 |].
  intros Ha.
  destruct Hr as [-> | (score & raw_data & Es & ->)]; cbn [Risk.score _default_risk].
  - reflexivity.
  - rewrite (signals_absent_score c Ha) in Es. injection Es as <- _. reflexivity.
Qed.

End RiskCalculatorFacts.

Lemma category_score_in_range_witness :
  exists r w',
    calculate (H := reference_platform) quiet_env HrCall empty_world = (Ok r, w') /\
    Risk.score r == 50.
Proof.
  destruct (category_score_in_range (H := reference_platform) quiet_env HrCall
              empty_world) as (r & w' & E & _ & _ & Ha).
  exists r, w'. split; [exact E |].
  apply Ha. repeat split; reflexivity.
Defined.

(** C2, as stated, fails: when the fetcher raises, the record returned has
    score 50 but its raw signals are not the mapping the claim gives (the
    message starts with a capital letter). *)
Lemma default_raw_signals_differ :
  (calculate_try (H := reference_platform) failing_env HrCall empty_world).1
    = Raise SQLAlchemyError /\
  exists r w',
    calculate (H := reference_platform) failing_env HrCall empty_world = (Ok r, w') /\
    Risk.score r == 50 /\
    Risk.raw_data r <> spec_default_raw_signals.
Proof.
  split; [reflexivity |].
  eexists; eexists; split; [reflexivity |]. split; [reflexivity |].
  intros E. apply (f_equal (fun m : dict => m !! "error"%string)) in E.
  vm_compute in E. discriminate E.
Qed.

(** C2, amended.  A category calculation never raises; whenever its [try]
    block raises, it returns the default record of the category: score 50
    and the single raw signal "error" with the message
    "Calculation failed, using default". *)
Theorem category_failure_default `{Platform} (env : Env) (c : Call) (w : World) :
  (exists r w', calculate env c w = (Ok r, w')) /\
  (forall e w1,
     calculate_try env c w = (Raise e, w1) ->
     calculate env c w = (Ok (_default_risk (category_of c)), w1) /\
     Risk.category (_default_risk (category_of c)) = category_of c /\
     Risk.score (_default_risk (category_of c)) = 50 /\
     Risk.raw_data (_default_risk (category_of c)) =
       {[ "error"%string := JStr "Calculation failed, using default" ]}).
Proof.
  split.
  - apply calculate_total.
  - intros e w1 E. rewrite calculate_unfold, E. repeat split.
Qed.

Lemma category_failure_default_witness :
  calculate (H := reference_platform) failing_env (MarketCall "SPY") empty_world =
  (Ok (_default_risk "market"), empty_world).
Proof.
  apply (proj2 (category_failure_default (H := reference_platform) failing_env
                  (MarketCall "SPY") empty_world) SQLAlchemyError empty_world).
  reflexivity.
Defined.

(** C10.  In every category calculation that succeeds, the score of the
    record returned is the clamped score rounded to two decimals, the score
    handed to [_store_risk_score] (and appended to the table when the
    database works) is the clamped score itself, and the two differ by at
    most 0.005; there are runs in which they do differ. *)
Theorem stored_score_unrounded :
  (forall (P : Platform) (env : Env) (c : Call) (w w' : World) (r : Risk.t),
     calculate_try env c w = (Ok r, w') ->
     exists score raw_data,
       let final_score := py_max 0 (py_min 100 score) in
       signals_of env c = Ok (score, raw_data) /\
       Risk.score r = py_round2 final_score /\
       _store_risk_score env (category_of c) final_score raw_data w = (Ok tt, w') /\
       (db_health env = DbUp ->
        risk_scores w' =
          {| RiskScore.risk_category := category_of c;
             RiskScore.score := final_score;
             RiskScore.raw_data := raw_data |} :: risk_scores w) /\
       Qabs (Risk.score r - final_score) <= 5 # 1000) /\
  (exists (w' : World) (r : Risk.t) (row : RiskScore.t),
     calculate_try (H := reference_platform) (quote_env "0.004%")
       (MarketCall "SPY") empty_world = (Ok r, w') /\
     risk_scores w' = [row] /\
     Risk.score r == 50 /\
     RiskScore.score row == 50004 # 1000).
Proof.
  split.
  - intros P env c w w' r E. rewrite calculate_try_unfold in E.
    destruct (signals_of env c) as [[score raw_data] | e]; [| discriminate E].
    exists score, raw_data. cbn zeta in *.
    pose proof (store_risk_score_cases env (category_of c)
                  (py_max 0 (py_min 100 score)) raw_data w) as Hs.
    destruct (_store_risk_score _ _ _ _ _) as [[[] | e] w1] eqn:Est;
      [| discriminate E].
    injection E as <- <-. cbn [Risk.score].
    repeat split.
    + intros Hup. rewrite Hup in Hs. injection Hs as ->. reflexivity.
    + apply py_round2_near.
  - eexists; eexists; eexists. split; [vm_compute; reflexivity |].
    split; [reflexivity |]. split; reflexivity.
Qed.

Lemma stored_score_unrounded_witness :
  exists score raw_data,
    signals_of (H := reference_platform) quiet_env HrCall = Ok (score, raw_data) /\
    Qabs (py_round2 (py_max 0 (py_min 100 score)) - py_max 0 (py_min 100 score))
      <= 5 # 1000.
Proof.
  destruct (proj1 stored_score_unrounded reference_platform quiet_env HrCall
              empty_world _ _ eq_refl)
    as (score & raw_data & Hs & Hr & _ & _ & Hd).
  exists score, raw_data. split; [exact Hs |].
  rewrite Hr in Hd. exact Hd.
Defined.

(** C5.  When the stock quote carries a change percent of +8 and the two
    economic indicators are absent, the volatility score is
    min(100, 50 + |8| * 2) = 66 and the market calculation returns the
    score (50 + 66) / 2 = 58 exactly. *)
Theorem market_score_change_8 `{Platform} (env : Env) (symbol : string)
    (stock_data quote : dict) (text : string) (change_percent : Q) (w : World) :
  get_stock_quote env symbol = Ok (JObj stock_data) ->
  stock_data !! "Global Quote"%string = Some (JObj quote) ->
  quote !! "10. change percent"%string = Some (JStr text) ->
  str_to_float (remove_char "%"%char text) = Some change_percent ->
  change_percent == 8 ->
  get_economic_indicator env "GDPC1" = Ok JNull ->
  get_economic_indicator env "UNRATE" = Ok JNull ->
  db_health env <> DbNoSession ->
  py_min 100 (50 + Qabs change_percent * 2) == 66 /\
  exists r w',
    calculate_market_risk env symbol w = (Ok r, w') /\
    Risk.score r == 58 /\
    Risk.raw_data r = {[ "stock_change"%string := JNum change_percent ]}.
Proof.
  intros Hq Hg Hc Hf E8 Hgdp Hun Hdb.
  assert (py_min 100 (50 + Qabs change_percent * 2) == 66) as Hv.
  { rewrite E8. reflexivity. }
  split; [exact Hv |].
  assert (market_signals env symbol =
          Ok ((50 + py_min 100 (50 + Qabs change_percent * 2)) / 2,
              {[ "stock_change"%string := JNum change_percent ]})) as Hs.
  { unfold market_signals. rewrite Hq, Hgdp, Hun. cbn.
    assert (size stock_data <> 0%nat) as Hne.
    { intros Hz. apply map_size_empty_iff in Hz. subst. discriminate Hg. }
    apply Nat.eqb_neq in Hne. unfold py_and_in, truthy, py_in.
    rewrite Hne, Hg. cbn. rewrite Hc. cbn. rewrite Hf. cbn.
    rewrite insert_empty. reflexivity. }
  change (calculate_market_risk env symbol) with (calculate env (MarketCall symbol)).
  rewrite calculate_unfold, calculate_try_unfold. cbn [signals_of]. rewrite Hs.
  cbn zeta.
  pose proof (store_risk_score_cases env (category_of (MarketCall symbol))
    (py_max 0 (py_min 100 ((50 + py_min 100 (50 + Qabs change_percent * 2)) / 2)))
    {[ "stock_change"%string := JNum change_percent ]} w) as Hst.
  destruct (db_health env); [| | congruence]; rewrite Hst;
    (eexists; eexists; split; [reflexivity |]); cbn [Risk.score Risk.raw_data];
    (split; [| reflexivity]); rewrite Hv; reflexivity.
Qed.

Lemma market_score_change_8_witness :
  exists r w',
    calculate_market_risk (H := reference_platform) (quote_env "8.0000%") "SPY"
      empty_world = (Ok r, w') /\
    Risk.score r == 58 /\
    Risk.raw_data r = {[ "stock_change"%string := JNum (80000 # 10000) ]}.
Proof.
  refine (proj2 (market_score_change_8 (H := reference_platform)
                   (quote_env "8.0000%") "SPY"
                   {[ "Global Quote"%string :=
                        JObj {[ "10. change percent"%string := JStr "8.0000%" ]} ]}
                   {[ "10. change percent"%string := JStr "8.0000%" ]}
                   "8.0000%" (80000 # 10000) empty_world _ _ _ _ _ _ _ _));
    [reflexivity | reflexivity | reflexivity | reflexivity | reflexivity
    | reflexivity | reflexivity | discriminate].
Defined.



(* ===================================================================== *)
(** ** Facts about the NumPy reductions *)
(* ===================================================================== *)

#[global] Instance Qle_total : Total Qle.
Proof. intros x y. destruct (Qlt_le_dec x y) as [L | L]; [left | right]; lra. Qed.

#[global] Instance Qle_transitive : Transitive Qle.
Proof. intros x y z. apply Qle_trans. Qed.

Lemma Qnat_S (n : nat) : Qnat (S n) == Qnat n + 1.
Proof. unfold Qnat. rewrite Nat2Z.inj_succ, <- Z.add_1_r, inject_Z_plus. reflexivity. Qed.

Lemma Qnat_le (n m : nat) : (n <= m)%nat -> Qnat n <= Qnat m.
Proof. intros L. unfold Qnat. rewrite <- Zle_Qle. lia. Qed.

Lemma Qnat_lt_inv (n m : nat) : Qnat n < Qnat m -> (n < m)%nat.
Proof. unfold Qnat. rewrite <- Zlt_Qlt. lia. Qed.

Lemma Qnat_pos (n : nat) : (0 < n)%nat -> 0 < Qnat n.
Proof. intros L. change 0 with (Qnat 0). unfold Qnat. rewrite <- Zlt_Qlt. lia. Qed.

Lemma np_clip_within (a : list Q) : all_within 0 100 (np_clip a 0 100).
Proof.
  unfold all_within, np_clip. apply List.Forall_map, List.Forall_forall. intros v _.
  split.
  - apply Q.min_glb; [apply Q.le_max_r | lra].
  - apply Q.le_min_r.
Qed.

Lemma np_clip_length (a : list Q) (lo hi : Q) : length (np_clip a lo hi) = length a.
Proof. apply length_map. Qed.

Lemma Qsum_within (lo hi : Q) (a : list Q) :
  all_within lo hi a -> lo * Qnat (length a) <= Qsum a /\ Qsum a <= hi * Qnat (length a).
Proof.
  induction 1 as [| v a [Hl Hh] _ IH]; cbn [Qsum fold_right length].
  - change (Qnat 0) with 0. split; lra.
  - rewrite Qnat_S. fold (Qsum a). destruct IH. split; lra.
Qed.

(** The mean of a non-empty array lies between its bounds. *)
Lemma np_mean_within (lo hi : Q) (a : list Q) :
  a <> [] -> all_within lo hi a -> lo <= np_mean a /\ np_mean a <= hi.
Proof.
  intros Hne Ha. destruct (Qsum_within lo hi a Ha) as [Hl Hh].
  assert (0 < Qnat (length a)) as Hn.
  { apply Qnat_pos. destruct a; [congruence | cbn; lia]. }
  unfold np_mean, Qlen. fold (Qnat (length a)).
  split.
  - apply Qle_shift_div_l; assumption.
  - apply Qle_shift_div_r; assumption.
Qed.

(** In an ordered array a smaller index holds a smaller value. *)
Lemma sorted_nth_le (arr : list Q) (i j : nat) :
  StronglySorted Qle arr -> (i <= j)%nat -> (j < length arr)%nat ->
  nth i arr 0 <= nth j arr 0.
Proof.
  intros Hs. revert i j. induction Hs as [| x arr Hs IH Hx]; intros i j Hij Hj.
  - cbn in Hj. lia.
  - destruct i as [| i], j as [| j]; cbn [nth]; cbn [length] in Hj.
    + lra.
    + rewrite Forall_forall in Hx. apply Hx, list_elem_of_In, nth_In. lia.
    + lia.
    + apply IH; lia.
Qed.

Lemma within_nth (lo hi : Q) (arr : list Q) (i : nat) :
  all_within lo hi arr -> (i < length arr)%nat ->
  lo <= nth i arr 0 /\ nth i arr 0 <= hi.
Proof.
  intros Ha Hi. unfold all_within in Ha. rewrite Forall_forall in Ha.
  apply Ha, list_elem_of_In, nth_In, Hi.
Qed.

Lemma merge_sort_length (a : list Q) : length (merge_sort Qle a) = length a.
Proof. apply Permutation_length, merge_sort_Permutation. Qed.

Lemma merge_sort_within (lo hi : Q) (a : list Q) :
  all_within lo hi a -> all_within lo hi (merge_sort Qle a).
Proof.
  unfold all_within. intros Ha.
  eapply Permutation_Forall; [| exact Ha].
  symmetry. apply merge_sort_Permutation.
Qed.

(** [_lerp a b t] is [a + (b - a) * t] on either branch. *)
Lemma lerp_value (a b t : Q) : _lerp a b t == a + (b - a) * t.
Proof. unfold _lerp. case_cmp; ring. Qed.

Lemma Ok_inj {A} (x y : A) : Ok x = Ok y -> x = y.
Proof. congruence. Qed.

(** What [np.percentile] returns: the last element when the position
    reaches the end, otherwise the interpolation between the two neighbours
    of the position. *)
Lemma np_percentile_inv (a : list Q) (q p : Q) :
  np_percentile a q = Ok p ->
  let arr := merge_sort Qle a in
  let v := (Qnat (length arr) - 1) * (q / 100) in
  0 <= q /\ q <= 100 /\ (0 < length arr)%nat /\
  ((Qnat (length arr - 1) <= v /\ p == nth (length arr - 1) arr 0) \/
   (exists f : nat,
      (S f < length arr)%nat /\ Qnat f <= v /\ v < Qnat f + 1 /\
      p == nth f arr 0 + (nth (S f) arr 0 - nth f arr 0) * (v - Qnat f))).
Proof.
  unfold np_percentile, Qlen. fold (Qnat (length (merge_sort Qle a))).
  set (arr := merge_sort Qle a). set (n := length arr).
  set (v := (Qnat n - 1) * (q / 100)).
  destruct (q / 100 <? 0) eqn:E0; [discriminate |].
  destruct (1 <? q / 100) eqn:E1; [discriminate |].
  apply Qltb_false in E0, E1. cbn [orb].
  destruct (Nat.eqb n 0) eqn:En; [discriminate |].
  apply Nat.eqb_neq in En.
  assert (0 <= q /\ q <= 100) as [Hq0 Hq1] by (split; lraQ).
  assert (Qnat n == Qnat (n - 1) + 1) as EQn.
  { rewrite <- Qnat_S. replace (S (n - 1)) with n by lia. reflexivity. }
  assert (0 <= Qnat (n - 1)) as Hn1.
  { change 0 with (Qnat 0). apply Qnat_le. lia. }
  assert (0 <= v) as Hv0.
  { unfold v. rewrite EQn. apply Qmult_le_0_compat; lra. }
  fold (Qnat (n - 1)).
  destruct (Qnat (n - 1) <=? v) eqn:Ev.
  - apply Qleb_true in Ev. cbv beta iota zeta. intros E. apply Ok_inj in E. subst p.
    repeat split; try assumption; try lia.
    left. split; [exact Ev |]. rewrite lerp_value. ring.
  - apply Qleb_false in Ev.
    destruct (v <? 0) eqn:Ev0; [apply Qltb_true in Ev0; lra |].
    cbv beta iota zeta. intros E. apply Ok_inj in E. subst p.
    repeat split; try assumption; try lia.
    right.
    pose proof (Qfloor_le v) as Hfl. pose proof (Qlt_floor v) as Hfu.
    rewrite inject_Z_plus in Hfu. change (inject_Z 1) with 1 in Hfu.
    assert (0 <= Qfloor v)%Z as Hf0.
    { change 0%Z with (Qfloor 0). apply Qfloor_resp_le, Hv0. }
    exists (Z.to_nat (Qfloor v)).
    assert (Qnat (Z.to_nat (Qfloor v)) = inject_Z (Qfloor v)) as Ef.
    { unfold Qnat. rewrite Z2Nat.id by exact Hf0. reflexivity. }
    rewrite Ef.
    assert (Z.to_nat (Qfloor v + 1) = S (Z.to_nat (Qfloor v))) as ->.
    { rewrite Z2Nat.inj_add by lia. cbn. lia. }
    repeat split; try assumption.
      assert (Z.to_nat (Qfloor v) < n - 1)%nat.
      { apply Qnat_lt_inv. rewrite Ef. lra. }
      lia.
    + rewrite lerp_value. reflexivity.
Qed.

(** An interpolation between two values stays between them. *)
Lemma interpolation_between (x y g : Q) :
  x <= y -> 0 <= g -> g <= 1 -> x <= x + (y - x) * g /\ x + (y - x) * g <= y.
Proof.
  intros Hxy Hg0 Hg1.
  assert (0 <= (y - x) * g) by (apply Qmult_le_0_compat; lra).
  assert (0 <= (y - x) * (1 - g)) by (apply Qmult_le_0_compat; lra).
  split; lra.
Qed.

(** A percentile of an array lies between the bounds of the array. *)
Lemma np_percentile_within (lo hi : Q) (a : list Q) (q p : Q) :
  all_within lo hi a -> np_percentile a q = Ok p -> lo <= p /\ p <= hi.
Proof.
  intros Ha Hp. apply np_percentile_inv in Hp. cbv zeta in Hp.
  apply (merge_sort_within lo hi) in Ha.
  pose proof (StronglySorted_merge_sort Qle a) as Hs.
  set (arr := merge_sort Qle a) in *.
  destruct Hp as (_ & _ & Hn & [[_ Ep] | (f & Hf & Hfl & Hfu & Ep)]); rewrite Ep.
  - apply within_nth; [exact Ha | lia].
  - destruct (within_nth lo hi arr f Ha ltac:(lia)) as [Hl1 Hh1].
    destruct (within_nth lo hi arr (S f) Ha Hf) as [Hl2 Hh2].
    pose proof (sorted_nth_le arr f (S f) Hs ltac:(lia) Hf) as Hle.
    destruct (interpolation_between (nth f arr 0) (nth (S f) arr 0)
                ((Qnat (length arr) - 1) * (q / 100) - Qnat f) Hle) as [I1 I2];
      [lra | lra |].
    split; lra.
Qed.

(** Percentiles grow with the rank asked for. *)
Lemma np_percentile_mono (a : list Q) (q1 q2 p1 p2 : Q) :
  q1 <= q2 ->
  np_percentile a q1 = Ok p1 -> np_percentile a q2 = Ok p2 -> p1 <= p2.
Proof.
  intros Hq H1 H2.
  apply np_percentile_inv in H1, H2. cbv zeta in H1, H2.
  pose proof (StronglySorted_merge_sort Qle a) as Hs.
  set (arr := merge_sort Qle a) in *. set (n := length arr) in *.
  destruct H1 as (Hq1 & _ & Hn & C1). destruct H2 as (_ & Hq2 & _ & C2).
  assert (Qnat n == Qnat (n - 1) + 1) as EQn.
  { rewrite <- Qnat_S. replace (S (n - 1)) with n by lia. reflexivity. }
  assert (0 <= Qnat (n - 1)) as Hn1.
  { change 0 with (Qnat 0). apply Qnat_le. lia. }
  assert ((Qnat n - 1) * (q1 / 100) <= (Qnat n - 1) * (q2 / 100)) as Hv.
  { assert (0 <= (Qnat n - 1) * (q2 / 100 - q1 / 100)) as Hp.
    { apply Qmult_le_0_compat; lraQ. }
    lra. }
  set (v1 := (Qnat n - 1) * (q1 / 100)) in *.
  set (v2 := (Qnat n - 1) * (q2 / 100)) in *.
  destruct C1 as [[L1 E1] | (f1 & Hf1 & Hl1 & Hu1 & E1)];
    destruct C2 as [[L2 E2] | (f2 & Hf2 & Hl2 & Hu2 & E2)]; rewrite E1, E2.
  - lra.
  - exfalso.
    assert (Qnat (S f2) <= Qnat (n - 1)) as Hc by (apply Qnat_le; lia).
    rewrite Qnat_S in Hc. lra.
  - pose proof (sorted_nth_le arr f1 (S f1) Hs ltac:(lia) Hf1) as Hle.
    destruct (interpolation_between _ _ (v1 - Qnat f1) Hle) as [_ I2];
      [lra | lra |].
    pose proof (sorted_nth_le arr (S f1) (n - 1) Hs ltac:(lia) ltac:(lia)).
    lra.
  - assert (f1 <= f2)%nat as Hff.
    { assert (f1 < S f2)%nat; [| lia].
      apply Qnat_lt_inv. rewrite Qnat_S. lra. }
    pose proof (sorted_nth_le arr f1 (S f1) Hs ltac:(lia) Hf1) as Hle1.
    pose proof (sorted_nth_le arr f2 (S f2) Hs ltac:(lia) Hf2) as Hle2.
    destruct (interpolation_between _ _ (v1 - Qnat f1) Hle1) as [_ I1];
      [lra | lra |].
    destruct (interpolation_between _ _ (v2 - Qnat f2) Hle2) as [I2 _];
      [lra | lra |].
    destruct (decide (f1 = f2)) as [-> | Hne].
    + assert (0 <= (nth (S f2) arr 0 - nth f2 arr 0) * (v2 - v1)) as Hp.
      { apply Qmult_le_0_compat; lra. }
      lra.
    + pose proof (sorted_nth_le arr (S f1) f2 Hs ltac:(lia) ltac:(lia)).
      lra.
Qed.

(** A percentile of rank within [0, 100] of a non-empty array exists. *)
Lemma np_percentile_ok (a : list Q) (q : Q) :
  a <> [] -> 0 <= q -> q <= 100 -> exists p, np_percentile a q = Ok p.
Proof.
  intros Hne Hq0 Hq1. unfold np_percentile.
  assert ((q / 100 <? 0) = false) as ->.
  { destruct (q / 100 <? 0) eqn:E; [apply Qltb_true in E; lraQ | reflexivity]. }
  assert ((1 <? q / 100) = false) as ->.
  { destruct (1 <? q / 100) eqn:E; [apply Qltb_true in E; lraQ | reflexivity]. }
  cbn [orb].
  assert (Nat.eqb (length (merge_sort Qle a)) 0 = false) as ->.
  { apply Nat.eqb_neq. rewrite merge_sort_length. destruct a; [congruence | cbn; lia]. }
  cbv zeta.
  destruct (_ <=? _); [eexists; reflexivity |].
  destruct (_ <? _); eexists; reflexivity.
Qed.

(* ===================================================================== *)
(** ** The simulator *)
(* ===================================================================== *)

Section MonteCarloSimulatorFacts.
Context `{Platform} (env : Env).

Lemma np_random_normal_ok (loc scale : Q) (size : Z) (w : World) :
  (scale <? 0) = false -> (0 <= size)%Z ->
  np_random_normal env loc scale size w =
  (Ok (normal_draws env loc scale (rng_pos w) (Z.to_nat size)),
   advance w (Z.to_nat size)).
Proof.
  intros Hs Hn. unfold np_random_normal. rewrite Hs.
  assert ((size <? 0)%Z = false) as -> by lia. reflexivity.
Qed.

Lemma np_random_normal_inv (loc scale : Q) (size : Z) (w w' : World)
    (draws : list Q) :
  np_random_normal env loc scale size w = (Ok draws, w') ->
  (0 <= size)%Z /\
  draws = normal_draws env loc scale (rng_pos w) (Z.to_nat size) /\
  w' = advance w (Z.to_nat size).
Proof.
  unfold np_random_normal.
  destruct (scale <? 0); [discriminate |].
  destruct (size <? 0)%Z eqn:En; [discriminate |].
  cbn [orb]. intros E. injection E as <- <-.
  repeat split. lia.
Qed.

Lemma normal_draws_length (loc scale : Q) (pos n : nat) :
  length (normal_draws env loc scale pos n) = n.
Proof. unfold normal_draws. rewrite length_map. apply length_seq. Qed.

(** A successful run of the pipeline reports the statistics of the clipped
    sample set. *)
Lemma simulate_inv (risk_category : string) (iterations : Z)
    (risk_mean risk_std : Q) (w w' : World) (r : Simulation.t) :
  simulate env risk_category iterations risk_mean risk_std w = (Ok r, w') ->
  (0 < iterations)%Z /\
  Simulation.risk_category r = risk_category /\
  Simulation.iterations r = iterations /\
  summary_of
    (np_clip (normal_draws env risk_mean risk_std (rng_pos w) (Z.to_nat iterations))
       0 100)
    (Simulation.mean r) (Simulation.std r) (Simulation.percentiles r).
Proof.
  unfold simulate, mbind, M_bind, lift.
  destruct (np_random_normal _ _ _ _ _) as [[draws | e] w1] eqn:Ed;
    [| discriminate].
  apply np_random_normal_inv in Ed. destruct Ed as (Hn & -> & ->).
  set (simulations := np_clip _ 0 100).
  destruct (np_percentile simulations 5) as [p5 | e] eqn:E5; [| discriminate].
  destruct (np_percentile simulations 50) as [p50 | e] eqn:E50; [| discriminate].
  destruct (np_percentile simulations 95) as [p95 | e] eqn:E95; [| discriminate].
  cbv zeta.
  destruct (_store_result _ _ _) as [[[] | e] w2]; [| discriminate].
  intros E. injection E as <- <-. cbn.
  repeat split; try reflexivity.
  - apply np_percentile_inv in E5. cbv zeta in E5.
    destruct E5 as (_ & _ & Hlen & _).
    rewrite merge_sort_length in Hlen. unfold simulations in Hlen.
    rewrite np_clip_length, normal_draws_length in Hlen. lia.
  - exists p5, p50, p95. repeat split; assumption.
Qed.

Lemma run_simulation_try_unfold (risk_category : string) (iterations : Z)
    (use_cached_data : bool) (w : World) :
  run_simulation_try env risk_category iterations use_cached_data w =
  match fetch_history env risk_category use_cached_data w with
  | (Ok historical_scores, w1) =>
      simulate env risk_category iterations
        (draw_parameters historical_scores).1
        (draw_parameters historical_scores).2 w1
  | (Raise e, w1) => (Raise e, w1)
  end.
Proof.
  unfold run_simulation_try, fetch_history, mbind, M_bind.
  destruct use_cached_data;
    [destruct (_get_historical_scores _ _ _ _) as [[hs | e] w1] | cbn];
    try reflexivity; destruct (draw_parameters _); reflexivity.
Qed.

(** Fetching the history never changes the world. *)
Lemma fetch_history_world (risk_category : string) (use_cached_data : bool)
    (w w1 : World) (x : result (list Q)) :
  fetch_history env risk_category use_cached_data w = (x, w1) -> w1 = w.
Proof.
  unfold fetch_history, _get_historical_scores, mret, M_ret.
  destruct use_cached_data; [destruct (db_health env) |]; congruence.
Qed.

Lemma run_simulation_unfold (risk_category : string) (iterations : Z)
    (use_cached_data : bool) (w : World) :
  run_simulation env risk_category iterations use_cached_data w =
  match run_simulation_try env risk_category iterations use_cached_data w with
  | (Ok r, w') => (Ok r, w')
  | (Raise _, w') => (Ok (default_result risk_category iterations), w')
  end.
Proof. reflexivity. Qed.

End MonteCarloSimulatorFacts.

(** The three entries of a percentile dictionary. *)
Lemma percentiles_lookup (p5 p50 p95 : Q) :
  let percentiles : gmap string Q :=
    <["95"%string := p95]> (<["50"%string := p50]> {[ "5"%string := p5 ]}) in
  percentiles !! "5"%string = Some p5 /\
  percentiles !! "50"%string = Some p50 /\
  percentiles !! "95"%string = Some p95.
Proof. cbv zeta. repeat split; by simplify_map_eq. Qed.

(** C3.  [run_simulation] never raises; whenever its [try] block raises,
    it returns the fixed fallback: mean 50, std 10, percentiles 35, 50 and
    65 under the keys "5", "50" and "95", and the iterations the caller
    asked for. *)
Theorem simulation_failure_fallback `{Platform} (env : Env)
    (risk_category : string) (iterations : Z) (use_cached_data : bool)
    (w : World) :
  (exists r w',
     run_simulation env risk_category iterations use_cached_data w = (Ok r, w')) /\
  (forall e w1,
     run_simulation_try env risk_category iterations use_cached_data w
       = (Raise e, w1) ->
     exists r,
       run_simulation env risk_category iterations use_cached_data w = (Ok r, w1) /\
       Simulation.risk_category r = risk_category /\
       Simulation.mean r = 50 /\
       Simulation.std r = 10 /\
       Simulation.percentiles r =
         <["95"%string := 65]> (<["50"%string := 50]> {[ "5"%string := 35 ]}) /\
       Simulation.percentiles r !! "5"%string = Some 35 /\
       Simulation.percentiles r !! "50"%string = Some 50 /\
       Simulation.percentiles r !! "95"%string = Some 65 /\
       Simulation.iterations r = iterations).
Proof.
  split.
  - rewrite run_simulation_unfold.
    destruct (run_simulation_try _ _ _ _ _) as [[r | e] w']; eauto.
  - intros e w1 E. rewrite run_simulation_unfold, E.
    exists (default_result risk_category iterations).
    repeat split.
Qed.

Lemma simulation_failure_fallback_witness :
  exists r,
    run_simulation (H := reference_platform) quiet_env "market" (-1) true
      empty_world = (Ok r, empty_world) /\
    Simulation.mean r = 50 /\ Simulation.iterations r = (-1)%Z.
Proof.
  destruct (proj2 (simulation_failure_fallback (H := reference_platform) quiet_env
                     "market" (-1) true empty_world)
              ValueError empty_world eq_refl)
    as (r & E & _ & Hm & _ & _ & _ & _ & _ & Hi).
  exists r. repeat split; assumption.
Defined.






Lemma Qfloor_unique (v : Q) (f : Z) :
  inject_Z f <= v -> v < inject_Z f + 1 -> Qfloor v = f.
Proof.
  intros Hlo Hhi. pose proof (Qfloor_le v) as Hfl. pose proof (Qlt_floor v) as Hfu.
  rewrite inject_Z_plus in Hfu. change (inject_Z 1) with 1 in Hfu.
  apply Z.le_antisymm.
  - apply Z.lt_succ_r. rewrite Zlt_Qlt. unfold Z.succ. rewrite inject_Z_plus.
    change (inject_Z 1) with 1.
    generalize dependent (inject_Z (Qfloor v)). generalize dependent (inject_Z f).
    intros. lra.
  - apply Z.lt_succ_r. rewrite Zlt_Qlt. unfold Z.succ. rewrite inject_Z_plus.
    change (inject_Z 1) with 1.
    generalize dependent (inject_Z (Qfloor v)). generalize dependent (inject_Z f).
    intros. lra.
Qed.

(** What [np.percentile] returns is the value at the fractional rank of
    the ordered array. *)
Lemma np_percentile_rank (a : list Q) (q p : Q) :
  np_percentile a q = Ok p -> p == spec_percentile (merge_sort Qle a) q.
Proof.
  intros E. apply np_percentile_inv in E. cbv zeta in E.
  destruct E as (Hq0 & Hq1 & Hlen & Hcases).
  unfold spec_percentile, Qlen. fold (Qnat (length (merge_sort Qle a))).
  set (arr := merge_sort Qle a) in *. set (n := length arr) in *.
  set (v := (Qnat n - 1) * (q / 100)) in *. cbv zeta.
  assert (Qnat n == Qnat (n - 1) + 1) as EQn.
  { rewrite <- Qnat_S. replace (S (n - 1)) with n by lia. reflexivity. }
  destruct Hcases as [[Hv Hp] | (f & Hf & Hlo & Hhi & Hp)].
  - assert (0 <= Qnat (n - 1)) as Hn1.
    { change 0 with (Qnat 0). apply Qnat_le. lia. }
    assert (v <= Qnat (n - 1)) as Hv'.
    { assert (v == Qnat (n - 1) * (q / 100)) as Ev.
      { unfold v. rewrite EQn. ring. }
      rewrite Ev. clear Ev Hv Hp EQn.
      assert (q / 100 <= 1) as Hq by lraQ.
      assert (0 <= q / 100) as Hq' by lraQ.
      revert Hq Hq' Hn1. generalize (q / 100). generalize (Qnat (n - 1)).
      intros x y Hy1 Hy0 Hx. nra. }
    assert (Qfloor v = Z.of_nat (n - 1)) as Ef.
    { apply Qfloor_unique; fold (Qnat (n - 1)); lra. }
    rewrite Ef, Nat2Z.id. fold (Qnat (n - 1)).
    rewrite Hp. assert (v - Qnat (n - 1) == 0) as -> by lra. ring.
  - assert (Qfloor v = Z.of_nat f) as Ef.
    { apply Qfloor_unique; fold (Qnat f); lra. }
    rewrite Ef, Nat2Z.id. fold (Qnat f). exact Hp.
Qed.

Lemma merge_sort_ordered (a : list Q) :
  Permutation a (merge_sort Qle a) /\ StronglySorted Qle (merge_sort Qle a).
Proof.
  split.
  - symmetry. apply merge_sort_Permutation.
  - apply StronglySorted_merge_sort; apply _.
Qed.

(** C8.  In every run of [run_simulation] that does not fall back, every
    sample drawn is clipped to [0, 100]; the mean reported is the sum of
    the clipped samples over their number and the std reported is the
    square root of their mean squared deviation from that mean, whatever
    the parameters drawn from; the percentiles reported are those of the
    clipped samples; the reported mean and the three reported percentiles
    lie in [0, 100]; and p5 <= p50 <= p95. *)
Theorem simulation_statistics_within_range `{Platform} (env : Env)
    (risk_category : string) (iterations : Z) (use_cached_data : bool)
    (w w' : World) (r : Simulation.t) :
  run_simulation_try env risk_category iterations use_cached_data w = (Ok r, w') ->
  exists (risk_mean risk_std p5 p50 p95 : Q) (sorted : list Q),
    let draws :=
      map (fun i => risk_mean + risk_std * gauss env (rng_pos w + i)%nat)
        (seq 0 (Z.to_nat iterations)) in
    let simulations := map (fun v => Qmin (Qmax v 0) 100) draws in
    let sim_mean := Qsum simulations / Qlen simulations in
    (0 < iterations)%Z /\
    length simulations = Z.to_nat iterations /\
    all_within 0 100 simulations /\
    Simulation.mean r = sim_mean /\
    Simulation.std r =
      np_sqrt (Qsum (map (fun v => (v - sim_mean) * (v - sim_mean)) simulations)
               / Qlen simulations) /\
    Permutation simulations sorted /\
    StronglySorted Qle sorted /\
    p5 == spec_percentile sorted 5 /\
    p50 == spec_percentile sorted 50 /\
    p95 == spec_percentile sorted 95 /\
    Simulation.percentiles r !! "5"%string = Some p5 /\
    Simulation.percentiles r !! "50"%string = Some p50 /\
    Simulation.percentiles r !! "95"%string = Some p95 /\
    0 <= Simulation.mean r /\ Simulation.mean r <= 100 /\
    0 <= p5 /\ p5 <= p50 /\ p50 <= p95 /\ p95 <= 100.
Proof.
  intros E. rewrite run_simulation_try_unfold in E.
  destruct (fetch_history _ _ _ _) as [[hs | e] w1] eqn:Ef; [| discriminate E].
  apply fetch_history_world in Ef. subst w1.
  apply simulate_inv in E.
  destruct E as (Hn & _ & _ & Hm & Hs & p5 & p50 & p95 & E5 & E50 & E95 & Ep).
  unfold np_clip, normal_draws in Hm, Hs, E5, E50, E95.
  exists (draw_parameters hs).1, (draw_parameters hs).2, p5, p50, p95.
  set (simulations :=
         map (fun v => Qmin (Qmax v 0) 100)
           (map (fun i => (draw_parameters hs).1
                          + (draw_parameters hs).2 * gauss env (rng_pos w + i)%nat)
              (seq 0 (Z.to_nat iterations)))) in *.
  exists (merge_sort Qle simulations). cbv zeta.
  pose proof (np_clip_within
                (normal_draws env (draw_parameters hs).1 (draw_parameters hs).2
                   (rng_pos w) (Z.to_nat iterations))) as Hw.
  unfold np_clip, normal_draws in Hw. fold simulations in Hw.
  assert (length simulations = Z.to_nat iterations) as Hlen.
  { unfold simulations. rewrite !length_map. apply length_seq. }
  assert (simulations <> []) as Hne.
  { intros E0. apply (f_equal length) in E0. rewrite Hlen in E0. cbn in E0. lia. }
  destruct (np_mean_within 0 100 simulations Hne Hw) as [M0 M1].
  destruct (np_percentile_within 0 100 simulations 5 p5 Hw E5) as [P0 _].
  destruct (np_percentile_within 0 100 simulations 95 p95 Hw E95) as [_ P1].
  pose proof (np_percentile_mono simulations 5 50 p5 p50 ltac:(lra) E5 E50).
  pose proof (np_percentile_mono simulations 50 95 p50 p95 ltac:(lra) E50 E95).
  destruct (percentiles_lookup p5 p50 p95) as (L5 & L50 & L95).
  destruct (merge_sort_ordered simulations) as [Hperm Hsort].
  apply np_percentile_rank in E5, E50, E95.
  assert (Simulation.std r =
          np_sqrt (Qsum (map (fun v => (v - Qsum simulations / Qlen simulations)
                                       * (v - Qsum simulations / Qlen simulations))
                           simulations) / Qlen simulations)) as Hstd.
  { rewrite Hs. unfold np_std, np_mean. rewrite map_map. reflexivity. }
  rewrite Ep, Hm. unfold np_mean in *.
  repeat split; assumption.
Qed.

Lemma simulation_statistics_within_range_witness :
  exists r w',
    run_simulation_try (H := reference_platform) quiet_env "market" 10 true
      empty_world = (Ok r, w') /\
    0 <= Simulation.mean r /\ Simulation.mean r <= 100 /\
    Simulation.mean r == 41.
Proof.
  destruct (run_simulation_try (H := reference_platform) quiet_env "market" 10 true
              empty_world) as [[r | e] w'] eqn:E;
    [| vm_compute in E; discriminate E].
  exists r, w'. split; [reflexivity |].
  destruct (simulation_statistics_within_range (H := reference_platform) quiet_env
              "market" 10 true empty_world w' r E)
    as (? & ? & ? & ? & ? & ? & _ & _ & _ & _ & _ & _ & _ & _ & _ & _ & _ & _ & _
        & M0 & M1 & _).
  split; [exact M0 |]. split; [exact M1 |].
  vm_compute in E. apply (f_equal fst) in E. cbn [fst] in E.
  apply Ok_inj in E. subst r. reflexivity.
Defined.

(** One turn of the scenario loop with usable parameters: 5000 deviates
    are drawn and the summary of the clipped samples is stored under the
    scenario's name. *)
Lemma scenario_step `{Platform} (env : Env) (scenario_name : string)
    (params : gmap string Q) (rest : list (string * gmap string Q))
    (results : gmap string Distribution.t) (loc scale : Q) (w : World) :
  params !! "mean"%string = Some loc ->
  params !! "std"%string = Some scale ->
  (scale <? 0) = false ->
  exists d,
    scenario_summary env loc scale (rng_pos w) d /\
    scenario_loop env ((scenario_name, params) :: rest) results w =
    scenario_loop env rest (<[scenario_name := d]> results)
      (advance w (Z.to_nat 5000)).
Proof.
  intros Hm Hs Hscale.
  cbn [scenario_loop]. unfold mbind, M_bind, lift, param. rewrite Hm, Hs.
  rewrite (np_random_normal_ok env loc scale 5000 w Hscale) by lia.
  set (simulations := np_clip _ 0 100).
  assert (simulations <> []) as Hne.
  { intros E0. apply (f_equal length) in E0. unfold simulations in E0.
    rewrite np_clip_length, normal_draws_length in E0. cbn [length] in E0. lia. }
  destruct (np_percentile_ok simulations 5 Hne) as [p5 E5]; [lra | lra |].
  destruct (np_percentile_ok simulations 50 Hne) as [p50 E50]; [lra | lra |].
  destruct (np_percentile_ok simulations 95 Hne) as [p95 E95]; [lra | lra |].
  rewrite E5, E50, E95.
  eexists. split; [| reflexivity].
  unfold scenario_summary. fold simulations. cbn.
  repeat split. exists p5, p50, p95. repeat split; assumption.
Qed.

(** The statistics both entry points report, spelled out. *)
Lemma summary_spelled_out `{Platform} (draws : list Q) (mean std : Q)
    (percentiles : gmap string Q) :
  draws <> [] ->
  summary_of (np_clip draws 0 100) mean std percentiles ->
  spec_clipped_summary draws mean std percentiles.
Proof.
  intros Hne (Hm & Hs & p5 & p50 & p95 & E5 & E50 & E95 & Ep).
  pose proof (np_clip_within draws) as Hw.
  unfold np_clip in Hm, Hs, E5, E50, E95, Hw. unfold spec_clipped_summary.
  set (clipped := map (fun v => Qmin (Qmax v 0) 100) draws) in *. cbv zeta.
  assert (clipped <> []) as Hc.
  { intros E0. apply (f_equal length) in E0. unfold clipped in E0.
    rewrite length_map in E0. destruct draws; [contradiction | discriminate]. }
  destruct (np_mean_within 0 100 clipped Hc Hw) as [M0 M1].
  destruct (np_percentile_within 0 100 clipped 5 p5 Hw E5) as [P0 _].
  destruct (np_percentile_within 0 100 clipped 95 p95 Hw E95) as [_ P1].
  pose proof (np_percentile_mono clipped 5 50 p5 p50 ltac:(lra) E5 E50).
  pose proof (np_percentile_mono clipped 50 95 p50 p95 ltac:(lra) E50 E95).
  destruct (merge_sort_ordered clipped) as [Hperm Hsort].
  apply np_percentile_rank in E5, E50, E95.
  split; [exact Hm |]. split.
  { rewrite Hs, Hm. unfold np_std, np_mean. rewrite map_map. reflexivity. }
  rewrite Hm. split; [exact M0 |]. split; [exact M1 |].
  exists (merge_sort Qle clipped), p5, p50, p95.
  repeat split; assumption.
Qed.

(** The result dictionary of the three default scenarios. *)
Lemma three_labels (optimistic baseline pessimistic : Distribution.t) :
  let scenarios : gmap string Distribution.t :=
    <["pessimistic"%string := pessimistic]>
      (<["baseline"%string := baseline]>
         (<["optimistic"%string := optimistic]> ∅)) in
  size scenarios = 3%nat /\
  scenarios !! "optimistic"%string = Some optimistic /\
  scenarios !! "baseline"%string = Some baseline /\
  scenarios !! "pessimistic"%string = Some pessimistic.
Proof.
  cbv zeta. split.
  { rewrite !map_size_insert_None by (by simplify_map_eq).
    rewrite map_size_empty. reflexivity. }
  split; [by simplify_map_eq |]. split; by simplify_map_eq.
Qed.

(** C9.  Called without scenario parameters, [run_multiple_scenarios] runs
    exactly three scenarios, optimistic (mean 30, std 5), baseline (mean 50,
    std 10) and pessimistic (mean 70, std 15).  Each takes its own 5000
    deviates of the generator, one after the other; each draw is clipped to
    [0, 100]; each summary holds the mean and the standard deviation of
    the clipped samples and their 5th, 50th and 95th percentiles, which lie
    in [0, 100] in increasing order; the result maps each scenario label to
    its summary. *)
Theorem default_scenarios_summary `{Platform} (env : Env)
    (risk_category : string) (w : World) :
  let n := Z.to_nat 5000 in
  let draws (loc scale : Q) (pos : nat) :=
    map (fun i => loc + scale * gauss env (pos + i)%nat) (seq 0 n) in
  exists (r : Scenarios.t) (optimistic baseline pessimistic : Distribution.t),
    run_multiple_scenarios env risk_category None w
      = (Ok r, advance (advance (advance w n) n) n) /\
    Scenarios.risk_category r = risk_category /\
    Scenarios.scenarios r =
      <["pessimistic"%string := pessimistic]>
        (<["baseline"%string := baseline]>
           (<["optimistic"%string := optimistic]> ∅)) /\
    size (Scenarios.scenarios r) = 3%nat /\
    Scenarios.scenarios r !! "optimistic"%string = Some optimistic /\
    Scenarios.scenarios r !! "baseline"%string = Some baseline /\
    Scenarios.scenarios r !! "pessimistic"%string = Some pessimistic /\
    spec_clipped_summary (draws 30 5 (rng_pos w))
      (Distribution.mean optimistic) (Distribution.std optimistic)
      (Distribution.percentiles optimistic) /\
    spec_clipped_summary (draws 50 10 (rng_pos w + n)%nat)
      (Distribution.mean baseline) (Distribution.std baseline)
      (Distribution.percentiles baseline) /\
    spec_clipped_summary (draws 70 15 (rng_pos w + n + n)%nat)
      (Distribution.mean pessimistic) (Distribution.std pessimistic)
      (Distribution.percentiles pessimistic).
Proof.
  intros n draws.
  unfold run_multiple_scenarios, default_scenarios.
  unfold mbind at 1. unfold M_bind.
  destruct (scenario_step env "optimistic"
              (<["std"%string := 5]> {[ "mean"%string := 30 ]})
              [ ("baseline"%string, <["std"%string := 10]> {[ "mean"%string := 50 ]});
                ("pessimistic"%string, <["std"%string := 15]> {[ "mean"%string := 70 ]}) ]
              ∅ 30 5 w) as (optimistic & So & ->); [reflexivity .. |].
  destruct (scenario_step env "baseline"
              (<["std"%string := 10]> {[ "mean"%string := 50 ]})
              [ ("pessimistic"%string, <["std"%string := 15]> {[ "mean"%string := 70 ]}) ]
              (<["optimistic"%string := optimistic]> ∅) 50 10
              (advance w (Z.to_nat 5000))) as (baseline & Sb & ->);
    [reflexivity .. |].
  destruct (scenario_step env "pessimistic"
              (<["std"%string := 15]> {[ "mean"%string := 70 ]}) []
              (<["baseline"%string := baseline]>
                 (<["optimistic"%string := optimistic]> ∅)) 70 15
              (advance (advance w (Z.to_nat 5000)) (Z.to_nat 5000)))
    as (pessimistic & Sp & ->); [reflexivity .. |].
  cbn [scenario_loop]. unfold mret, M_ret.
  eexists; exists optimistic, baseline, pessimistic.
  split; [reflexivity |]. cbn [Scenarios.risk_category Scenarios.scenarios].
  split; [reflexivity |]. split; [reflexivity |].
  destruct (three_labels optimistic baseline pessimistic) as (Hsize & Lo & Lb & Lp).
  split; [exact Hsize |]. split; [exact Lo |]. split; [exact Lb |].
  split; [exact Lp |].
  assert (forall loc scale pos d,
            scenario_summary env loc scale pos d ->
            spec_clipped_summary (draws loc scale pos)
              (Distribution.mean d) (Distribution.std d)
              (Distribution.percentiles d)) as Hspell.
  { intros loc scale pos d Hd. apply summary_spelled_out; [| exact Hd].
    intros E0. apply (f_equal length) in E0. unfold draws in E0.
    rewrite length_map, length_seq in E0. discriminate E0. }
  split; [apply Hspell, So |]. split; [apply Hspell, Sb | apply Hspell, Sp].
Qed.

(* ===================================================================== *)
(** ** More on rounding *)
(* ===================================================================== *)

(** Rounding to the nearest integer is monotone. *)
Lemma round_half_even_mono (x y : Q) :
  x <= y -> (round_half_even x <= round_half_even y)%Z.
Proof.
  intros Hxy. unfold round_half_even.
  pose proof (Qfloor_le x) as Hxl. pose proof (Qlt_floor x) as Hxu.
  pose proof (Qfloor_le y) as Hyl. pose proof (Qlt_floor y) as Hyu.
  pose proof (Qfloor_resp_le x y Hxy) as Hf.
  rewrite inject_Z_plus in Hxu, Hyu. change (inject_Z 1) with 1 in Hxu, Hyu.
  destruct (Z.eq_dec (Qfloor x) (Qfloor y)) as [Ef | Nf].
  - rewrite Ef in *.
    case_cmp; try lia; try lra; destruct (Z.even (Qfloor y)); lia.
  - assert (Qfloor x + 1 <= Qfloor y)%Z as Hlt by lia.
    case_cmp; try destruct (Z.even (Qfloor x)); try destruct (Z.even (Qfloor y));
      lia.
Qed.

(** An integer rounds to itself. *)
Lemma round_half_even_Z (n : Z) : round_half_even (inject_Z n) = n.
Proof.
  unfold round_half_even. rewrite Qfloor_Z.
  assert ((inject_Z n - inject_Z n <? 1 # 2) = true) as ->; [| reflexivity].
  destruct (inject_Z n - inject_Z n <? 1 # 2) eqn:E; [reflexivity |].
  apply Qltb_false in E. lra.
Qed.

(** [round(x, 2)] is monotone. *)
Lemma py_round2_mono (x y : Q) : x <= y -> py_round2 x <= py_round2 y.
Proof.
  intros Hxy. unfold py_round2.
  assert (round_half_even (x * 100) <= round_half_even (y * 100))%Z as Hz.
  { apply round_half_even_mono. lra. }
  rewrite Zle_Qle in Hz.
  generalize dependent (inject_Z (round_half_even (x * 100))).
  generalize dependent (inject_Z (round_half_even (y * 100))).
  intros. lraQ.
Qed.

(** A number with two decimals is left alone by [round(x, 2)]. *)
Lemma py_round2_cents (n : Z) : py_round2 (inject_Z n / 100) == inject_Z n / 100.
Proof.
  unfold py_round2.
  rewrite (round_half_even_comp (inject_Z n / 100 * 100) (inject_Z n)).
  - rewrite round_half_even_Z. reflexivity.
  - field.
Qed.

(** [round(x, 2)] always has two decimals. *)
Lemma py_round2_is_cents (x : Q) : exists n : Z, py_round2 x = inject_Z n / 100.
Proof. exists (round_half_even (x * 100)). reflexivity. Qed.

(** Rounding twice is rounding once. *)
Lemma py_round2_idempotent (x : Q) : py_round2 (py_round2 x) == py_round2 x.
Proof. destruct (py_round2_is_cents x) as [n ->]. apply py_round2_cents. Qed.

(** [round(x, 2)] stays between two bounds that have two decimals. *)
Lemma py_round2_between (a b : Z) (x : Q) :
  inject_Z a / 100 <= x -> x <= inject_Z b / 100 ->
  inject_Z a / 100 <= py_round2 x /\ py_round2 x <= inject_Z b / 100.
Proof.
  intros Ha Hb. split.
  - rewrite <- (py_round2_cents a). apply py_round2_mono, Ha.
  - rewrite <- (py_round2_cents b). apply py_round2_mono, Hb.
Qed.

(* ===================================================================== *)
(** ** More on the category calculations *)
(* ===================================================================== *)

(** Take a hypothesis about a chain of binds apart, one step at a time. *)
Ltac split_binds :=
  repeat (unfold mbind, result_bind in *;
    match goal with
    | H : Raise _ = Ok _ |- _ => discriminate H
    | H : Ok _ = Ok _ |- _ => apply Ok_inj in H
    | H : (_, _) = (_, _) |- _ =>
        apply pair_equal_spec in H; destruct H as [? ?]; subst
    | H : context [match ?x with Ok _ => _ | Raise _ => _ end] |- _ =>
        lazymatch x with
        | Ok _ => fail
        | Raise _ => fail
        | _ => let E := fresh "E" in destruct x eqn:E
        end
    | H : context [let '(_, _) := ?p in _] |- _ => destruct p
    | H : context [if ?c then _ else _] |- _ =>
        lazymatch type of c with
        | bool => let E := fresh "C" in destruct c eqn:E
        end
    end).

(** Turn the boolean comparisons among the hypotheses into inequalities. *)
Ltac cmp_hyps :=
  repeat match goal with
  | H : (_ <? _) = true |- _ => apply Qltb_true in H
  | H : (_ <? _) = false |- _ => apply Qltb_false in H
  end.

Section MoreRiskCalculatorFacts.
Context `{Platform} (env : Env).

Lemma Qnat_nonneg (n : nat) : 0 <= Qnat n.
Proof. change 0 with (Qnat 0). apply Qnat_le. lia. Qed.

(** The supply-chain signals add between 0 and 30 to the base score. *)
Lemma supply_chain_signals_range (score : Q) (raw_data : dict) :
  supply_chain_signals env = Ok (score, raw_data) -> 50 <= score /\ score <= 80.
Proof.
  unfold supply_chain_signals. intros E. split_binds; try (split; lra).
  match goal with |- context [Qnat ?n] => pose proof (Qnat_nonneg n) end.
  unfold py_min. case_cmp; split; lra.
Qed.

(** The labour signals never lower the base score. *)
Lemma hr_signals_range (score : Q) (raw_data : dict) :
  hr_signals env = Ok (score, raw_data) -> 50 <= score.
Proof.
  unfold hr_signals. intros E. split_binds; cmp_hyps; case_cmp; lra.
Qed.


(** The clamp leaves a score of [0, 100] alone. *)
Lemma clamp_id (score : Q) :
  0 <= score -> score <= 100 -> py_max 0 (py_min 100 score) == score.
Proof. unfold py_max, py_min. intros. case_cmp; lra. Qed.

(** Bounds on the signals' score that contain the base 50 carry over to
    the score returned. *)
Lemma calculate_score_between (c : Call) (lo hi : Z) :
  (0 <= lo <= 5000)%Z -> (5000 <= hi <= 10000)%Z ->
  (forall score raw_data,
     signals_of env c = Ok (score, raw_data) ->
     inject_Z lo / 100 <= score /\ score <= inject_Z hi / 100) ->
  forall w w' r,
    calculate env c w = (Ok r, w') ->
    inject_Z lo / 100 <= Risk.score r /\ Risk.score r <= inject_Z hi / 100.
Proof.
  intros Hlo Hhi Hs w w' r E.
  assert (0 <= inject_Z lo /\ inject_Z lo <= 5000 /\
          5000 <= inject_Z hi /\ inject_Z hi <= 10000) as (L0 & L1 & H0 & H1).
  { change 0 with (inject_Z 0). change 5000 with (inject_Z 5000).
    change 10000 with (inject_Z 10000). rewrite <- !Zle_Qle. lia. }
  destruct (calculate_cases env c w) as (r0 & w0 & E0 & Hr).
  rewrite E in E0. injection E0 as <- <-.
  destruct Hr as [-> | (score & raw_data & Es & ->)]; cbn [Risk.score _default_risk].
  - split; lraQ.
  - destruct (Hs score raw_data Es) as [S0 S1].
    assert (py_max 0 (py_min 100 score) == score) as ->.
    { apply clamp_id; lraQ. }
    apply py_round2_between; assumption.
Qed.

(** X1.  The supply-chain score returned is always between 50 and 80:
    the articles add at most 30 to the base score, and nothing lowers it. *)
Theorem supply_chain_score_range (w : World) :
  exists r w',
    calculate_supply_chain_risk env w = (Ok r, w') /\
    50 <= Risk.score r /\ Risk.score r <= 80.
Proof.
  destruct (calculate_total env SupplyChainCall w) as (r & w' & E).
  exists r, w'. split; [exact E |].
  apply (calculate_score_between SupplyChainCall 5000 8000) in E; try lia.
  - unfold inject_Z in E. destruct E. split; lraQ.
  - intros score raw_data Es. cbn [signals_of] in Es.
    apply supply_chain_signals_range in Es. unfold inject_Z. split; lraQ.
Qed.

(** X2.  The HR score returned is never below the base score 50: a rise
    of the unemployment rate raises it, a fall leaves it alone. *)
Theorem hr_score_at_least_base (w : World) :
  exists r w',
    calculate_hr_risk env w = (Ok r, w') /\
    50 <= Risk.score r /\ Risk.score r <= 100.
Proof.
  destruct (calculate_total env HrCall w) as (r & w' & E).
  exists r, w'. split; [exact E |].
  pose proof (calculate_score_bounds env HrCall w w' r E) as [_ H100].
  split; [| exact H100].
  destruct (calculate_cases env HrCall w) as (r0 & w0 & E0 & Hr).
  rewrite E in E0. injection E0 as <- <-.
  destruct Hr as [-> | (score & raw_data & Es & ->)]; cbn [Risk.score _default_risk].
  - lra.
  - cbn [signals_of] in Es. apply hr_signals_range in Es.
    apply Qle_trans with (py_round2 (inject_Z 5000 / 100)).
    + rewrite py_round2_cents. unfold inject_Z. lraQ.
    + apply py_round2_mono. unfold py_max, py_min, inject_Z. case_cmp; lraQ.
Qed.

End MoreRiskCalculatorFacts.

Section MarketFacts.
Context `{Platform} (env : Env).

(** Record that every absolute value of the goal is non-negative. *)
Ltac abs_nonneg :=
  repeat match goal with
  | |- context [Qabs ?x] =>
      lazymatch goal with
      | _ : 0 <= Qabs x |- _ => fail
      | _ => pose proof (Qabs_nonneg x)
      end;
      let a := fresh "a" in
      set (a := Qabs x) in *; clearbody a
  end.

(** The market score falls below the base only through a negative
    unemployment rate. *)
Lemma market_signals_at_least_base (symbol : string) (score : Q) (raw_data : dict) :
  market_signals env symbol = Ok (score, raw_data) ->
  (forall u, raw_data !! "unemployment"%string = Some (JNum u) -> 0 <= u) ->
  50 <= score.
Proof.
  unfold market_signals. intros E Hu. split_binds; cmp_hyps;
    try (specialize (Hu _ (lookup_insert_eq _ _ _)));
    abs_nonneg; unfold py_min; case_cmp; lraQ.
Qed.


(** X3.  The market score returned is below the base score 50 only when
    the unemployment rate that was read is negative: the stock and GDP
    terms never lower the score. *)
Theorem market_score_at_least_base (symbol : string) (w : World) :
  exists r w',
    calculate_market_risk env symbol w = (Ok r, w') /\
    ((forall u, Risk.raw_data r !! "unemployment"%string = Some (JNum u) -> 0 <= u) ->
     50 <= Risk.score r).
Proof.
  destruct (calculate_cases env (MarketCall symbol) w) as (r & w' & E & Hr).
  exists r, w'. split; [exact E |]. intros Hu.
  destruct Hr as [-> | (score & raw_data & Es & ->)];
    cbn [Risk.score Risk.raw_data _default_risk] in *.
  - lra.
  - cbn [signals_of] in Es.
    apply market_signals_at_least_base in Es; [| exact Hu].
    apply Qle_trans with (py_round2 (inject_Z 5000 / 100)).
    + rewrite py_round2_cents. unfold inject_Z. lraQ.
    + apply py_round2_mono. unfold py_max, py_min, inject_Z. case_cmp; lraQ.
Qed.

(** With a stock quote and nothing else, the score is the base plus the
    size of the change, which counts for at most 25. *)
Lemma market_signals_stock_only (symbol : string) (stock_data quote : dict)
    (text : string) (change_percent : Q) :
  get_stock_quote env symbol = Ok (JObj stock_data) ->
  stock_data !! "Global Quote"%string = Some (JObj quote) ->
  quote !! "10. change percent"%string = Some (JStr text) ->
  str_to_float (remove_char "%"%char text) = Some change_percent ->
  get_economic_indicator env "GDPC1" = Ok JNull ->
  get_economic_indicator env "UNRATE" = Ok JNull ->
  exists score,
    market_signals env symbol =
      Ok (score, {[ "stock_change"%string := JNum change_percent ]}) /\
    score == 50 + Qmin (Qabs change_percent) 25.
Proof.
  intros Hq Hg Hc Hf Hgdp Hun.
  exists ((50 + py_min 100 (50 + Qabs change_percent * 2)) / 2). split.
  - unfold market_signals. rewrite Hq, Hgdp, Hun. cbn.
    assert (size stock_data <> 0%nat) as Hne.
    { intros Hz. apply map_size_empty_iff in Hz. subst. discriminate Hg. }
    apply Nat.eqb_neq in Hne. unfold py_and_in, truthy, py_in.
    rewrite Hne, Hg. cbn. rewrite Hc. cbn. rewrite Hf. cbn.
    rewrite insert_empty. reflexivity.
  - pose proof (Qabs_nonneg change_percent).
    destruct (Q.min_spec (Qabs change_percent) 25) as [[L ->] | [L ->]];
      unfold py_min; case_cmp; lraQ.
Qed.

(** X4.  When the stock quote is the only signal and the database can be
    reached, the market score returned is 50 + min(|change|, 25) up to the
    rounding to two decimals: it differs from that value by at most 0.005
    (and a floating-point tolerance of 1e-9), it lies between 50 and 75,
    and it is exactly 75 once the change is 25 percent or more.  The stock
    alone moves the score by at most 25. *)
Theorem market_score_stock_only (symbol : string) (stock_data quote : dict)
    (text : string) (change_percent : Q) (w : World) :
  get_stock_quote env symbol = Ok (JObj stock_data) ->
  stock_data !! "Global Quote"%string = Some (JObj quote) ->
  quote !! "10. change percent"%string = Some (JStr text) ->
  str_to_float (remove_char "%"%char text) = Some change_percent ->
  get_economic_indicator env "GDPC1" = Ok JNull ->
  get_economic_indicator env "UNRATE" = Ok JNull ->
  db_health env <> DbNoSession ->
  exists r w',
    calculate_market_risk env symbol w = (Ok r, w') /\
    Qabs (Risk.score r - (50 + Qmin (Qabs change_percent) 25))
      <= (5 # 1000) + fp_tolerance /\
    50 <= Risk.score r /\ Risk.score r <= 75 /\
    (25 <= Qabs change_percent -> Risk.score r == 75).
Proof.
  intros Hq Hg Hc Hf Hgdp Hun Hdb.
  destruct (market_signals_stock_only symbol stock_data quote text change_percent
              Hq Hg Hc Hf Hgdp Hun) as (score & Es & Escore).
  change (calculate_market_risk env symbol) with (calculate env (MarketCall symbol)).
  rewrite calculate_unfold, calculate_try_unfold. cbn [signals_of]. rewrite Es.
  cbn zeta.
  pose proof (Qabs_nonneg change_percent) as Habs.
  assert (50 <= score /\ score <= 75) as [S0 S1].
  { rewrite Escore.
    destruct (Q.min_spec (Qabs change_percent) 25) as [[L ->] | [L ->]]; split; lra. }
  assert (py_round2 (py_max 0 (py_min 100 score))
          == py_round2 (50 + Qmin (Qabs change_percent) 25)) as Er.
  { apply py_round2_comp. rewrite clamp_id by lra. exact Escore. }
  assert (50 <= py_round2 (50 + Qmin (Qabs change_percent) 25) /\
          py_round2 (50 + Qmin (Qabs change_percent) 25) <= 75) as [R0 R1].
  { rewrite <- Escore.
    destruct (py_round2_between 5000 7500 score) as [B0 B1];
      try (unfold inject_Z; lraQ).
    unfold inject_Z in B0, B1. split; lraQ. }
  assert (Qabs (py_round2 (50 + Qmin (Qabs change_percent) 25)
                - (50 + Qmin (Qabs change_percent) 25))
          <= (5 # 1000) + fp_tolerance) as Rn.
  { apply Qle_trans with (5 # 1000); [apply py_round2_near |].
    unfold fp_tolerance. lra. }
  assert (25 <= Qabs change_percent ->
          py_round2 (50 + Qmin (Qabs change_percent) 25) == 75) as R75.
  { intros L. rewrite (py_round2_comp _ (inject_Z 7500 / 100)).
    - rewrite py_round2_cents. reflexivity.
    - rewrite Q.min_r by exact L. reflexivity. }
  pose proof (store_risk_score_cases env (category_of (MarketCall symbol))
    (py_max 0 (py_min 100 score))
    {[ "stock_change"%string := JNum change_percent ]} w) as Hst.
  destruct (db_health env); [| | congruence]; rewrite Hst;
    (eexists; eexists; split; [reflexivity |]); cbn [Risk.score];
    rewrite Er; repeat split; try reflexivity; assumption.
Qed.

End MarketFacts.

Lemma market_score_at_least_base_witness :
  exists r w',
    calculate_market_risk (H := reference_platform) (quote_env "8.0000%") "SPY"
      empty_world = (Ok r, w') /\
    50 <= Risk.score r.
Proof.
  destruct (market_score_at_least_base (H := reference_platform)
              (quote_env "8.0000%") "SPY" empty_world) as (r & w' & E & Hb).
  exists r, w'. split; [exact E |]. apply Hb.
  vm_compute in E. apply (f_equal fst) in E. cbn [fst] in E.
  apply Ok_inj in E. subst r. intros u Hu. vm_compute in Hu. discriminate Hu.
Defined.

Lemma market_score_stock_only_witness :
  exists r w',
    calculate_market_risk (H := reference_platform) (quote_env "-40%") "SPY"
      empty_world = (Ok r, w') /\
    Qabs (Risk.score r - (50 + Qmin (Qabs (-40 # 1)) 25))
      <= (5 # 1000) + fp_tolerance /\
    50 <= Risk.score r /\ Risk.score r <= 75 /\
    (25 <= Qabs (-40 # 1) -> Risk.score r == 75).
Proof.
  refine (market_score_stock_only (H := reference_platform) (quote_env "-40%") "SPY"
            {[ "Global Quote"%string :=
                 JObj {[ "10. change percent"%string := JStr "-40%" ]} ]}
            {[ "10. change percent"%string := JStr "-40%" ]}
            "-40%" (-40 # 1) empty_world _ _ _ _ _ _ _);
    [reflexivity | reflexivity | reflexivity | reflexivity | reflexivity
    | reflexivity | discriminate].
Defined.

(* ===================================================================== *)
(** ** What the calculations write *)
(* ===================================================================== *)

Section PersistenceFacts.
Context `{Platform} (env : Env).

(** What a successful [try] block does to the world. *)
Lemma calculate_try_world (c : Call) (w w' : World) (r : Risk.t) :
  calculate_try env c w = (Ok r, w') ->
  exists score raw_data,
    signals_of env c = Ok (score, raw_data) /\
    r = {| Risk.category := category_of c;
           Risk.score := py_round2 (py_max 0 (py_min 100 score));
           Risk.raw_data := raw_data |} /\
    ((db_health env = DbFailing /\ w' = w) \/
     (db_health env = DbUp /\
      w' = {| risk_scores :=
                {| RiskScore.risk_category := category_of c;
                   RiskScore.score := py_max 0 (py_min 100 score);
                   RiskScore.raw_data := raw_data |} :: risk_scores w;
              monte_carlo_results := monte_carlo_results w;
              rng_pos := rng_pos w |})).
Proof.
  rewrite calculate_try_unfold.
  destruct (signals_of env c) as [[score raw_data] | e]; [| discriminate].
  cbn zeta.
  pose proof (store_risk_score_cases env (category_of c)
                (py_max 0 (py_min 100 score)) raw_data w) as Hs.
  destruct (db_health env); rewrite Hs; intros E; try discriminate E;
    apply pair_equal_spec in E; destruct E as [E <-]; apply Ok_inj in E; subst r;
    exists score, raw_data; split; try reflexivity; split; try reflexivity; eauto.
Qed.

(** A [try] block that raises has written nothing. *)
Lemma calculate_try_raise_world (c : Call) (w w1 : World) (e : exn) :
  calculate_try env c w = (Raise e, w1) -> w1 = w.
Proof.
  rewrite calculate_try_unfold.
  destruct (signals_of env c) as [[score raw_data] | e0]; [| congruence].
  cbn zeta.
  pose proof (store_risk_score_cases env (category_of c)
                (py_max 0 (py_min 100 score)) raw_data w) as Hs.
  destruct (db_health env); rewrite Hs; congruence.
Qed.

(** A calculation leaves the world alone or puts one row in front of the
    risk scores. *)
Lemma calculate_world (c : Call) (w w' : World) (r : Risk.t) :
  calculate env c w = (Ok r, w') ->
  w' = w \/
  exists score raw_data,
    w' = {| risk_scores :=
              {| RiskScore.risk_category := category_of c;
                 RiskScore.score := py_max 0 (py_min 100 score);
                 RiskScore.raw_data := raw_data |} :: risk_scores w;
            monte_carlo_results := monte_carlo_results w;
            rng_pos := rng_pos w |}.
Proof.
  rewrite calculate_unfold.
  destruct (calculate_try env c w) as [[r0 | e] w0] eqn:E; intros Ex;
    apply pair_equal_spec in Ex; destruct Ex as [_ <-].
  - apply calculate_try_world in E.
    destruct E as (score & raw_data & _ & _ & [[_ ->] | [_ ->]]); eauto.
  - apply calculate_try_raise_world in E. left. exact E.
Qed.

(** X5.  Of the risk-score table, the Monte Carlo table and the random
    generator, a category calculation changes only the risk-score table,
    and that by at most one row: the table is either as it was or has one
    new row in front, which carries the category, the raw data of the
    record returned and a score in [0, 100] whose rounding is the score
    returned.  The row is written exactly when the [try] block returns on
    a working database; a calculation whose [try] block raises leaves the
    risk-score table as it was.  (The cache table, which the fetchers
    called by the calculation rewrite, is not part of this statement.) *)
Theorem calculation_appends_at_most_one_row (c : Call) (w : World) :
  exists r w',
    calculate env c w = (Ok r, w') /\
    monte_carlo_results w' = monte_carlo_results w /\
    rng_pos w' = rng_pos w /\
    (risk_scores w' = risk_scores w \/
     exists row,
       risk_scores w' = row :: risk_scores w /\
       db_health env = DbUp /\
       RiskScore.risk_category row = category_of c /\
       RiskScore.raw_data row = Risk.raw_data r /\
       0 <= RiskScore.score row /\ RiskScore.score row <= 100 /\
       Risk.score r = py_round2 (RiskScore.score row)) /\
    (forall r0 w0,
       calculate_try env c w = (Ok r0, w0) -> db_health env = DbUp ->
       exists row, risk_scores w' = row :: risk_scores w) /\
    (db_health env <> DbUp -> risk_scores w' = risk_scores w) /\
    (forall e w1,
       calculate_try env c w = (Raise e, w1) -> risk_scores w' = risk_scores w).
Proof.
  rewrite calculate_unfold.
  destruct (calculate_try env c w) as [[r | e] w'] eqn:E.
  - exists r, w'. split; [reflexivity |].
    apply calculate_try_world in E.
    destruct E as (score & raw_data & _ & -> & [[Hf ->] | [Hup ->]]);
      cbn [risk_scores monte_carlo_results rng_pos].
    + repeat split; try discriminate; try reflexivity.
      * left. reflexivity.
      * intros r0 w0 _ Hup. congruence.
    + repeat split; try discriminate; try reflexivity.
      * right. eexists. split; [reflexivity |].
        cbn [RiskScore.risk_category RiskScore.raw_data RiskScore.score
             Risk.raw_data Risk.score].
        destruct (clamp_range score). repeat split; assumption.
      * intros r0 w0 _ _. eexists. reflexivity.
      * intros Hno. contradiction.
  - eexists; eexists. split; [reflexivity |].
    apply calculate_try_raise_world in E. subst w'.
    repeat split; try discriminate; try reflexivity.
    left. reflexivity.
Qed.

(** X6.  Reading back what was written: after a calculation that stored
    its score, the history of its category starts with the unrounded score
    just stored, followed by the history it had before, and the history of
    every other category is unchanged. *)
Theorem stored_score_heads_history (c : Call) (w w' : World) (r : Risk.t)
    (limit : nat) (other : string) :
  calculate_try env c w = (Ok r, w') ->
  db_health env = DbUp ->
  other <> category_of c ->
  exists final_score,
    Risk.score r = py_round2 final_score /\
    category_history w' (category_of c)
      = final_score :: category_history w (category_of c) /\
    _get_historical_scores env (category_of c) limit w'
      = (Ok (firstn limit (final_score :: category_history w (category_of c))), w') /\
    _get_historical_scores env other limit w'
      = (Ok (firstn limit (category_history w other)), w').
Proof.
  intros E Hup Hne. apply calculate_try_world in E.
  destruct E as (score & raw_data & _ & -> & [[Hf _] | [_ ->]]); [congruence |].
  exists (py_max 0 (py_min 100 score)). split; [reflexivity |].
  assert (forall cat w0,
            _get_historical_scores env cat limit w0
            = (Ok (firstn limit (category_history w0 cat)), w0)) as Hh.
  { intros cat w0. unfold _get_historical_scores, category_history.
    rewrite Hup. rewrite firstn_map. reflexivity. }
  rewrite !Hh. unfold category_history. cbn [risk_scores List.filter
    RiskScore.risk_category].
  rewrite String.eqb_refl.
  assert (String.eqb (category_of c) other = false) as ->.
  { apply String.eqb_neq. congruence. }
  cbn [map RiskScore.score]. repeat split.
Qed.

End PersistenceFacts.

Lemma stored_score_heads_history_witness :
  exists w' final_score,
    category_history w' "market" = [final_score; 103 # 2; 50] /\
    final_score == 58.
Proof.
  destruct (calculate_try (H := reference_platform) (quote_env "8.0000%")
              (MarketCall "SPY") two_scores_world) as [[r | e] w'] eqn:E;
    [| vm_compute in E; discriminate E].
  destruct (stored_score_heads_history (H := reference_platform)
              (quote_env "8.0000%") (MarketCall "SPY") two_scores_world w' r 30 "hr"
              E eq_refl ltac:(discriminate))
    as (final_score & Hr & Hh & _).
  exists w', final_score. split; [exact Hh |].
  vm_compute in E. apply pair_equal_spec in E. destruct E as [_ <-].
  cbn in Hh. apply (f_equal (fun l => nth 0 l 0)) in Hh. cbn in Hh. subst.
  reflexivity.
Defined.

(* ===================================================================== *)
(** ** More on the simulator *)
(* ===================================================================== *)

Section MoreSimulatorFacts.
Context `{Platform} (env : Env).

(** The standard deviation drawn from is never below 1. *)
Lemma draw_parameters_std (historical_scores : list Q) :
  1 <= (draw_parameters historical_scores).2.
Proof.
  unfold draw_parameters.
  destruct (negb _ || _); cbn [snd]; [lra |].
  case_cmp; lra.
Qed.

(** The mean drawn from lies where the history lies. *)
Lemma draw_parameters_mean (historical_scores : list Q) :
  all_within 0 100 historical_scores ->
  0 <= (draw_parameters historical_scores).1 /\
  (draw_parameters historical_scores).1 <= 100.
Proof.
  intros Hw. unfold draw_parameters.
  destruct historical_scores as [| x [| y hs]]; cbn [fst length Nat.ltb Nat.leb
    negb orb]; try (split; lra).
  cbv zeta. cbn [fst]. apply np_mean_within; [discriminate | exact Hw].
Qed.

Lemma fetch_history_within (risk_category : string) (use_cached_data : bool)
    (w w1 : World) (hs : list Q) :
  stored_scores_valid w ->
  fetch_history env risk_category use_cached_data w = (Ok hs, w1) ->
  all_within 0 100 hs /\ (length hs <= 30)%nat.
Proof.
  intros Hv. unfold fetch_history, _get_historical_scores, mret, M_ret.
  destruct use_cached_data; [destruct (db_health env) |]; intros E;
    try discriminate E; apply pair_equal_spec in E; destruct E as [E _];
    apply Ok_inj in E; subst hs;
    try (split; [constructor | cbn; lia]).
  split.
  - unfold all_within. apply List.Forall_map.
    apply Forall_take. unfold stored_scores_valid in Hv.
    rewrite List.Forall_forall in *. intros row Hin.
    apply List.filter_In in Hin. apply Hv, Hin.
  - rewrite length_map, length_take. lia.
Qed.

(** What a successful run of the pipeline does to the world. *)
Lemma simulate_world (risk_category : string) (iterations : Z)
    (risk_mean risk_std : Q) (w w' : World) (r : Simulation.t) :
  simulate env risk_category iterations risk_mean risk_std w = (Ok r, w') ->
  risk_scores w' = risk_scores w /\
  rng_pos w' = (rng_pos w + Z.to_nat iterations)%nat /\
  ((db_health env = DbFailing /\ monte_carlo_results w' = monte_carlo_results w) \/
   (db_health env = DbUp /\
    monte_carlo_results w' = monte_carlo_row r :: monte_carlo_results w)).
Proof.
  unfold simulate, mbind, M_bind, lift.
  destruct (np_random_normal _ _ _ _ _) as [[draws | e] w1] eqn:Ed;
    [| discriminate].
  apply np_random_normal_inv in Ed. destruct Ed as (Hn & -> & ->).
  destruct (np_percentile _ 5); [| discriminate].
  destruct (np_percentile _ 50); [| discriminate].
  destruct (np_percentile _ 95); [| discriminate].
  cbv zeta. unfold _store_result.
  destruct (db_health env); intros E; try discriminate E;
    apply pair_equal_spec in E; destruct E as [E <-]; apply Ok_inj in E;
    subst r; cbn; repeat split; eauto.
Qed.

(** A run of the pipeline that raises leaves both tables alone. *)
Lemma simulate_raise_world (risk_category : string) (iterations : Z)
    (risk_mean risk_std : Q) (w w1 : World) (e : exn) :
  simulate env risk_category iterations risk_mean risk_std w = (Raise e, w1) ->
  risk_scores w1 = risk_scores w /\
  monte_carlo_results w1 = monte_carlo_results w.
Proof.
  unfold simulate, mbind, M_bind, lift.
  destruct (np_random_normal _ _ _ _ _) as [[draws | e0] w2] eqn:Ed.
  - apply np_random_normal_inv in Ed. destruct Ed as (Hn & -> & ->).
    destruct (np_percentile _ 5); [| intros [= _ <-]; split; reflexivity].
    destruct (np_percentile _ 50); [| intros [= _ <-]; split; reflexivity].
    destruct (np_percentile _ 95); [| intros [= _ <-]; split; reflexivity].
    cbv zeta. unfold _store_result.
    destruct (db_health env); intros E; try discriminate E.
    apply pair_equal_spec in E. destruct E as [_ <-]. split; reflexivity.
  - unfold np_random_normal in Ed.
    destruct (_ || _) in Ed; [| discriminate Ed].
    apply pair_equal_spec in Ed. destruct Ed as [_ <-].
    intros [= _ <-]. split; reflexivity.
Qed.

(** The pipeline succeeds on a positive number of iterations, a standard
    deviation that is not negative and a database that opens sessions. *)
Lemma simulate_ok (risk_category : string) (iterations : Z)
    (risk_mean risk_std : Q) (w : World) :
  (0 < iterations)%Z -> 0 <= risk_std -> db_health env <> DbNoSession ->
  exists r w', simulate env risk_category iterations risk_mean risk_std w = (Ok r, w').
Proof.
  intros Hn Hs Hdb. unfold simulate, mbind, M_bind, lift.
  assert ((risk_std <? 0) = false) as Hsb.
  { destruct (risk_std <? 0) eqn:E; [apply Qltb_true in E; lra | reflexivity]. }
  rewrite (np_random_normal_ok env risk_mean risk_std iterations w Hsb) by lia.
  set (simulations := np_clip _ 0 100).
  assert (simulations <> []) as Hne.
  { intros E0. apply (f_equal length) in E0. unfold simulations in E0.
    rewrite np_clip_length, normal_draws_length in E0. cbn [length] in E0. lia. }
  destruct (np_percentile_ok simulations 5 Hne) as [p5 ->]; [lra | lra |].
  destruct (np_percentile_ok simulations 50 Hne) as [p50 ->]; [lra | lra |].
  destruct (np_percentile_ok simulations 95 Hne) as [p95 ->]; [lra | lra |].
  cbv zeta. unfold _store_result.
  destruct (db_health env); try congruence; eexists; eexists; reflexivity.
Qed.

(** [run_simulation] never touches the risk scores. *)
Lemma run_simulation_risk_scores (risk_category : string) (iterations : Z)
    (use_cached_data : bool) (w w' : World) (x : result Simulation.t) :
  run_simulation env risk_category iterations use_cached_data w = (x, w') ->
  risk_scores w' = risk_scores w.
Proof.
  rewrite run_simulation_unfold, run_simulation_try_unfold.
  destruct (fetch_history _ _ _ _) as [[hs | e] w1] eqn:Ef;
    apply fetch_history_world in Ef; subst w1.
  - destruct (simulate _ _ _ _ _ _) as [[r | e] w0] eqn:E; intros Ex;
      apply pair_equal_spec in Ex; destruct Ex as [_ <-].
    + apply simulate_world in E. apply E.
    + apply simulate_raise_world in E. apply E.
  - intros Ex. apply pair_equal_spec in Ex. destruct Ex as [_ <-]. reflexivity.
Qed.

(** X7.  For a number of iterations from 1 up to the 100000 the request
    model admits, [run_simulation] falls back exactly when the database
    cannot open a session: in every other case its [try] block returns,
    whatever the history holds.  With a negative number of iterations the
    [try] block always raises. *)
Theorem simulation_succeeds_iff (risk_category : string) (iterations : Z)
    (use_cached_data : bool) (w : World) :
  ((0 < iterations <= 100000)%Z ->
   ((exists r w',
       run_simulation_try env risk_category iterations use_cached_data w
         = (Ok r, w'))
    <-> db_health env <> DbNoSession)) /\
  ((iterations < 0)%Z ->
   exists e w1,
     run_simulation_try env risk_category iterations use_cached_data w
       = (Raise e, w1)).
Proof.
  rewrite run_simulation_try_unfold. split.
  - intros [Hn _]. split.
    + intros (r & w' & E).
      destruct (fetch_history _ _ _ _) as [[hs | e] w1] eqn:Ef; [| discriminate E].
      apply simulate_world in E. destruct E as (_ & _ & [[Hd _] | [Hd _]]);
        congruence.
    + intros Hdb.
      destruct (fetch_history _ _ _ _) as [[hs | e] w1] eqn:Ef.
      * apply simulate_ok; try assumption.
        pose proof (draw_parameters_std hs). lra.
      * exfalso. unfold fetch_history, _get_historical_scores, mret, M_ret in Ef.
        destruct use_cached_data; [destruct (db_health env) |]; congruence.
  - intros Hneg.
    destruct (fetch_history _ _ _ _) as [[hs | e] w1] eqn:Ef; [| eauto].
    destruct (simulate _ _ _ _ _ _) as [[r | e] w'] eqn:E; [| eauto].
    apply simulate_inv in E. destruct E as (Hn & _). lia.
Qed.

(** X8.  [run_simulation] never touches the risk scores.  When its [try]
    block returns on a working database, it has written one row to the
    Monte Carlo table, equal to the result it returns; when the [try] block
    returns on a database that fails on writing, or when it raises, the
    table is as it was: the fallback result is never written. *)
Theorem simulation_persistence (risk_category : string) (iterations : Z)
    (use_cached_data : bool) (w : World) :
  exists r w',
    run_simulation env risk_category iterations use_cached_data w = (Ok r, w') /\
    risk_scores w' = risk_scores w /\
    (forall r0 w0,
       run_simulation_try env risk_category iterations use_cached_data w
         = (Ok r0, w0) ->
       r = r0 /\
       rng_pos w' = (rng_pos w + Z.to_nat iterations)%nat /\
       (db_health env = DbUp ->
        monte_carlo_results w' = monte_carlo_row r :: monte_carlo_results w) /\
       (db_health env <> DbUp ->
        monte_carlo_results w' = monte_carlo_results w)) /\
    (forall e w1,
       run_simulation_try env risk_category iterations use_cached_data w
         = (Raise e, w1) ->
       r = default_result risk_category iterations /\
       monte_carlo_results w' = monte_carlo_results w).
Proof.
  rewrite run_simulation_unfold, run_simulation_try_unfold.
  destruct (fetch_history _ _ _ _) as [[hs | e] w1] eqn:Ef;
    apply fetch_history_world in Ef; subst w1.
  - destruct (simulate _ _ _ _ _ _) as [[r | e] w'] eqn:E.
    + exists r, w'. split; [reflexivity |].
      apply simulate_world in E. destruct E as (Hr & Hp & Hm).
      split; [exact Hr |]. split; [| discriminate].
      intros r0 w0 E0. apply pair_equal_spec in E0. destruct E0 as [E0 _].
      apply Ok_inj in E0. subst r0.
      split; [reflexivity |]. split; [exact Hp |].
      destruct Hm as [[Hd Hm] | [Hd Hm]]; split; intros Hh; congruence.
    + eexists; eexists. split; [reflexivity |].
      apply simulate_raise_world in E. destruct E as [Hr Hm].
      split; [exact Hr |]. split; [discriminate |].
      intros e0 w1 _. split; [reflexivity | exact Hm].
  - eexists; eexists. split; [reflexivity |]. split; [reflexivity |].
    split; [discriminate |]. intros e0 w1 _. split; reflexivity.
Qed.

(** X9.  When every stored risk score lies in [0, 100], the normal
    distribution [run_simulation] draws from has its mean in [0, 100]; its
    standard deviation is at least 1 in every case; and at most 30 stored
    scores enter the computation. *)
Theorem draw_parameters_bounds (risk_category : string) (use_cached_data : bool)
    (w w1 : World) (historical_scores : list Q) :
  stored_scores_valid w ->
  fetch_history env risk_category use_cached_data w = (Ok historical_scores, w1) ->
  (length historical_scores <= 30)%nat /\
  0 <= (draw_parameters historical_scores).1 /\
  (draw_parameters historical_scores).1 <= 100 /\
  1 <= (draw_parameters historical_scores).2.
Proof.
  intros Hv Ef. destruct (fetch_history_within _ _ _ _ _ Hv Ef) as [Hw Hl].
  destruct (draw_parameters_mean historical_scores Hw) as [M0 M1].
  pose proof (draw_parameters_std historical_scores).
  repeat split; assumption.
Qed.

End MoreSimulatorFacts.

Section ScenarioFacts.
Context `{Platform} (env : Env).

(** The clipped samples of a scenario summarise to a valid distribution. *)
Lemma scenario_summary_valid (loc scale : Q) (pos : nat) (d : Distribution.t) :
  scenario_summary env loc scale pos d -> distribution_valid d.
Proof.
  unfold scenario_summary, summary_of, distribution_valid.
  set (simulations := np_clip _ 0 100).
  intros (Hm & _ & p5 & p50 & p95 & E5 & E50 & E95 & Ep).
  pose proof (np_clip_within (normal_draws env loc scale pos (Z.to_nat 5000))) as Hw.
  fold simulations in Hw.
  assert (simulations <> []) as Hne.
  { intros E0. apply (f_equal length) in E0. unfold simulations in E0.
    rewrite np_clip_length, normal_draws_length in E0. cbn [length] in E0. lia. }
  destruct (np_mean_within 0 100 simulations Hne Hw) as [M0 M1].
  destruct (np_percentile_within 0 100 simulations 5 p5 Hw E5) as [P0 _].
  destruct (np_percentile_within 0 100 simulations 95 p95 Hw E95) as [_ P1].
  pose proof (np_percentile_mono simulations 5 50 p5 p50 ltac:(lra) E5 E50).
  pose proof (np_percentile_mono simulations 50 95 p50 p95 ltac:(lra) E50 E95).
  rewrite Hm. split; [exact M0 |]. split; [exact M1 |].
  exists p5, p50, p95. repeat split; assumption.
Qed.

(** One successful turn of the scenario loop, read backwards. *)
Lemma scenario_loop_cons_inv (scenario_name : string) (params : gmap string Q)
    (rest : list (string * gmap string Q)) (results res' : gmap string Distribution.t)
    (w w' : World) :
  scenario_loop env ((scenario_name, params) :: rest) results w = (Ok res', w') ->
  exists loc scale d,
    params !! "mean"%string = Some loc /\
    params !! "std"%string = Some scale /\
    0 <= scale /\
    scenario_summary env loc scale (rng_pos w) d /\
    scenario_loop env rest (<[scenario_name := d]> results)
      (advance w (Z.to_nat 5000)) = (Ok res', w').
Proof.
  cbn [scenario_loop]. unfold mbind, M_bind, lift, param.
  destruct (params !! "mean"%string) as [loc |]; [| discriminate].
  destruct (params !! "std"%string) as [scale |]; [| discriminate].
  destruct (scale <? 0) eqn:Hs.
  { unfold np_random_normal. rewrite Hs. discriminate. }
  rewrite (np_random_normal_ok env loc scale 5000 w Hs) by lia.
  apply Qltb_false in Hs.
  set (simulations := np_clip _ 0 100).
  destruct (np_percentile simulations 5) as [p5 |] eqn:E5; [| discriminate].
  destruct (np_percentile simulations 50) as [p50 |] eqn:E50; [| discriminate].
  destruct (np_percentile simulations 95) as [p95 |] eqn:E95; [| discriminate].
  cbv zeta. intros E.
  exists loc, scale,
    {| Distribution.mean := np_mean simulations;
       Distribution.std := np_std simulations;
       Distribution.percentiles :=
         <["95"%string := p95]> (<["50"%string := p50]> {[ "5"%string := p5 ]}) |}.
  split; [reflexivity |]. split; [reflexivity |]. split; [exact Hs |].
  split; [| exact E].
  unfold scenario_summary. fold simulations. cbn.
  split; [reflexivity |]. split; [reflexivity |].
  exists p5, p50, p95. repeat split; assumption.
Qed.

(** The scenario loop only draws from the generator: whether it returns
    or raises, both tables are as they were. *)
Lemma scenario_loop_tables (scenarios : list (string * gmap string Q))
    (results : gmap string Distribution.t) (w w' : World)
    (x : result (gmap string Distribution.t)) :
  scenario_loop env scenarios results w = (x, w') ->
  risk_scores w' = risk_scores w /\
  monte_carlo_results w' = monte_carlo_results w.
Proof.
  revert results w. induction scenarios as [| [name params] rest IH];
    intros results w.
  - cbn. unfold mret, M_ret. intros [= _ <-]. split; reflexivity.
  - cbn [scenario_loop]. unfold mbind, M_bind, lift, param.
    destruct (params !! "mean"%string) as [loc |];
      [| intros [= _ <-]; split; reflexivity].
    destruct (params !! "std"%string) as [scale |];
      [| intros [= _ <-]; split; reflexivity].
    destruct (np_random_normal env loc scale 5000 w) as [[draws | e] w1] eqn:Ed.
    + apply np_random_normal_inv in Ed. destruct Ed as (_ & -> & ->).
      destruct (np_percentile _ 5); [| intros [= _ <-]; split; reflexivity].
      destruct (np_percentile _ 50); [| intros [= _ <-]; split; reflexivity].
      destruct (np_percentile _ 95); [| intros [= _ <-]; split; reflexivity].
      cbv zeta. intros E. apply IH in E. exact E.
    + unfold np_random_normal in Ed.
      destruct (_ || _) in Ed; [| discriminate Ed].
      apply pair_equal_spec in Ed. destruct Ed as [_ <-].
      intros [= _ <-]. split; reflexivity.
Qed.

(** What a successful scenario loop has done. *)
Lemma scenario_loop_results (scenarios : list (string * gmap string Q))
    (results res' : gmap string Distribution.t) (w w' : World) :
  scenario_loop env scenarios results w = (Ok res', w') ->
  rng_pos w' = (rng_pos w + Z.to_nat 5000 * length scenarios)%nat /\
  (forall name, is_Some (res' !! name) <->
     is_Some (results !! name) \/ In name (map fst scenarios)) /\
  ((forall name d, results !! name = Some d -> distribution_valid d) ->
   forall name d, res' !! name = Some d -> distribution_valid d).
Proof.
  revert results w. induction scenarios as [| [sname params] rest IH];
    intros results w E.
  - cbn in E. unfold mret, M_ret in E. apply pair_equal_spec in E.
    destruct E as [E <-]. apply Ok_inj in E. subst res'.
    split; [cbn [length]; lia |]. split; [| tauto].
    intros name. cbn. tauto.
  - apply scenario_loop_cons_inv in E.
    destruct E as (loc & scale & d & _ & _ & _ & Hd & E).
    apply IH in E. destruct E as (Hp & Hdom & Hval).
    split; [| split].
    + rewrite Hp. cbn [rng_pos advance length]. lia.
    + intros name. rewrite Hdom. cbn [map fst In].
      destruct (decide (sname = name)) as [-> | Hne].
      * rewrite lookup_insert_eq. split; [tauto | intros _; left; eauto].
      * rewrite lookup_insert_ne by exact Hne. tauto.
    + intros Hres. apply Hval. intros name d0.
      destruct (decide (sname = name)) as [-> | Hne].
      * rewrite lookup_insert_eq. intros [= <-].
        eapply scenario_summary_valid, Hd.
      * rewrite lookup_insert_ne by exact Hne. apply Hres.
Qed.

(** X10.  For any dictionary of scenarios, [run_multiple_scenarios] never
    writes to the database, whether it returns or raises.  When it returns,
    it has drawn 5000 deviates per scenario, the result has an entry exactly
    for the labels given, and every entry has its mean and percentiles in
    [0, 100] with p5 <= p50 <= p95. *)
Theorem scenarios_outcome (risk_category : string)
    (scenarios : list (string * gmap string Q)) (w w' : World)
    (x : result Scenarios.t) :
  run_multiple_scenarios env risk_category (Some scenarios) w = (x, w') ->
  risk_scores w' = risk_scores w /\
  monte_carlo_results w' = monte_carlo_results w /\
  (forall r, x = Ok r ->
     Scenarios.risk_category r = risk_category /\
     rng_pos w' = (rng_pos w + Z.to_nat 5000 * length scenarios)%nat /\
     (forall name, is_Some (Scenarios.scenarios r !! name) <->
        In name (map fst scenarios)) /\
     (forall name d, Scenarios.scenarios r !! name = Some d ->
        distribution_valid d)).
Proof.
  unfold run_multiple_scenarios. unfold mbind at 1. unfold M_bind.
  destruct (scenario_loop env scenarios ∅ w) as [[res | e] w1] eqn:E.
  - unfold mret, M_ret. intros Ex. apply pair_equal_spec in Ex.
    destruct Ex as [<- <-].
    destruct (scenario_loop_tables _ _ _ _ _ E) as [Hr Hm].
    split; [exact Hr |]. split; [exact Hm |].
    intros r Er. apply Ok_inj in Er. subst r.
    cbn [Scenarios.risk_category Scenarios.scenarios].
    apply scenario_loop_results in E. destruct E as (Hp & Hdom & Hval).
    split; [reflexivity |]. split; [exact Hp |]. split.
    + intros name. rewrite Hdom. rewrite lookup_empty.
      split; [intros [[? ?] | ?]; [discriminate | assumption] | tauto].
    + apply Hval. intros name d. rewrite lookup_empty. discriminate.
  - intros Ex. apply pair_equal_spec in Ex. destruct Ex as [<- <-].
    destruct (scenario_loop_tables _ _ _ _ _ E) as [Hr Hm].
    split; [exact Hr |]. split; [exact Hm |]. discriminate.
Qed.

(** Scenarios with usable parameters are run one after the other, each on
    5000 deviates, and the loop goes on with the rest. *)
Lemma scenario_loop_prefix (good rest : list (string * gmap string Q))
    (results : gmap string Distribution.t) (w : World) :
  Forall (fun s : string * gmap string Q =>
            exists loc scale,
              s.2 !! "mean"%string = Some loc /\
              s.2 !! "std"%string = Some scale /\ 0 <= scale) good ->
  exists results' w1,
    scenario_loop env (good ++ rest) results w
      = scenario_loop env rest results' w1 /\
    risk_scores w1 = risk_scores w /\
    monte_carlo_results w1 = monte_carlo_results w /\
    rng_pos w1 = (rng_pos w + Z.to_nat 5000 * length good)%nat.
Proof.
  intros Hgood. revert results w.
  induction Hgood as [| [name params] good (loc & scale & Hm & Hs & Hpos) _ IH];
    intros results w.
  - exists results, w. cbn [app length]. repeat split. lia.
  - cbn [snd] in Hm, Hs.
    assert ((scale <? 0) = false) as Hsb.
    { destruct (scale <? 0) eqn:E; [apply Qltb_true in E; lra | reflexivity]. }
    destruct (scenario_step env name params (good ++ rest) results loc scale w
                Hm Hs Hsb) as (d & _ & Estep).
    destruct (IH (<[name := d]> results) (advance w (Z.to_nat 5000)))
      as (results' & w1 & E & Hr & Hmc & Hp).
    exists results', w1. rewrite <- app_comm_cons, Estep, E.
    split; [reflexivity |]. split; [exact Hr |]. split; [exact Hmc |].
    rewrite Hp. cbn [advance rng_pos length]. lia.
Qed.

(** X11.  Unlike [run_simulation], [run_multiple_scenarios] has no
    fallback.  At whatever position it stands, after any number of
    scenarios with usable parameters, a scenario without a "mean" or a
    "std" entry makes the call raise KeyError, and one with a negative
    "std" makes it raise ValueError, to its caller; the scenarios before it
    have been run by then (5000 deviates each are gone), nothing is
    returned for them, and the scenarios after it are not run. *)
Theorem scenarios_raise (risk_category : string)
    (good : list (string * gmap string Q)) (scenario_name : string)
    (params : gmap string Q) (rest : list (string * gmap string Q)) (w : World) :
  Forall (fun s : string * gmap string Q =>
            exists loc scale,
              s.2 !! "mean"%string = Some loc /\
              s.2 !! "std"%string = Some scale /\ 0 <= scale) good ->
  exists w1,
    rng_pos w1 = (rng_pos w + Z.to_nat 5000 * length good)%nat /\
    risk_scores w1 = risk_scores w /\
    monte_carlo_results w1 = monte_carlo_results w /\
    (params !! "mean"%string = None \/ params !! "std"%string = None ->
     run_multiple_scenarios env risk_category
       (Some (good ++ (scenario_name, params) :: rest)) w
       = (Raise KeyError, w1)) /\
    (forall loc scale,
       params !! "mean"%string = Some loc -> params !! "std"%string = Some scale ->
       scale < 0 ->
       run_multiple_scenarios env risk_category
         (Some (good ++ (scenario_name, params) :: rest)) w
         = (Raise ValueError, w1)).
Proof.
  intros Hgood.
  destruct (scenario_loop_prefix good ((scenario_name, params) :: rest) ∅ w Hgood)
    as (results' & w1 & E & Hr & Hmc & Hp).
  exists w1. split; [exact Hp |]. split; [exact Hr |]. split; [exact Hmc |].
  unfold run_multiple_scenarios. unfold mbind, M_bind.
  rewrite E. cbn [scenario_loop].
  unfold mbind, M_bind, lift, param.
  split.
  - intros [Hn | Hn]; rewrite Hn;
      [| destruct (params !! "mean"%string)]; reflexivity.
  - intros loc scale Hm Hs Hneg. rewrite Hm, Hs. unfold np_random_normal.
    assert ((scale <? 0) = true) as ->; [| reflexivity].
    destruct (scale <? 0) eqn:E0; [reflexivity | apply Qltb_false in E0; lra].
Qed.

End ScenarioFacts.

Lemma scenarios_outcome_witness :
  risk_scores
    (run_multiple_scenarios (H := reference_platform) quiet_env "hr"
       (Some [("flat"%string, <["std"%string := 0]> {[ "mean"%string := 40 ]})])
       two_scores_world).2
  = risk_scores two_scores_world.
Proof.
  destruct (run_multiple_scenarios (H := reference_platform) quiet_env "hr"
              (Some [("flat"%string, <["std"%string := 0]> {[ "mean"%string := 40 ]})])
              two_scores_world) as [x w'] eqn:E.
  apply scenarios_outcome in E. destruct E as (Hr & _). exact Hr.
Defined.

Lemma scenarios_raise_witness :
  exists w1,
    rng_pos w1 = (rng_pos empty_world + Z.to_nat 5000 * 1)%nat /\
    run_multiple_scenarios (H := reference_platform) quiet_env "hr"
      (Some [("fine"%string, <["std"%string := 5]> {[ "mean"%string := 40 ]});
             ("broken"%string, {[ "mean"%string := 40 ]});
             ("late"%string, <["std"%string := 5]> {[ "mean"%string := 60 ]})])
      empty_world
    = (Raise KeyError, w1).
Proof.
  destruct (scenarios_raise (H := reference_platform) quiet_env "hr"
              [("fine"%string, <["std"%string := 5]> {[ "mean"%string := 40 ]})]
              "broken" {[ "mean"%string := 40 ]}
              [("late"%string, <["std"%string := 5]> {[ "mean"%string := 60 ]})]
              empty_world)
    as (w1 & Hp & _ & _ & Hkey & _).
  - constructor; [| constructor]. exists 40, 5.
    split; [reflexivity |]. split; [reflexivity |]. discriminate.
  - exists w1. split; [exact Hp |]. apply Hkey. right. reflexivity.
Defined.

(* ===================================================================== *)
(** ** Invariants of the two services *)
(* ===================================================================== *)

Lemma cents_round_le (a x : Q) : cents a -> a <= x -> a <= py_round2 x.
Proof.
  intros [n En] Hle. rewrite En in *.
  rewrite <- (py_round2_cents n). apply py_round2_mono, Hle.
Qed.

Lemma cents_round_ge (b x : Q) : cents b -> x <= b -> py_round2 x <= b.
Proof.
  intros [n En] Hle. rewrite En in *.
  rewrite <- (py_round2_cents n). apply py_round2_mono, Hle.
Qed.

Lemma cents_min (a b : Q) : cents a -> cents b -> cents (Qmin a b).
Proof.
  intros Ha Hb. destruct (Q.min_spec a b) as [[_ E] | [_ E]];
    unfold cents in *; setoid_rewrite E; assumption.
Qed.

Lemma cents_max (a b : Q) : cents a -> cents b -> cents (Qmax a b).
Proof.
  intros Ha Hb. destruct (Q.max_spec a b) as [[_ E] | [_ E]];
    unfold cents in *; setoid_rewrite E; assumption.
Qed.

Section InvariantFacts.
Context `{Platform} (env : Env).

(** Every score a calculation returns has two decimals. *)
Lemma calculate_score_cents (c : Call) (w w' : World) (r : Risk.t) :
  calculate env c w = (Ok r, w') -> cents (Risk.score r).
Proof.
  intros E. destruct (calculate_cases env c w) as (r0 & w0 & E0 & Hr).
  rewrite E in E0. apply pair_equal_spec in E0. destruct E0 as [E0 _].
  apply Ok_inj in E0. subst r0.
  destruct Hr as [-> | (score & raw_data & _ & ->)]; cbn [Risk.score _default_risk].
  - exists 5000%Z. reflexivity.
  - destruct (py_round2_is_cents (py_max 0 (py_min 100 score))) as [n ->].
    exists n. reflexivity.
Qed.

(** [calculate_all_risks] is the four calculations in a row. *)
Lemma calculate_all_risks_inv (w w' : World) (r : Radar.t) :
  calculate_all_risks env w = (Ok r, w') ->
  exists w1 w2 w3,
    calculate env (MarketCall "SPY") w = (Ok (Radar.market_risk r), w1) /\
    calculate env SupplyChainCall w1 = (Ok (Radar.supply_chain_risk r), w2) /\
    calculate env (RegulatoryCall "0000789019") w2
      = (Ok (Radar.regulatory_risk r), w3) /\
    calculate env HrCall w3 = (Ok (Radar.hr_risk r), w') /\
    Radar.overall_risk r =
      py_round2
        (Risk.score (Radar.market_risk r) * (3 # 10) +
         Risk.score (Radar.supply_chain_risk r) * (25 # 100) +
         Risk.score (Radar.regulatory_risk r) * (25 # 100) +
         Risk.score (Radar.hr_risk r) * (2 # 10)).
Proof.
  unfold calculate_all_risks, mbind, M_bind.
  destruct (calculate_total env (MarketCall "SPY") w) as (m & w1 & Em).
  destruct (calculate_total env SupplyChainCall w1) as (s & w2 & Es).
  destruct (calculate_total env (RegulatoryCall "0000789019") w2) as (g & w3 & Eg).
  destruct (calculate_total env HrCall w3) as (h & w4 & Eh).
  pose proof Em as Em'. pose proof Es as Es'. pose proof Eg as Eg'.
  pose proof Eh as Eh'.
  cbn [calculate] in Em', Es', Eg', Eh'. rewrite Em', Es', Eg', Eh'.
  unfold mret, M_ret. intros E. apply pair_equal_spec in E.
  destruct E as [E <-]. apply Ok_inj in E. subst r.
  exists w1, w2, w3. cbn. repeat split; assumption.
Qed.

(** X12.  The overall risk lies between the smallest and the largest of
    the four category scores returned with it; in particular it equals
    their common value when the four agree. *)
Theorem overall_risk_between_extremes (w w' : World) (r : Radar.t) :
  calculate_all_risks env w = (Ok r, w') ->
  let m := Risk.score (Radar.market_risk r) in
  let s := Risk.score (Radar.supply_chain_risk r) in
  let g := Risk.score (Radar.regulatory_risk r) in
  let h := Risk.score (Radar.hr_risk r) in
  Qmin (Qmin m s) (Qmin g h) <= Radar.overall_risk r /\
  Radar.overall_risk r <= Qmax (Qmax m s) (Qmax g h) /\
  (m == s -> s == g -> g == h -> Radar.overall_risk r == m).
Proof.
  intros E m s g h. apply calculate_all_risks_inv in E.
  destruct E as (w1 & w2 & w3 & Em & Es & Eg & Eh & Eo).
  apply calculate_score_cents in Em, Es, Eg, Eh.
  fold m in Em. fold s in Es. fold g in Eg. fold h in Eh.
  rewrite Eo. fold m s g h.
  pose proof (Q.le_min_l (Qmin m s) (Qmin g h)).
  pose proof (Q.le_min_r (Qmin m s) (Qmin g h)).
  pose proof (Q.le_min_l m s). pose proof (Q.le_min_r m s).
  pose proof (Q.le_min_l g h). pose proof (Q.le_min_r g h).
  pose proof (Q.le_max_l (Qmax m s) (Qmax g h)).
  pose proof (Q.le_max_r (Qmax m s) (Qmax g h)).
  pose proof (Q.le_max_l m s). pose proof (Q.le_max_r m s).
  pose proof (Q.le_max_l g h). pose proof (Q.le_max_r g h).
  split; [| split].
  - apply cents_round_le; [repeat apply cents_min; assumption | lra].
  - apply cents_round_ge; [repeat apply cents_max; assumption | lra].
  - intros E1 E2 E3. destruct Em as [n En].
    rewrite (py_round2_comp _ (inject_Z n / 100)).
    + rewrite py_round2_cents. symmetry. exact En.
    + rewrite <- En. lra.
Qed.

(** X13.  If every stored risk score lies in [0, 100], it still does after
    any operation of the two services: a category calculation,
    [calculate_all_risks], [run_simulation] and [run_multiple_scenarios]. *)
Theorem stored_scores_stay_valid (w : World) :
  stored_scores_valid w ->
  (forall c r w', calculate env c w = (Ok r, w') -> stored_scores_valid w') /\
  (forall r w', calculate_all_risks env w = (Ok r, w') -> stored_scores_valid w') /\
  (forall risk_category iterations use_cached_data r w',
     run_simulation env risk_category iterations use_cached_data w = (Ok r, w') ->
     stored_scores_valid w') /\
  (forall risk_category scenarios x w',
     run_multiple_scenarios env risk_category scenarios w = (x, w') ->
     stored_scores_valid w').
Proof.
  assert (forall w0 c r w', stored_scores_valid w0 ->
            calculate env c w0 = (Ok r, w') -> stored_scores_valid w') as Hc.
  { intros w0 c r w' Hv E. apply calculate_world in E.
    destruct E as [-> | (score & raw_data & ->)]; [exact Hv |].
    unfold stored_scores_valid in *. cbn [risk_scores].
    constructor; [apply clamp_range | exact Hv]. }
  intros Hv. split; [| split; [| split]].
  - intros c r w'. apply Hc, Hv.
  - intros r w' E. apply calculate_all_risks_inv in E.
    destruct E as (w1 & w2 & w3 & Em & Es & Eg & Eh & _).
    eapply Hc; [| exact Eh]. eapply Hc; [| exact Eg].
    eapply Hc; [| exact Es]. eapply Hc; [exact Hv | exact Em].
  - intros cat it use r w' E. apply run_simulation_risk_scores in E.
    unfold stored_scores_valid. rewrite E. exact Hv.
  - intros cat scs x w' E. unfold run_multiple_scenarios in E.
    unfold mbind at 1 in E. unfold M_bind in E.
    destruct (scenario_loop env _ ∅ w) as [[res | e] w1] eqn:El;
      apply scenario_loop_tables in El; destruct El as [Hr _];
      unfold mret, M_ret in E; apply pair_equal_spec in E; destruct E as [_ <-];
      unfold stored_scores_valid; rewrite Hr; exact Hv.
Qed.

End InvariantFacts.

Lemma two_scores_world_valid : stored_scores_valid two_scores_world.
Proof.
  unfold stored_scores_valid, two_scores_world. cbn [risk_scores].
  repeat constructor; cbn [RiskScore.score]; lra.
Qed.

Lemma calculation_appends_at_most_one_row_witness :
  risk_scores
    (calculate (H := reference_platform) failing_env HrCall two_scores_world).2
  = risk_scores two_scores_world /\
  exists row,
    risk_scores
      (calculate (H := reference_platform) quiet_env HrCall two_scores_world).2
    = row :: risk_scores two_scores_world.
Proof.
  split.
  - destruct (calculation_appends_at_most_one_row (H := reference_platform)
                failing_env HrCall two_scores_world)
      as (r & w' & E & _ & _ & _ & _ & _ & Hraise).
    rewrite E. cbn [snd].
    apply (Hraise SQLAlchemyError two_scores_world). reflexivity.
  - destruct (calculation_appends_at_most_one_row (H := reference_platform)
                quiet_env HrCall two_scores_world)
      as (r & w' & E & _ & _ & _ & Hrow & _).
    rewrite E. cbn [snd].
    destruct (calculate_try (H := reference_platform) quiet_env HrCall
                two_scores_world) as [[r0 | e] w0] eqn:Et;
      [| vm_compute in Et; discriminate Et].
    apply (Hrow r0 w0 eq_refl eq_refl).
Defined.

Lemma simulation_succeeds_iff_witness :
  (exists r w',
     run_simulation_try (H := reference_platform) quiet_env "market" 100 false
       empty_world = (Ok r, w')) /\
  (exists e w1,
     run_simulation_try (H := reference_platform) quiet_env "market" (-1) false
       empty_world = (Raise e, w1)).
Proof.
  split.
  - apply (proj2 (proj1 (simulation_succeeds_iff (H := reference_platform) quiet_env
                           "market" 100 false empty_world) ltac:(lia))).
    discriminate.
  - apply (proj2 (simulation_succeeds_iff (H := reference_platform) quiet_env
                    "market" (-1) false empty_world)).
    lia.
Defined.

Lemma simulation_persistence_witness :
  exists r w',
    run_simulation (H := reference_platform) quiet_env "market" 10 true
      two_scores_world = (Ok r, w') /\
    monte_carlo_results w' = [monte_carlo_row r].
Proof.
  destruct (simulation_persistence (H := reference_platform) quiet_env "market" 10
              true two_scores_world) as (r & w' & E & _ & Hok & _).
  exists r, w'. split; [exact E |].
  destruct (run_simulation_try (H := reference_platform) quiet_env "market" 10 true
              two_scores_world) as [[r0 | e] w0] eqn:Et;
    [| vm_compute in Et; discriminate Et].
  destruct (Hok r0 w0 eq_refl) as (_ & _ & Hup & _).
  apply (Hup eq_refl).
Defined.

Lemma draw_parameters_bounds_witness :
  0 <= (draw_parameters (H := reference_platform) [103 # 2; 50]).1 /\
  (draw_parameters (H := reference_platform) [103 # 2; 50]).1 <= 100.
Proof.
  destruct (draw_parameters_bounds (H := reference_platform) quiet_env "market"
              true two_scores_world two_scores_world [103 # 2; 50]
              two_scores_world_valid eq_refl) as (_ & M0 & M1 & _).
  split; assumption.
Defined.

Lemma overall_risk_between_extremes_witness :
  exists r w',
    calculate_all_risks (H := reference_platform) (quote_env "8.0000%") empty_world
      = (Ok r, w') /\
    Radar.overall_risk r <=
      Qmax (Qmax (Risk.score (Radar.market_risk r))
                 (Risk.score (Radar.supply_chain_risk r)))
           (Qmax (Risk.score (Radar.regulatory_risk r))
                 (Risk.score (Radar.hr_risk r))).
Proof.
  destruct (calculate_all_risks (H := reference_platform) (quote_env "8.0000%")
              empty_world) as [[r | e] w'] eqn:E;
    [| vm_compute in E; discriminate E].
  exists r, w'. split; [reflexivity |].
  apply (overall_risk_between_extremes (H := reference_platform)
           (quote_env "8.0000%") empty_world w' r E).
Defined.

Lemma stored_scores_stay_valid_witness :
  stored_scores_valid
    (calculate (H := reference_platform) (quote_env "8.0000%") (MarketCall "SPY")
       two_scores_world).2.
Proof.
  destruct (calculate (H := reference_platform) (quote_env "8.0000%")
              (MarketCall "SPY") two_scores_world) as [[r | e] w'] eqn:E;
    [| vm_compute in E; discriminate E].
  cbn [snd].
  apply (proj1 (stored_scores_stay_valid (H := reference_platform)
                  (quote_env "8.0000%") two_scores_world two_scores_world_valid)
           (MarketCall "SPY") r w' E).
Defined.

(* ===================================================================== *)
(** ** The cache and the fetchers *)
(* ===================================================================== *)

Lemma find_app_first {A} (f : A -> bool) (l1 l2 : list A) :
  List.find f (l1 ++ l2) =
  match List.find f l1 with
  | Some x => Some x
  | None => List.find f l2
  end.
Proof.
  induction l1 as [| a l1 IH]; cbn; [reflexivity |].
  destruct (f a); [reflexivity | exact IH].
Qed.

Lemma find_none_all {A} (f : A -> bool) (l : list A) :
  (forall x, In x l -> f x = false) -> List.find f l = None.
Proof.
  induction l as [| a l IH]; cbn; intros Hf; [reflexivity |].
  rewrite (Hf a) by (left; reflexivity). apply IH. intros x Hx. apply Hf. right.
  exact Hx.
Qed.

(** Leaving out entries the test rejects does not change what is found. *)
Lemma find_filter_irrelevant {A} (f g : A -> bool) (l : list A) :
  (forall x, g x = false -> f x = false) ->
  List.find f (List.filter g l) = List.find f l.
Proof.
  intros Hfg. induction l as [| a l IH]; cbn; [reflexivity |].
  destruct (g a) eqn:Eg; cbn.
  - destruct (f a); [reflexivity | exact IH].
  - rewrite (Hfg a Eg). exact IH.
Qed.

Lemma same_key_spec (data_type source symbol : string) (e : RiskDataCache.t) :
  DataFetcher.same_key data_type source symbol e = true <->
  entry_key e = (data_type, source, symbol).
Proof.
  unfold DataFetcher.same_key, entry_key.
  rewrite !andb_true_iff, !String.eqb_eq. split.
  - intros [[-> ->] ->]. reflexivity.
  - intros [= -> -> ->]. repeat split.
Qed.

Lemma same_key_false (data_type source symbol : string) (e : RiskDataCache.t) :
  DataFetcher.same_key data_type source symbol e = false <->
  entry_key e <> (data_type, source, symbol).
Proof.
  rewrite <- same_key_spec. destruct (DataFetcher.same_key _ _ _ _); split;
    congruence.
Qed.

Section CacheFacts.
Context (net : Net).

(** Looking the cache up never changes it. *)
Lemma get_cached_data_cache (data_type source symbol : string) (cache cache' : Cache)
    (x : result json) :
  DataFetcher._get_cached_data net data_type source symbol cache = (x, cache') ->
  cache' = cache.
Proof.
  unfold DataFetcher._get_cached_data.
  destruct (cache_health net); [destruct (List.find _ _) | |]; congruence.
Qed.


(** X14.  Insert and look up.  After a value has been cached under a key,
    a lookup of that key on a working database returns the value as long
    as the clock is before the entry's expiry (the time of writing plus
    CACHE_EXPIRY_HOURS) and returns nothing from the expiry on; lookups of
    any other key are not affected. *)
Theorem cache_round_trip (net' : Net) (data_type source symbol : string)
    (data : json) (cache cache' : Cache) :
  cache_health net = DbUp ->
  cache_health net' = DbUp ->
  DataFetcher._cache_data net data_type source symbol data cache = (Ok tt, cache') ->
  let expires := (now net + request_time net + hours (CACHE_EXPIRY_HOURS net))%Z in
  ((now net' < expires)%Z ->
   DataFetcher._get_cached_data net' data_type source symbol cache'
     = (Ok data, cache')) /\
  ((expires <= now net')%Z ->
   DataFetcher._get_cached_data net' data_type source symbol cache'
     = (Ok JNull, cache')) /\
  (forall data_type' source' symbol',
     (data_type', source', symbol') <> (data_type, source, symbol) ->
     (DataFetcher._get_cached_data net' data_type' source' symbol' cache').1
     = (DataFetcher._get_cached_data net' data_type' source' symbol' cache).1).
Proof.
  intros Hup Hup' Ec expires. unfold DataFetcher._cache_data in Ec.
  rewrite Hup in Ec. apply pair_equal_spec in Ec. destruct Ec as [_ <-].
  unfold DataFetcher._get_cached_data. rewrite Hup'.
  set (new := {| RiskDataCache.data_type := data_type |}).
  assert (List.find
            (fun e => DataFetcher.same_key data_type source symbol e
                      && (now net' <? RiskDataCache.expires_at e)%Z)
            (List.filter
               (fun e => negb (DataFetcher.same_key data_type source symbol e))
               cache) = None) as Hnone.
  { apply find_none_all. intros e He. apply List.filter_In in He.
    destruct He as [_ He]. apply negb_true_iff in He. rewrite He. reflexivity. }
  assert (DataFetcher.same_key data_type source symbol new = true) as Hnew.
  { apply same_key_spec. reflexivity. }
  split; [| split].
  - intros Hlt. rewrite find_app_first, Hnone. cbn [List.find].
    rewrite Hnew. cbn [andb RiskDataCache.expires_at new].
    fold expires. assert ((now net' <? expires)%Z = true) as -> by lia.
    reflexivity.
  - intros Hge. rewrite find_app_first, Hnone. cbn [List.find].
    rewrite Hnew. cbn [andb RiskDataCache.expires_at new].
    fold expires. assert ((now net' <? expires)%Z = false) as -> by lia.
    reflexivity.
  - intros dt' src' sym' Hne.
    assert (DataFetcher.same_key dt' src' sym' new = false) as Hother.
    { apply same_key_false. unfold entry_key, new. cbn. congruence. }
    rewrite find_app_first. cbn [List.find]. rewrite Hother. cbn [andb].
    rewrite find_filter_irrelevant.
    + destruct (List.find _ cache); reflexivity.
    + intros e He. apply negb_false_iff in He. apply same_key_spec in He.
      assert (DataFetcher.same_key dt' src' sym' e = false) as ->;
        [| reflexivity].
      apply same_key_false. congruence.
Qed.

End CacheFacts.

Section FetcherFacts.
Context (net : Net).

Lemma lookup_down (data_type source symbol : string) (cache : Cache) :
  cache_health net <> DbUp ->
  DataFetcher._get_cached_data net data_type source symbol cache
  = (Raise SQLAlchemyError, cache).
Proof.
  unfold DataFetcher._get_cached_data. destruct (cache_health net); congruence.
Qed.

Lemma lookup_up (data_type source symbol : string) (cache : Cache) :
  cache_health net = DbUp ->
  exists cached,
    DataFetcher._get_cached_data net data_type source symbol cache
    = (Ok cached, cache).
Proof.
  unfold DataFetcher._get_cached_data. intros ->.
  destruct (List.find _ _); eauto.
Qed.

(** Destruct the scrutinee of every match of a hypothesis, innermost
    first. *)
Ltac crack H :=
  repeat match type of H with
  | context [match ?x with _ => _ end] =>
      lazymatch x with
      | context [match _ with _ => _ end] => fail
      | _ => destruct x eqn:?
      end
  | context [if ?x then _ else _] =>
      lazymatch x with
      | context [match _ with _ => _ end] => fail
      | context [if _ then _ else _] => fail
      | _ => destruct x eqn:?
      end
  end.

Ltac unfold_fetch H :=
  cbn [fetch fetch_key fst snd] in *;
  unfold AlphaVantageFetcher.get_stock_quote,
    FREDFetcher.get_economic_indicator, SECFetcher.get_company_filings,
    NewsAPIFetcher.get_risk_news, BLSFetcher.get_employment_data in H;
  unfold mbind at 1 in H; unfold F_bind at 1 in H.

Ltac split_pair H :=
  apply pair_equal_spec in H; destruct H as [? ?]; subst.

(** The ways a fetcher call can end: the database error of the lookup,
    the cached value, nothing, or a fresh value that has been cached. *)
Lemma fetch_cases (f : Fetch) (cache cache' : Cache) (x : result json) :
  fetch net f cache = (x, cache') ->
  (cache_health net <> DbUp /\ x = Raise SQLAlchemyError /\ cache' = cache) \/
  (cache_health net = DbUp /\
   exists cached,
     DataFetcher._get_cached_data net (fetch_key f).1.1 (fetch_key f).1.2
       (fetch_key f).2 cache = (Ok cached, cache) /\
     ((truthy cached = true /\ x = Ok cached /\ cache' = cache) \/
      (truthy cached = false /\
       ((x = Ok JNull /\ cache' = cache) \/
        (exists data,
           x = Ok data /\
           DataFetcher._cache_data net (fetch_key f).1.1 (fetch_key f).1.2
             (fetch_key f).2 data cache = (Ok tt, cache')))))).
Proof.
  intros E. destruct (cache_health net) eqn:Hh.
  - right. split; [reflexivity |].
    destruct (lookup_up (fetch_key f).1.1 (fetch_key f).1.2 (fetch_key f).2 cache Hh)
      as [cached Ec].
    exists cached. split; [exact Ec |].
    destruct f; unfold_fetch E; rewrite Ec in E;
      (destruct (truthy cached);
        [unfold mret, F_ret in E; split_pair E; left; repeat split |]);
      right; (split; [reflexivity |]);
      try (destruct (no_key _);
           [unfold mret, F_ret in E; split_pair E; left; split; reflexivity |]);
      unfold try_or_none, mbind, F_bind, result_bind, liftF, mret, F_ret,
        DataFetcher._cache_data in E |- *; rewrite ?Hh in E |- *;
      crack E; split_pair E;
      repeat match goal with
      | Hx : (_, _) = (_, _) |- _ => split_pair Hx
      | Hx : Ok _ = Ok _ |- _ => apply Ok_inj in Hx; subst
      | Hx : Raise _ = Ok _ |- _ => discriminate Hx
      | Hx : Ok _ = Raise _ |- _ => discriminate Hx
      end;
      try (left; split; reflexivity);
      right; eexists; split; reflexivity.
  - left. destruct f; unfold_fetch E;
      rewrite lookup_down in E by congruence; split_pair E;
      repeat split; congruence.
  - left. destruct f; unfold_fetch E;
      rewrite lookup_down in E by congruence; split_pair E;
      repeat split; congruence.
Qed.


(** With nothing usable in the cache, a call whose web request raises, or
    that makes none for want of a key, returns [None] and leaves the cache
    alone. *)
Lemma fetch_web_failure (f : Fetch) (cache : Cache) (cached : json) :
  DataFetcher._get_cached_data net (fetch_key f).1.1 (fetch_key f).1.2
    (fetch_key f).2 cache = (Ok cached, cache) ->
  truthy cached = false ->
  (web_request net f = None \/ exists e, web_request net f = Some (Raise e)) ->
  fetch net f cache = (Ok JNull, cache).
Proof.
  intros Ec Ht Hw.
  destruct f; cbn [fetch fetch_key fst snd web_request] in *;
    unfold AlphaVantageFetcher.get_stock_quote,
      FREDFetcher.get_economic_indicator, SECFetcher.get_company_filings,
      NewsAPIFetcher.get_risk_news, BLSFetcher.get_employment_data;
    unfold mbind at 1; unfold F_bind at 1; rewrite Ec, Ht;
    try (destruct (no_key _); [reflexivity |]);
    destruct Hw as [Hw | [e Hw]]; try discriminate Hw;
    apply (f_equal (fun o => match o with Some r => r | None => Ok JNull end)) in Hw;
    cbv beta iota in Hw;
    unfold try_or_none, mbind, F_bind, liftF; cbv zeta; rewrite Hw; reflexivity.
Qed.

(** X15.  A fetcher call raises exactly when the cache cannot be read, and
    then the cache is as it was.  When the cache can be read the call
    returns a value, and a failure of its web request, whatever the
    exception, never reaches the caller: the call then returns the cached
    data that has not expired, if there is any, and [None] otherwise, and
    it leaves the cache alone.  The same holds when no request is made
    because the API key is not set. *)
Theorem fetch_raises_iff_database_down (f : Fetch) (cache : Cache) :
  (cache_health net <> DbUp ->
   fetch net f cache = (Raise SQLAlchemyError, cache)) /\
  (cache_health net = DbUp ->
   (exists value cache', fetch net f cache = (Ok value, cache')) /\
   ((web_request net f = None \/ exists e, web_request net f = Some (Raise e)) ->
    exists cached,
      DataFetcher._get_cached_data net (fetch_key f).1.1 (fetch_key f).1.2
        (fetch_key f).2 cache = (Ok cached, cache) /\
      fetch net f cache
        = (Ok (if truthy cached then cached else JNull), cache))).
Proof.
  split.
  - intros Hd. destruct (fetch net f cache) as [x cache'] eqn:E.
    apply fetch_cases in E.
    destruct E as [(_ & -> & ->) | (Hu & _)]; [reflexivity | contradiction].
  - intros Hu. split.
    + destruct (fetch net f cache) as [x cache'] eqn:E.
      apply fetch_cases in E.
      destruct E as [(Hd & _) | (_ & cached & _ & Hcases)]; [contradiction |].
      destruct Hcases as [(_ & -> & ->) | (_ & [[-> ->] | (data & -> & _)])]; eauto.
    + intros Hw.
      destruct (lookup_up (fetch_key f).1.1 (fetch_key f).1.2 (fetch_key f).2
                  cache Hu) as [cached Ec].
      exists cached. split; [exact Ec |].
      destruct (truthy cached) eqn:Ht;
        [| apply (fetch_web_failure f cache cached Ec Ht Hw)].
      destruct (fetch net f cache) as [x cache'] eqn:E.
      apply fetch_cases in E.
      destruct E as [(Hd & _) | (_ & cached' & Ec' & Hcases)]; [contradiction |].
      rewrite Ec in Ec'. apply pair_equal_spec in Ec'. destruct Ec' as [Ec' _].
      apply Ok_inj in Ec'. subst cached'.
      destruct Hcases as [(_ & -> & ->) | (Hf & _)]; [reflexivity | congruence].
Qed.

(** Caching a value keeps the keys of the table distinct. *)
Lemma cache_data_unique (data_type source symbol : string) (data : json)
    (cache cache' : Cache) (x : result unit) :
  cache_unique cache ->
  DataFetcher._cache_data net data_type source symbol data cache = (x, cache') ->
  cache_unique cache'.
Proof.
  intros Hu. unfold DataFetcher._cache_data.
  destruct (cache_health net); intros E; split_pair E; try exact Hu.
  unfold cache_unique in *. rewrite map_app. cbn [map].
  apply NoDup_app. split; [| split].
  - induction cache as [| e cache IH]; cbn; [constructor |].
    apply NoDup_cons in Hu. destruct Hu as [Hn Hu].
    destruct (negb _); cbn; [| apply IH, Hu].
    apply NoDup_cons. split; [| apply IH, Hu].
    intros Hin. apply Hn. apply list_elem_of_In in Hin. apply list_elem_of_In.
    apply in_map_iff in Hin. destruct Hin as (e0 & He0 & Hin).
    apply List.filter_In in Hin. apply in_map_iff. exists e0. tauto.
  - intros k Hk Hnew. apply list_elem_of_In in Hk.
    apply in_map_iff in Hk. destruct Hk as (e0 & He0 & Hin).
    apply List.filter_In in Hin. destruct Hin as [_ Hin].
    apply negb_true_iff, same_key_false in Hin.
    apply list_elem_of_In in Hnew. cbn in Hnew. destruct Hnew as [Hnew | []].
    apply Hin. rewrite He0, <- Hnew. reflexivity.
  - apply NoDup_singleton.
Qed.

(** X16.  The cache never holds two entries for one key: if the keys of
    the table are distinct before a fetcher call, they are distinct after
    it, whatever the call returns. *)
Theorem fetch_keeps_keys_distinct (f : Fetch) (cache cache' : Cache)
    (x : result json) :
  cache_unique cache ->
  fetch net f cache = (x, cache') ->
  cache_unique cache'.
Proof.
  intros Hu E. apply fetch_cases in E.
  destruct E as [(_ & _ & ->) | (_ & cached & _ & [(_ & _ & ->) |
    (_ & [[_ ->] | (data & _ & Ec)])])]; try exact Hu.
  eapply cache_data_unique; [exact Hu | exact Ec].
Qed.

End FetcherFacts.



Lemma stale_cache_unique : cache_unique stale_cache.
Proof.
  unfold cache_unique, stale_cache. cbn [map entry_key RiskDataCache.data_type
    RiskDataCache.source RiskDataCache.symbol].
  apply NoDup_cons. split.
  - intros Hin. apply list_elem_of_In in Hin. destruct Hin as [Hin | []].
    discriminate Hin.
  - apply NoDup_singleton.
Qed.

Lemma cache_round_trip_witness :
  DataFetcher._get_cached_data (quote_net 1000) "market" "alpha_vantage" "SPY"
    (DataFetcher._cache_data (quote_net 0) "market" "alpha_vantage" "SPY"
       quote_response stale_cache).2
  = (Ok quote_response,
     (DataFetcher._cache_data (quote_net 0) "market" "alpha_vantage" "SPY"
        quote_response stale_cache).2).
Proof.
  refine (proj1 (cache_round_trip (quote_net 0) (quote_net 1000)
                   "market" "alpha_vantage" "SPY" quote_response stale_cache _
                   eq_refl eq_refl eq_refl) _).
  reflexivity.
Defined.

Lemma fetch_raises_iff_database_down_witness :
  fetch (down_net 0) (StockQuote (Some "demo") "SPY") stale_cache
    = (Raise SQLAlchemyError, stale_cache) /\
  fetch (quote_net 0) (EmploymentData "LNS14000000") stale_cache
    = (Ok JNull, stale_cache).
Proof.
  split.
  - refine (proj1 (fetch_raises_iff_database_down (down_net 0)
                     (StockQuote (Some "demo") "SPY") stale_cache) _).
    discriminate.
  - destruct (proj2 (proj2 (fetch_raises_iff_database_down (quote_net 0)
                              (EmploymentData "LNS14000000") stale_cache)
                       eq_refl))
      as (cached & Ec & Ef).
    + right. exists ValueError. reflexivity.
    + rewrite Ef. apply pair_equal_spec in Ec. destruct Ec as [Ec _].
      apply Ok_inj in Ec. subst cached. reflexivity.
Defined.

Lemma fetch_keeps_keys_distinct_witness :
  cache_unique
    (fetch (quote_net 0) (StockQuote (Some "demo") "SPY") stale_cache).2.
Proof.
  refine (fetch_keeps_keys_distinct (quote_net 0)
            (StockQuote (Some "demo") "SPY") stale_cache _
            (fetch (quote_net 0) (StockQuote (Some "demo") "SPY") stale_cache).1
            stale_cache_unique _).
  vm_compute. reflexivity.
Defined.


(* ===================================================================== *)
(** ** The calculator on the fetchers *)
(* ===================================================================== *)

Section OutageFacts.
Context `{Platform} (keys : ApiKeys) (net : Net) (cache : Cache)
  (db : DbHealth) (deviates : nat -> Q).

Lemma fetch_down (f : Fetch) :
  cache_health net <> DbUp -> (fetch net f cache).1 = Raise SQLAlchemyError.
Proof.
  intros Hd. destruct (fetch net f cache) as [x cache'] eqn:E.
  apply fetch_cases in E. destruct E as [(_ & -> & _) | (Hu & _)];
    [reflexivity | contradiction].
Qed.

Lemma outage_signals (c : Call) :
  cache_health net <> DbUp ->
  signals_of (calculator_env keys net cache db deviates) c = Raise SQLAlchemyError.
Proof.
  intros Hd.
  destruct c; cbn [signals_of];
    unfold market_signals, supply_chain_signals, regulatory_signals, hr_signals;
    cbn [calculator_env get_stock_quote get_risk_news get_company_filings
         get_employment_data];
    cbv zeta; rewrite (fetch_down _ Hd); reflexivity.
Qed.

Lemma outage_calculate (c : Call) (w : World) :
  cache_health net <> DbUp ->
  calculate (calculator_env keys net cache db deviates) c w
  = (Ok (_default_risk (category_of c)), w).
Proof.
  intros Hd. rewrite calculate_unfold, calculate_try_unfold, (outage_signals c Hd).
  reflexivity.
Qed.

(** X18.  A database outage reaches the scores through the cache: when the
    cache table cannot be read, every fetcher call raises, so each category
    calculation returns the default record with score 50.0 and stores
    nothing, whatever the web would answer and whether or not the score
    table could be written; [calculate_all_risks] then reports the four
    defaults and an overall risk of 50.0. *)
Theorem outage_gives_defaults (w : World) :
  cache_health net <> DbUp ->
  let env := calculator_env keys net cache db deviates in
  (forall c : Call,
     calculate env c w = (Ok (_default_risk (category_of c)), w)) /\
  exists r : Radar.t,
    calculate_all_risks env w = (Ok r, w) /\
    Radar.market_risk r = _default_risk "market" /\
    Radar.supply_chain_risk r = _default_risk "supply_chain" /\
    Radar.regulatory_risk r = _default_risk "regulatory" /\
    Radar.hr_risk r = _default_risk "hr" /\
    Radar.overall_risk r == 50.
Proof.
  intros Hd env. split; [intros c; apply outage_calculate, Hd |].
  unfold calculate_all_risks, mbind, M_bind.
  change (calculate_market_risk env "SPY" w)
    with (calculate env (MarketCall "SPY") w).
  unfold env at 1. rewrite (outage_calculate _ w Hd).
  change (calculate_supply_chain_risk env w) with (calculate env SupplyChainCall w).
  unfold env at 1. rewrite (outage_calculate _ w Hd).
  change (calculate_regulatory_risk env "0000789019" w)
    with (calculate env (RegulatoryCall "0000789019") w).
  unfold env at 1. rewrite (outage_calculate _ w Hd).
  change (calculate_hr_risk env w) with (calculate env HrCall w).
  unfold env at 1. rewrite (outage_calculate _ w Hd).
  eexists. split; [reflexivity |]. cbn [Radar.market_risk Radar.supply_chain_risk
    Radar.regulatory_risk Radar.hr_risk Radar.overall_risk category_of].
  repeat (split; [reflexivity |]).
  vm_compute. reflexivity.
Qed.

End OutageFacts.

Lemma outage_gives_defaults_witness :
  calculate (H := reference_platform)
    (calculator_env no_keys (down_net 0) stale_cache DbUp (gauss quiet_env))
    HrCall two_scores_world
  = (Ok (_default_risk "hr"), two_scores_world).
Proof.
  refine (proj1 (outage_gives_defaults (H := reference_platform) no_keys
                   (down_net 0) stale_cache DbUp (gauss quiet_env)
                   two_scores_world _) HrCall).
  discriminate.
Defined.

(* ===================================================================== *)
(** ** The endpoints *)
(* ===================================================================== *)

Lemma str_in_In (x : string) (l : list string) : str_in x l = true <-> In x l.
Proof.
  unfold str_in. rewrite existsb_exists. split.
  - intros (y & Hy & E). apply String.eqb_eq in E. subst y. exact Hy.
  - intros Hx. exists x. split; [exact Hx | apply String.eqb_refl].
Qed.

Lemma str_in_not_In (x : string) (l : list string) :
  str_in x l = false <-> ~ In x l.
Proof.
  rewrite <- str_in_In. destruct (str_in x l); split; congruence.
Qed.

Lemma Qle_bool_range (x : Q) :
  0 <= x -> x <= 100 -> (0 <=? x) && (x <=? 100) = true.
Proof.
  intros H0 H100. apply andb_true_iff. split; apply Qle_bool_iff; assumption.
Qed.

Section ApiFacts.
Context `{Platform} (env : Env).

Lemma risk_dispatch_valid (category : string) :
  In category valid_categories ->
  exists c, risk_dispatch category = Some c /\ category_of c = category.
Proof.
  intros [<- | [<- | [<- | [<- | []]]]]; eexists; split; reflexivity.
Qed.

Lemma calculate_category (c : Call) (w w' : World) (r : Risk.t) :
  calculate env c w = (Ok r, w') -> Risk.category r = category_of c.
Proof.
  intros E. destruct (calculate_cases env c w) as (r0 & w0 & E0 & Hr).
  rewrite E in E0. apply pair_equal_spec in E0. destruct E0 as [E0 _].
  apply Ok_inj in E0. subst r0.
  destruct Hr as [-> | (score & raw_data & _ & ->)]; reflexivity.
Qed.

(** X19.  GET /{category} answers 400, and calculates nothing, exactly
    when the category is none of the four; for each of the four it answers
    200 with the record of that category's calculation, whose score passes
    the response model's bounds 0 <= score <= 100: the endpoint never
    answers 500. *)
Theorem risk_category_endpoint (category : string) (w : World) :
  (~ In category valid_categories ->
   get_risk_category env category w = (HTTPException 400, w)) /\
  (In category valid_categories ->
   exists c r w',
     risk_dispatch category = Some c /\
     calculate env c w = (Ok r, w') /\
     get_risk_category env category w = (Http200 r, w') /\
     Risk.category r = category /\
     0 <= Risk.score r /\ Risk.score r <= 100).
Proof.
  unfold get_risk_category. split; intros Hc.
  - apply str_in_not_In in Hc. rewrite Hc. reflexivity.
  - destruct (risk_dispatch_valid category Hc) as (c & Ed & Ecat).
    apply str_in_In in Hc. rewrite Hc, Ed. cbn [negb].
    destruct (calculate_total env c w) as (r & w' & E).
    destruct (calculate_score_bounds env c w w' r E) as [H0 H100].
    exists c, r, w'. split; [reflexivity |]. split; [exact E |].
    split; [| split; [| split; assumption]].
    + unfold or_500, response_model, RiskScoreResponse.validate.
      rewrite E, (Qle_bool_range _ H0 H100). reflexivity.
    + rewrite <- Ecat. eapply calculate_category, E.
Qed.

Lemma calculate_all_risks_total (w : World) :
  exists r w', calculate_all_risks env w = (Ok r, w').
Proof.
  unfold calculate_all_risks, mbind, M_bind.
  destruct (calculate_total env (MarketCall "SPY") w) as (m & w1 & Em).
  destruct (calculate_total env SupplyChainCall w1) as (s & w2 & Es).
  destruct (calculate_total env (RegulatoryCall "0000789019") w2) as (g & w3 & Eg).
  destruct (calculate_total env HrCall w3) as (h & w4 & Eh).
  cbn [calculate] in Em, Es, Eg, Eh. rewrite Em, Es, Eg, Eh.
  eexists; eexists; reflexivity.
Qed.

(** X20.  GET /radar never answers 500: [calculate_all_risks] always
    returns, the four scores and the overall risk of what it returns lie
    in [0, 100], so the body passes the response model and is sent as it
    is. *)
Theorem risk_radar_endpoint (w : World) :
  exists r w',
    calculate_all_risks env w = (Ok r, w') /\
    get_risk_radar env w = (Http200 r, w') /\
    RiskRadarResponse.validate r = true /\
    0 <= Radar.overall_risk r /\ Radar.overall_risk r <= 100.
Proof.
  destruct (calculate_all_risks_total w) as (r & w' & E).
  exists r, w'. split; [exact E |].
  pose proof E as Einv. apply calculate_all_risks_inv in Einv.
  destruct Einv as (w1 & w2 & w3 & Em & Es & Eg & Eh & Eo).
  apply calculate_score_bounds in Em, Es, Eg, Eh.
  assert (0 <= Radar.overall_risk r /\ Radar.overall_risk r <= 100) as Ho.
  { rewrite Eo. apply py_round2_range; lra. }
  assert (RiskRadarResponse.validate r = true) as Hv.
  { unfold RiskRadarResponse.validate, RiskScoreResponse.validate.
    rewrite !Qle_bool_range by tauto.
    destruct Ho as [Ho1 Ho2]. apply Qle_bool_iff in Ho1, Ho2.
    rewrite Ho1, Ho2. reflexivity. }
  split; [| split; [exact Hv | exact Ho]].
  unfold get_risk_radar, or_500, response_model. rewrite E, Hv. reflexivity.
Qed.

Lemma run_simulation_try_ok (risk_category : string) (iterations : Z)
    (use_cached_data : bool) (w : World) :
  (0 < iterations)%Z -> db_health env <> DbNoSession ->
  exists r w',
    run_simulation_try env risk_category iterations use_cached_data w = (Ok r, w').
Proof.
  intros Hn Hdb. rewrite run_simulation_try_unfold.
  destruct (fetch_history _ _ _ _) as [[hs | e] w1] eqn:Ef.
  - apply simulate_ok; try assumption.
    pose proof (draw_parameters_std hs). lra.
  - exfalso. unfold fetch_history, _get_historical_scores, mret, M_ret in Ef.
    destruct use_cached_data; [destruct (db_health env) |]; congruence.
Qed.

Lemma run_simulation_try_inv (risk_category : string) (iterations : Z)
    (use_cached_data : bool) (w w' : World) (r : Simulation.t) :
  run_simulation_try env risk_category iterations use_cached_data w = (Ok r, w') ->
  db_health env <> DbNoSession /\
  Simulation.risk_category r = risk_category /\
  Simulation.iterations r = iterations.
Proof.
  rewrite run_simulation_try_unfold.
  destruct (fetch_history _ _ _ _) as [[hs | e] w1] eqn:Ef; [| discriminate].
  intros E. pose proof E as Ei. apply simulate_inv in Ei.
  destruct Ei as (_ & Hc & Hi & _).
  apply simulate_world in E. destruct E as (_ & _ & [[Hd _] | [Hd _]]);
    (split; [congruence | split; assumption]).
Qed.

(** X21.  POST /simulate, for a request that passes the request model
    (100 <= iterations <= 100000): it answers 400, and runs nothing, exactly
    when the category is none of the four; otherwise it answers 200, never
    500, with the request's category and iterations; the body is the
    result of the [try] block of [run_simulation] whenever the database
    opens a session, and the fallback result only when it does not. *)
Theorem simulate_endpoint (request : MonteCarloRequest.t) (w : World) :
  MonteCarloRequest.validate request = true ->
  let risk_category := MonteCarloRequest.risk_category request in
  let iterations := MonteCarloRequest.iterations request in
  let use_cached_data := MonteCarloRequest.use_cached_data request in
  (~ In risk_category valid_categories ->
   run_monte_carlo env request w = (HTTPException 400, w)) /\
  (In risk_category valid_categories ->
   exists r w',
     run_monte_carlo env request w = (Http200 r, w') /\
     Simulation.risk_category r = risk_category /\
     Simulation.iterations r = iterations /\
     (db_health env <> DbNoSession ->
      run_simulation_try env risk_category iterations use_cached_data w
        = (Ok r, w')) /\
     (db_health env = DbNoSession -> r = default_result risk_category iterations)).
Proof.
  intros Hv risk_category iterations use_cached_data.
  unfold MonteCarloRequest.validate in Hv. apply andb_true_iff in Hv.
  fold iterations in Hv. destruct Hv as [Hlo Hhi].
  apply Z.leb_le in Hlo. unfold run_monte_carlo. fold risk_category iterations
    use_cached_data. split; intros Hc.
  - apply str_in_not_In in Hc. rewrite Hc. reflexivity.
  - apply str_in_In in Hc. rewrite Hc. cbn [negb]. unfold or_500.
    rewrite run_simulation_unfold.
    destruct (run_simulation_try env risk_category iterations use_cached_data w)
      as [[r | e] w'] eqn:E.
    + apply run_simulation_try_inv in E as Hi. destruct Hi as (Hdb & Hcat & Hit).
      exists r, w'. repeat split; try assumption; try reflexivity.
      intros Hno. contradiction.
    + exists (default_result risk_category iterations), w'.
      repeat split; try reflexivity.
      intros Hdb.
      destruct (run_simulation_try_ok risk_category iterations use_cached_data w)
        as (r0 & w0 & E0); [lia | exact Hdb |]. congruence.
Qed.

Lemma default_scenarios_ok (w : World) :
  exists results w', scenario_loop env default_scenarios ∅ w = (Ok results, w').
Proof.
  unfold default_scenarios.
  destruct (scenario_step env "optimistic"
              (<["std"%string := 5]> {[ "mean"%string := 30 ]})
              [ ("baseline"%string, <["std"%string := 10]> {[ "mean"%string := 50 ]});
                ("pessimistic"%string, <["std"%string := 15]> {[ "mean"%string := 70 ]}) ]
              ∅ 30 5 w) as (d1 & _ & ->); [reflexivity .. |].
  destruct (scenario_step env "baseline"
              (<["std"%string := 10]> {[ "mean"%string := 50 ]})
              [ ("pessimistic"%string, <["std"%string := 15]> {[ "mean"%string := 70 ]}) ]
              (<["optimistic"%string := d1]> ∅) 50 10
              (advance w (Z.to_nat 5000))) as (d2 & _ & ->);
    [reflexivity .. |].
  destruct (scenario_step env "pessimistic"
              (<["std"%string := 15]> {[ "mean"%string := 70 ]}) []
              (<["baseline"%string := d2]> (<["optimistic"%string := d1]> ∅))
              70 15 (advance (advance w (Z.to_nat 5000)) (Z.to_nat 5000)))
    as (d3 & _ & ->); [reflexivity .. |].
  cbn [scenario_loop]. unfold mret, M_ret.
  eexists; eexists; reflexivity.
Qed.

(** X22.  GET /scenarios/{category} answers 400, and draws nothing,
    exactly when the category is none of the four; otherwise it answers
    200, never 500, with the category and an entry for exactly the labels
    optimistic, baseline and pessimistic, having drawn 15000 deviates and
    written nothing to the database. *)
Theorem scenarios_endpoint (category : string) (w : World) :
  (~ In category valid_categories ->
   get_scenarios env category w = (HTTPException 400, w)) /\
  (In category valid_categories ->
   exists r w',
     get_scenarios env category w = (Http200 r, w') /\
     Scenarios.risk_category r = category /\
     (forall name,
        is_Some (Scenarios.scenarios r !! name) <->
        In name ["optimistic"; "baseline"; "pessimistic"]%string) /\
     risk_scores w' = risk_scores w /\
     monte_carlo_results w' = monte_carlo_results w /\
     rng_pos w' = (rng_pos w + 3 * Z.to_nat 5000)%nat).
Proof.
  unfold get_scenarios. split; intros Hc.
  - apply str_in_not_In in Hc. rewrite Hc. reflexivity.
  - apply str_in_In in Hc. rewrite Hc. cbn [negb].
    unfold or_500, run_multiple_scenarios, mbind, M_bind.
    destruct (default_scenarios_ok w) as (results & w' & E). rewrite E.
    unfold mret, M_ret. eexists; eexists. split; [reflexivity |].
    cbn [Scenarios.risk_category Scenarios.scenarios].
    split; [reflexivity |].
    pose proof (scenario_loop_tables env _ _ _ _ _ E) as [Hr Hm].
    apply scenario_loop_results in E. destruct E as (Hp & Hdom & _).
    split; [| split; [exact Hr | split; [exact Hm |]]].
    + intros name. rewrite Hdom. rewrite lookup_empty. split.
      * intros [[x Hx] | Hin]; [discriminate Hx | exact Hin].
      * intros Hin. right. exact Hin.
    + rewrite Hp. unfold default_scenarios. cbn [length]. lia.
Qed.

End ApiFacts.

Lemma simulate_endpoint_witness :
  exists r w',
    run_monte_carlo (H := reference_platform) quiet_env
      {| MonteCarloRequest.risk_category := "market";
         MonteCarloRequest.iterations := 100;
         MonteCarloRequest.use_cached_data := true |} two_scores_world
      = (Http200 r, w') /\
    Simulation.risk_category r = "market"%string /\
    Simulation.iterations r = 100%Z.
Proof.
  destruct (proj2 (simulate_endpoint (H := reference_platform) quiet_env
                     {| MonteCarloRequest.risk_category := "market";
                        MonteCarloRequest.iterations := 100;
                        MonteCarloRequest.use_cached_data := true |}
                     two_scores_world eq_refl))
    as (r & w' & E & Hc & Hi & _).
  - left. reflexivity.
  - exists r, w'. split; [exact E | split; [exact Hc | exact Hi]].
Defined.

Lemma risk_category_endpoint_witness :
  get_risk_category (H := reference_platform) quiet_env "weather" two_scores_world
    = (HTTPException 400, two_scores_world) /\
  exists c r w',
    risk_dispatch "hr" = Some c /\
    calculate (H := reference_platform) quiet_env c two_scores_world = (Ok r, w') /\
    get_risk_category (H := reference_platform) quiet_env "hr" two_scores_world
      = (Http200 r, w') /\
    Risk.category r = "hr"%string /\
    0 <= Risk.score r /\ Risk.score r <= 100.
Proof.
  split.
  - refine (proj1 (risk_category_endpoint (H := reference_platform) quiet_env
                     "weather" two_scores_world) _).
    intros [E | [E | [E | [E | []]]]]; discriminate E.
  - refine (proj2 (risk_category_endpoint (H := reference_platform) quiet_env
                     "hr" two_scores_world) _).
    right. right. right. left. reflexivity.
Defined.

Lemma scenarios_endpoint_witness :
  get_scenarios (H := reference_platform) quiet_env "weather" empty_world
    = (HTTPException 400, empty_world).
Proof.
  refine (proj1 (scenarios_endpoint (H := reference_platform) quiet_env
                   "weather" empty_world) _).
  intros [E | [E | [E | [E | []]]]]; discriminate E.
Defined.

(* ===================================================================== *)
(** ** The data refresh *)
(* ===================================================================== *)

Section RefreshFacts.
Context `{Platform} (env : Env).

(** One turn of the refresh loop never raises; it stores at most one risk
    score, and none for a name that is not a category. *)
Lemma refresh_one_cases (data_type : string) (w : World) :
  exists w' rows,
    refresh_one env data_type w = (Ok tt, w') /\
    risk_scores w' = rows ++ risk_scores w /\
    (length rows <= if str_in data_type valid_categories then 1 else 0)%nat /\
    monte_carlo_results w' = monte_carlo_results w /\
    rng_pos w' = rng_pos w.
Proof.
  assert (forall c, str_in data_type valid_categories = true ->
            exists w' rows,
              (_ ← calculate env c; mret tt) w = (Ok tt, w') /\
              risk_scores w' = rows ++ risk_scores w /\
              (length rows
               <= if str_in data_type valid_categories then 1 else 0)%nat /\
              monte_carlo_results w' = monte_carlo_results w /\
              rng_pos w' = rng_pos w) as Hcalc.
  { intros c ->. unfold mbind, M_bind.
    destruct (calculate_total env c w) as (r & w' & E). rewrite E.
    apply calculate_world in E.
    destruct E as [-> | (score & raw_data & ->)].
    - exists w, []. repeat split. cbn. lia.
    - eexists. exists [ {| RiskScore.risk_category := category_of c;
                           RiskScore.score := py_max 0 (py_min 100 score);
                           RiskScore.raw_data := raw_data |} ].
      split; [reflexivity |]. cbn. repeat split. lia. }
  unfold refresh_one.
  destruct (String.eqb data_type "market") eqn:E1.
  { apply String.eqb_eq in E1. subst. apply (Hcalc (MarketCall "SPY")).
    reflexivity. }
  destruct (String.eqb data_type "supply_chain") eqn:E2.
  { apply String.eqb_eq in E2. subst. apply (Hcalc SupplyChainCall).
    reflexivity. }
  destruct (String.eqb data_type "regulatory") eqn:E3.
  { apply String.eqb_eq in E3. subst. apply (Hcalc (RegulatoryCall "0000789019")).
    reflexivity. }
  destruct (String.eqb data_type "hr") eqn:E4.
  { apply String.eqb_eq in E4. subst. apply (Hcalc HrCall). reflexivity. }
  exists w, []. repeat split. cbn. lia.
Qed.

Lemma refresh_loop_spec (data_types refreshed : list string) (w : World) :
  exists w' rows,
    refresh_loop env data_types refreshed w = (Ok (refreshed ++ data_types), w') /\
    risk_scores w' = rows ++ risk_scores w /\
    (length rows
     <= length (List.filter (fun d => str_in d valid_categories) data_types))%nat /\
    monte_carlo_results w' = monte_carlo_results w /\
    rng_pos w' = rng_pos w.
Proof.
  revert refreshed w. induction data_types as [| d rest IH]; intros refreshed w.
  - exists w, []. cbn. rewrite app_nil_r. repeat split. lia.
  - cbn [refresh_loop].
    destruct (refresh_one_cases d w) as (w1 & rows1 & -> & Hr1 & Hl1 & Hm1 & Hp1).
    destruct (IH (refreshed ++ [d]) w1) as (w' & rows & -> & Hr & Hl & Hm & Hp).
    exists w', (rows ++ rows1). rewrite <- app_assoc. split; [reflexivity |].
    split; [rewrite Hr, Hr1, app_assoc; reflexivity |].
    split; [| split; congruence].
    rewrite length_app. cbn [List.filter].
    destruct (str_in d valid_categories); cbn [length]; lia.
Qed.

(** X23.  [refresh_data_background] returns the list it was asked for, the
    four categories when it was given none: a name that is not a category
    is reported as refreshed although nothing is calculated for it, and a
    category whose calculation fell back to the default is reported like
    any other.  The task adds at most one row to the risk-score table per
    category name in the list, and it leaves the Monte Carlo table and the
    random generator as they were.  (The cache table, which the fetchers
    called by the calculations rewrite, is not part of this statement.) *)
Theorem refresh_reports_every_type (data_types : option (list string))
    (w : World) :
  let requested := default valid_categories data_types in
  exists w' rows,
    refresh_data_background env data_types w = (Ok requested, w') /\
    risk_scores w' = rows ++ risk_scores w /\
    (length rows
     <= length (List.filter (fun d => str_in d valid_categories) requested))%nat /\
    monte_carlo_results w' = monte_carlo_results w /\
    rng_pos w' = rng_pos w.
Proof.
  intros requested.
  assert (refresh_data_background env data_types w
          = match refresh_loop env requested [] w with
            | (Ok a, w') => (Ok a, w')
            | (Raise _, w') => (Ok [], w')
            end) as ->.
  { destruct data_types; reflexivity. }
  destruct (refresh_loop_spec requested [] w) as (w' & rows & E & Hrest).
  exists w', rows. split; [| exact Hrest]. rewrite E. reflexivity.
Qed.

(** X24.  POST /refresh always answers 200 with [success] true, before
    anything is calculated.  The types it lists as refreshed are the types
    of the request when it names some, and the four categories market,
    supply_chain, regulatory and hr when it names none or an empty list;
    and they are exactly what the background task it queues returns when it
    runs, in whatever state of the database. *)
Theorem refresh_response_matches_task (request_data_types : option (list string))
    (w : World) :
  exists body w',
    refresh_data request_data_types
      = (Http200 body, DataRefreshResponse.refreshed_types body) /\
    DataRefreshResponse.success body = true /\
    (forall data_types,
       request_data_types = Some data_types -> data_types <> [] ->
       DataRefreshResponse.refreshed_types body = data_types) /\
    (request_data_types = None \/ request_data_types = Some [] ->
     DataRefreshResponse.refreshed_types body
       = ["market"; "supply_chain"; "regulatory"; "hr"]%string) /\
    refresh_data_background env
      (Some (DataRefreshResponse.refreshed_types body)) w
      = (Ok (DataRefreshResponse.refreshed_types body), w').
Proof.
  unfold refresh_data.
  set (data_types :=
         match request_data_types with
         | Some (data_type :: data_types') => data_type :: data_types'
         | _ => ["market"; "supply_chain"; "regulatory"; "hr"]%string
         end).
  destruct (refresh_loop_spec data_types [] w) as (w' & rows & E & _).
  exists {| DataRefreshResponse.refreshed_types := data_types;
            DataRefreshResponse.success := true;
            DataRefreshResponse.message := "Data refresh initiated in background" |},
    w'.
  split; [reflexivity |].
  cbn [DataRefreshResponse.success DataRefreshResponse.refreshed_types].
  split; [reflexivity |]. split; [| split].
  - intros l -> Hl. unfold data_types. destruct l; [contradiction | reflexivity].
  - intros [-> | ->]; reflexivity.
  - unfold refresh_data_background, try_except. cbv zeta. rewrite E. reflexivity.
Qed.

End RefreshFacts.

(* ===================================================================== *)
(** ** The status of the cache *)
(* ===================================================================== *)

Lemma status_loop_lookup (clock : nat -> Z) (cache : Cache) (k : nat)
    (status : gmap string DataStatus.t) (data_type : string) :
  status_loop clock k cache status !! data_type
  = status_of clock k data_type cache (status !! data_type).
Proof.
  revert k status. induction cache as [| entry rest IH]; intros k status;
    [reflexivity |].
  cbn [status_loop status_of]. cbv zeta. rewrite IH. f_equal.
  destruct (String.eqb (RiskDataCache.data_type entry) data_type) eqn:E.
  - apply String.eqb_eq in E. subst data_type. rewrite lookup_alter_eq.
    destruct (status !! RiskDataCache.data_type entry) as [s |] eqn:Es.
    + rewrite Es. reflexivity.
    + rewrite lookup_insert_eq. reflexivity.
  - apply String.eqb_neq in E. rewrite lookup_alter_ne by exact E.
    destruct (status !! RiskDataCache.data_type entry);
      [reflexivity | rewrite lookup_insert_ne by exact E; reflexivity].
Qed.

Lemma status_step_total (utcnow : Z) (entry : RiskDataCache.t) (s : DataStatus.t) :
  DataStatus.total_entries (status_step utcnow entry s)
  = (DataStatus.total_entries s + 1)%nat.
Proof.
  unfold status_step. cbv zeta.
  destruct (_ <? _)%Z; cbn [DataStatus.sources]; destruct (str_in _ _);
    reflexivity.
Qed.

Lemma status_step_expired (utcnow : Z) (entry : RiskDataCache.t) (s : DataStatus.t) :
  DataStatus.expired_entries (status_step utcnow entry s)
  = (DataStatus.expired_entries s
     + if (RiskDataCache.expires_at entry <? utcnow)%Z then 1 else 0)%nat.
Proof.
  unfold status_step. cbv zeta.
  destruct (_ <? _)%Z; cbn [DataStatus.sources]; destruct (str_in _ _);
    cbn [negb DataStatus.expired_entries]; lia.
Qed.

Lemma status_step_sources (utcnow : Z) (entry : RiskDataCache.t) (s : DataStatus.t) :
  DataStatus.sources (status_step utcnow entry s)
  = if str_in (RiskDataCache.source entry) (DataStatus.sources s)
    then DataStatus.sources s
    else DataStatus.sources s ++ [RiskDataCache.source entry].
Proof.
  unfold status_step. cbv zeta.
  destruct (_ <? _)%Z; cbn [DataStatus.sources]; destruct (str_in _ _);
    reflexivity.
Qed.

Lemma expired_before_mono (t0 t1 : Z) (cache : Cache) :
  (t0 <= t1)%Z -> (expired_before t0 cache <= expired_before t1 cache)%nat.
Proof.
  intros Ht. unfold expired_before. induction cache as [| e rest IH];
    cbn [List.filter]; [lia |].
  destruct (RiskDataCache.expires_at e <? t0)%Z eqn:E0;
    destruct (RiskDataCache.expires_at e <? t1)%Z eqn:E1; cbn [length]; lia.
Qed.

Lemma expired_before_le_length (t : Z) (cache : Cache) :
  (expired_before t cache <= length cache)%nat.
Proof. apply List.filter_length_le. Qed.

Section StatusFacts.
Context (clock : nat -> Z) (t0 t1 : Z).
Hypothesis clock_range : forall k, (t0 <= clock k <= t1)%Z.

Lemma status_of_spec (data_type : string) (cache : Cache) (k : nat)
    (s : option DataStatus.t) :
  let s0 := default {| DataStatus.sources := [];
                       DataStatus.total_entries := 0;
                       DataStatus.expired_entries := 0 |} s in
  let entries := entries_of data_type cache in
  match status_of clock k data_type cache s with
  | None => s = None /\ entries = []
  | Some r =>
      (is_Some s \/ entries <> []) /\
      DataStatus.total_entries r
        = (DataStatus.total_entries s0 + length entries)%nat /\
      (DataStatus.expired_entries s0 + expired_before t0 entries
       <= DataStatus.expired_entries r)%nat /\
      (DataStatus.expired_entries r
       <= DataStatus.expired_entries s0 + expired_before t1 entries)%nat /\
      (NoDup (DataStatus.sources s0) -> NoDup (DataStatus.sources r)) /\
      (forall src,
         In src (DataStatus.sources r) <->
         In src (DataStatus.sources s0) \/
         exists e, In e entries /\ RiskDataCache.source e = src)
  end.
Proof.
  revert k s. induction cache as [| entry rest IH]; intros k s; cbv zeta.
  - cbn [status_of entries_of List.filter]. destruct s as [r |]; cbn [default].
    + split; [left; eauto |]. unfold expired_before. cbn.
      repeat split; try lia; try tauto.
      intros [Hs | (e & [] & _)]. exact Hs.
    + split; reflexivity.
  - cbn [status_of]. unfold entries_of. cbn [List.filter]. fold (entries_of data_type rest).
    destruct (String.eqb (RiskDataCache.data_type entry) data_type) eqn:E.
    + set (s0 := default _ s).
      specialize (IH (S k) (Some (status_step (clock k) entry s0))).
      cbv zeta in IH. cbn [default] in IH.
      destruct (status_of clock (S k) data_type rest _) as [r |];
        [| destruct IH as [IH _]; discriminate IH].
      destruct IH as (_ & Ht & Hlo & Hhi & Hnd & Hsrc).
      unfold id in Ht, Hlo, Hhi, Hnd, Hsrc.
      rewrite status_step_total in Ht.
      rewrite status_step_expired in Hlo, Hhi.
      rewrite status_step_sources in Hnd, Hsrc.
      pose proof (clock_range k) as Hk.
      split; [right; discriminate |].
      split; [cbn [length]; lia |].
      unfold expired_before in *. cbn [List.filter].
      split; [| split; [| split]].
      * destruct (RiskDataCache.expires_at entry <? t0)%Z eqn:E0;
          destruct (RiskDataCache.expires_at entry <? clock k)%Z eqn:Ek;
          cbn [length]; lia.
      * destruct (RiskDataCache.expires_at entry <? t1)%Z eqn:E1;
          destruct (RiskDataCache.expires_at entry <? clock k)%Z eqn:Ek;
          cbn [length]; lia.
      * intros Hn0. apply Hnd.
        destruct (str_in _ _) eqn:Ein; [exact Hn0 |].
        apply str_in_not_In in Ein.
        apply NoDup_app. split; [exact Hn0 |]. split; [| apply NoDup_singleton].
        intros x Hx Hx'. apply list_elem_of_In in Hx, Hx'.
        destruct Hx' as [<- | []]. contradiction.
      * intros src. rewrite Hsrc. split.
        -- intros [Hin | (e & He & Hes)].
           ++ destruct (str_in _ _) eqn:Ein; [left; exact Hin |].
              apply in_app_iff in Hin. destruct Hin as [Hin | [<- | []]];
                [left; exact Hin |].
              right. exists entry. split; [left |]; reflexivity.
           ++ right. exists e. split; [right; exact He | exact Hes].
        -- intros [Hin | (e & [<- | He] & Hes)].
           ++ left. destruct (str_in _ _); [exact Hin |].
              apply in_app_iff. left. exact Hin.
           ++ left. destruct (str_in _ _) eqn:Ein.
              ** apply str_in_In in Ein. rewrite <- Hes. exact Ein.
              ** apply in_app_iff. right. left. exact Hes.
           ++ right. exists e. split; assumption.
    + apply (IH (S k) s).
Qed.

(** X25.  What GET /status reports for a data type, when every reading of
    the clock during the request lies between t0 and t1.  A data type has
    an entry in the report exactly when the cache holds an entry of that
    type; its total is the number of those entries; its expired count lies
    between the number of them that expire before t0 and the number that
    expire before t1, so never above the total; and its sources are the
    sources of those entries, each listed once. *)
Theorem data_status_counts (health : DbHealth) (cache : Cache)
    (status : gmap string DataStatus.t) (data_type : string) :
  get_data_status health clock cache = Ok status ->
  let entries := entries_of data_type cache in
  match status !! data_type with
  | None => entries = []
  | Some s =>
      entries <> [] /\
      DataStatus.total_entries s = length entries /\
      (expired_before t0 entries <= DataStatus.expired_entries s)%nat /\
      (DataStatus.expired_entries s <= expired_before t1 entries)%nat /\
      (DataStatus.expired_entries s <= DataStatus.total_entries s)%nat /\
      NoDup (DataStatus.sources s) /\
      (forall src,
         In src (DataStatus.sources s) <->
         exists e, In e entries /\ RiskDataCache.source e = src)
  end.
Proof.
  unfold get_data_status. destruct health; try discriminate.
  intros E. apply Ok_inj in E. subst status. cbv zeta.
  rewrite status_loop_lookup, lookup_empty.
  pose proof (status_of_spec data_type cache 0 None) as Hs. cbv zeta in Hs.
  cbn [default DataStatus.sources DataStatus.total_entries
       DataStatus.expired_entries] in Hs.
  destruct (status_of clock 0 data_type cache None) as [s |]; [| apply Hs].
  destruct Hs as (Hne & Ht & Hlo & Hhi & Hnd & Hsrc).
  pose proof (expired_before_le_length t1 (entries_of data_type cache)).
  split; [destruct Hne as [[x Hx] | Hne]; [discriminate Hx | exact Hne] |].
  split; [exact Ht |]. split; [lia |]. split; [lia |]. split; [lia |].
  split; [apply Hnd; constructor |].
  intros src. rewrite Hsrc. cbn [In]. tauto.
Qed.

End StatusFacts.

Lemma data_status_counts_witness :
  match status_loop (fun _ => 500%Z) 0 stale_cache ∅ !! "market"%string with
  | None => entries_of "market" stale_cache = []
  | Some s =>
      entries_of "market" stale_cache <> [] /\
      DataStatus.total_entries s = length (entries_of "market" stale_cache) /\
      (expired_before 500 (entries_of "market" stale_cache)
       <= DataStatus.expired_entries s)%nat /\
      (DataStatus.expired_entries s
       <= expired_before 500 (entries_of "market" stale_cache))%nat /\
      (DataStatus.expired_entries s <= DataStatus.total_entries s)%nat /\
      NoDup (DataStatus.sources s) /\
      (forall src,
         In src (DataStatus.sources s) <->
         exists e, In e (entries_of "market" stale_cache)
                   /\ RiskDataCache.source e = src)
  end.
Proof.
  refine (data_status_counts (fun _ => 500%Z) 500 500 _ DbUp stale_cache _
            "market" eq_refl).
  intros _. lia.
Defined.

Lemma refresh_response_matches_task_witness :
  (refresh_data (Some [])).2 = ["market"; "supply_chain"; "regulatory"; "hr"]%string.
Proof.
  destruct (refresh_response_matches_task (H := reference_platform) quiet_env
              (Some []) empty_world) as (body & w' & E & _ & _ & Hdefault & _).
  rewrite E. cbn [snd]. apply Hdefault. right. reflexivity.
Defined.
